(** * Plugin registry (adapter store) and automation service

    A shallow embedding of
      - [src/pages/content/src/stores/adapter.store.ts] (the zustand store
        behind [useAdapterStore]), and
      - the automation service ([AutomationService], with its module-level
        [storeRefs]),
    together with the properties the specification states about them.

    Conventions of the embedding.
      - An [async] function is a computation in the monad [M]: it reads and
        writes the [World] and either returns a value or throws.  A call runs
        to completion before the next one starts; interleavings at [await]
        points are outside the model.
      - A plugin is a record of lifecycle hooks and optional capabilities.
        What a hook returns, and whether it throws, may depend on everything
        that was invoked before: each hook is a function of the call log.
        Hooks do not call back into the store.
      - Every hook or capability invocation, every [eventBus.emit] and every
        awaited sleep is appended to the call log of the world, with the value
        it returned or threw.  [logger] output is not modelled.
      - [setTimeout] callbacks and [async] calls that are not awaited are
        recorded as pending tasks of the world; [runTask] is their body.
      - [registeredPlugins], a plain object used as a dictionary, is a finite
        map from names to registrations, read through [property]: under a
        name that has no entry the object still has what it inherits from
        [Object.prototype].  The store's own assignments to such an
        inherited builtin ([status], [error], [config]; under ['__proto__']
        they reach [Object.prototype] itself) are not tracked: the model
        describes the store while these builtins are as the engine made
        them.
      - Delays are whole seconds and their products with 1000 are exact: the
        source computes them in double precision, which agrees below 2^53. *)

From stdpp Require Import base option list strings gmap.
From Stdlib Require Import ZArith Lia.

Local Open Scope Z_scope.
Local Open Scope string_scope.
Local Open Scope list_scope.

(** ** Values *)

(** A thrown or recorded error: the source types it [string | Error]. *)
Inductive ErrorValue : Type :=
| ErrString (s : string)
| ErrObject (message : string).

(** The result of invoking plugin code. *)
Inductive Outcome (A : Type) : Type :=
| Returned (a : A)
| Threw (e : ErrorValue).
Arguments Returned {A} a.
Arguments Threw {A} e.

(** [File] of the DOM, as far as the service looks at it. *)
Record File : Type := mkFile {
  file_name : string;
  file_content : string
}.

(** Modelled from the spec: the declaration of [AdapterCapability] in
    [types/plugins] is not part of the sources; the spec describes it as an
    enumerated tag such as insert-text, attach-file, submit-form. *)
Abbreviation AdapterCapability := string (only parsing).

(** Modelled from the spec: the status type of [PluginRegistration] in
    [types/plugins] is not part of the sources; these are the states of the
    spec's state machine and the string literals the store assigns. *)
Inductive PluginStatus : Type :=
| st_registered
| st_initialized
| st_active
| st_inactive
| st_error.

(** Events published on the bus, one constructor per topic the two modules
    emit, with the payload fields of the source. *)
Inductive BusEvent : Type :=
| PluginRegistered (name version : string)
| PluginUnregistered (name : string)
| PluginInitializationComplete (name : string)
| PluginActivationFailed (name : string) (error : ErrorValue)
| AdapterActivated (pluginName : string) (timestamp : Z)
| AdapterDeactivated (pluginName reason : string) (timestamp : Z)
| AdapterCapabilityChanged (name : string) (capabilities : list AdapterCapability)
| AdapterError (name : string) (error : ErrorValue).

Inductive Hook : Type := Initialize | Activate | Deactivate | Cleanup.

(** One entry of the call log. *)
Inductive Call : Type :=
| Lifecycle (h : Hook) (plugin : string) (r : Outcome unit)
| InsertText (plugin : string) (text : string) (r : Outcome bool)
| AttachFile (plugin : string) (file : File) (r : Outcome bool)
| SubmitForm (plugin : string) (r : Outcome bool)
| Emit (ev : BusEvent)
| Sleep (ms : Z).

Abbreviation Log := (list Call) (only parsing).

(** ** Plugins and registrations *)

(** Modelled from the spec: [AdapterPlugin] of [types/plugins] is not part of
    the sources.  The fields are those the two modules use: the descriptor
    ([name], [version], [capabilities]), the four lifecycle hooks and the
    three optional capabilities of the spec's capability contract. *)
Record AdapterPlugin : Type := mkPlugin {
  name : string;
  version : string;
  capabilities : list AdapterCapability;
  initialize : Log -> Outcome unit;
  activate : Log -> Outcome unit;
  deactivate : Log -> Outcome unit;
  cleanup : Log -> Outcome unit;
  insertText : option (Log -> string -> Outcome bool);
  attachFile : option (Log -> File -> Outcome bool);
  submitForm : option (Log -> Outcome bool)
}.

(** Modelled from the spec: [PluginRegistration['config']] is declared in
    [types/plugins], which is not part of the sources; the spec gives it the
    [enabled] flag, which the store reads, and adapter-specific options. *)
Record PluginConfig : Type := mkConfig {
  enabled : bool;
  options : gmap string string
}.

(** [Partial<PluginRegistration['config']>]. *)
Record PartialConfig : Type := mkPartialConfig {
  enabled_opt : option bool;
  options_opt : option (gmap string string)
}.

(** [{ ...config, ...configUpdate }] *)
Definition mergeConfig (config : PluginConfig) (configUpdate : PartialConfig) : PluginConfig :=
  {| enabled := default (enabled config) (enabled_opt configUpdate);
     options := default (options config) (options_opt configUpdate) |}.

(** Modelled from the spec: [PluginRegistration] is declared in
    [types/plugins]; the fields are those the store reads and assigns
    ([reg_error] is the field the source calls [error]). *)
Record PluginRegistration : Type := mkRegistration {
  plugin : AdapterPlugin;
  config : PluginConfig;
  registeredAt : Z;
  status : PluginStatus;
  instance : option AdapterPlugin;
  reg_error : option ErrorValue;
  lastUsedAt : option Z
}.

(** In-place assignments to fields of a registration object. *)
Definition with_status (s : PluginStatus) (r : PluginRegistration) : PluginRegistration :=
  {| plugin := plugin r; config := config r; registeredAt := registeredAt r;
     status := s; instance := instance r; reg_error := reg_error r;
     lastUsedAt := lastUsedAt r |}.

Definition with_instance (i : AdapterPlugin) (r : PluginRegistration) : PluginRegistration :=
  {| plugin := plugin r; config := config r; registeredAt := registeredAt r;
     status := status r; instance := Some i; reg_error := reg_error r;
     lastUsedAt := lastUsedAt r |}.

Definition with_error (e : ErrorValue) (r : PluginRegistration) : PluginRegistration :=
  {| plugin := plugin r; config := config r; registeredAt := registeredAt r;
     status := status r; instance := instance r; reg_error := Some e;
     lastUsedAt := lastUsedAt r |}.

Definition with_lastUsedAt (t : Z) (r : PluginRegistration) : PluginRegistration :=
  {| plugin := plugin r; config := config r; registeredAt := registeredAt r;
     status := status r; instance := instance r; reg_error := reg_error r;
     lastUsedAt := Some t |}.

Definition with_config (c : PluginConfig) (r : PluginRegistration) : PluginRegistration :=
  {| plugin := plugin r; config := c; registeredAt := registeredAt r;
     status := status r; instance := instance r; reg_error := reg_error r;
     lastUsedAt := lastUsedAt r |}.

(** ** The world *)

(** The data fields of [AdapterState]. *)
Record AdapterState : Type := mkAdapterState {
  registeredPlugins : gmap string PluginRegistration;
  activeAdapterName : option string;
  currentCapabilities : list AdapterCapability;
  lastAdapterError : option (string * ErrorValue)
}.

Definition initialState : AdapterState :=
  {| registeredPlugins := ∅;
     activeAdapterName := None;
     currentCapabilities := [];
     lastAdapterError := None |}.

(** The fields of the UI store's [preferences] that the service reads; any
    of them may be undefined. *)
Record Preferences : Type := mkPreferences {
  pref_autoInsert : option bool;
  pref_autoSubmit : option bool;
  pref_autoExecute : option bool;
  pref_autoInsertDelay : option Z;
  pref_autoSubmitDelay : option Z;
  pref_autoExecuteDelay : option Z
}.

Record AutomationState : Type := mkAutomationState {
  autoInsert : bool;
  autoSubmit : bool;
  autoExecute : bool;
  autoInsertDelay : Z;
  autoSubmitDelay : Z;
  autoExecuteDelay : Z
}.

Record ToolExecutionCompleteDetail : Type := mkDetail {
  result : option string;
  isFileAttachment : option bool;
  file : option File;
  fileName : option string;
  confirmationText : option string;
  skipAutoInsertCheck : option bool;
  callId : option string;
  functionName : option string
}.

(** [CustomEvent<ToolExecutionCompleteDetail>] *)
Record CustomEvent : Type := mkEvent {
  detail : option ToolExecutionCompleteDetail
}.

(** A capability bound to its plugin: [plugin.insertText.bind(plugin)]. *)
Record Bound (F : Type) : Type := mkBound {
  owner : string;
  fn : F
}.
Arguments mkBound {F} owner fn.
Arguments owner {F} b.
Arguments fn {F} b.

(** Work started by the service and not awaited by the pipeline. *)
Inductive Task : Type :=
| TaskAutoExecute (d : ToolExecutionCompleteDetail)
| TaskInsertConfirmation (insert : Bound (Log -> string -> Outcome bool)) (text : string).

(** [storeRefs]: whether each accessor has been set by
    [initializeStoreAccess] (the accessors themselves are [getUserPreferences]
    and [getCurrentAdapterState] below). *)
Record StoreRefs : Type := mkStoreRefs {
  has_getUserPreferences : bool;
  has_getCurrentAdapterState : bool
}.

Record World : Type := mkWorld {
  store : AdapterState;
  preferences : Preferences;
  storeRefs : StoreRefs;
  window_mcpAutomationState : option AutomationState;
  clock : Z;
  log : list Call;
  pending : list (Z * Task)
}.

(** ** The monad of asynchronous computations *)

Definition M (A : Type) : Type := World -> Outcome A * World.

Definition ret {A} (a : A) : M A := fun w => (Returned a, w).

Definition bind {A B} (c : M A) (k : A -> M B) : M B :=
  fun w => match c w with
           | (Returned a, w') => k a w'
           | (Threw e, w') => (Threw e, w')
           end.

Definition throw {A} (e : ErrorValue) : M A := fun w => (Threw e, w).

(** [try { body } catch (e) { handler(e) }] *)
Definition try_catch {A} (body : M A) (handler : ErrorValue -> M A) : M A :=
  fun w => match body w with
           | (Returned a, w') => (Returned a, w')
           | (Threw e, w') => handler e w'
           end.

Declare Scope async_scope.
Delimit Scope async_scope with async.
Notation "'let*' x := c1 'in' c2" := (bind c1 (fun x => c2))
  (at level 10, x name, c1 at level 100, c2 at level 200) : async_scope.
Notation "c1 ;; c2" := (bind c1 (fun _ => c2))
  (at level 100, c2 at level 200, right associativity) : async_scope.
Local Open Scope async_scope.

(** Updates of one field of the world. *)
Definition withStore (s : AdapterState) (w : World) : World :=
  {| store := s; preferences := preferences w; storeRefs := storeRefs w;
     window_mcpAutomationState := window_mcpAutomationState w;
     clock := clock w; log := log w; pending := pending w |}.

Definition withLog (l : list Call) (w : World) : World :=
  {| store := store w; preferences := preferences w; storeRefs := storeRefs w;
     window_mcpAutomationState := window_mcpAutomationState w;
     clock := clock w; log := l; pending := pending w |}.

Definition withClock (t : Z) (w : World) : World :=
  {| store := store w; preferences := preferences w; storeRefs := storeRefs w;
     window_mcpAutomationState := window_mcpAutomationState w;
     clock := t; log := log w; pending := pending w |}.

Definition withPending (ts : list (Z * Task)) (w : World) : World :=
  {| store := store w; preferences := preferences w; storeRefs := storeRefs w;
     window_mcpAutomationState := window_mcpAutomationState w;
     clock := clock w; log := log w; pending := ts |}.

Definition withWindowState (st : option AutomationState) (w : World) : World :=
  {| store := store w; preferences := preferences w; storeRefs := storeRefs w;
     window_mcpAutomationState := st;
     clock := clock w; log := log w; pending := pending w |}.

Definition world : M World := fun w => (Returned w, w).

(** [get()] of the store. *)
Definition get : M AdapterState := fun w => (Returned (store w), w).

(** [set(state => ...)] of the store. *)
Definition set (f : AdapterState -> AdapterState) : M unit :=
  fun w => (Returned tt, withStore (f (store w)) w).

Definition record (c : Call) : M unit :=
  fun w => (Returned tt, withLog (log w ++ [c]) w).

(** [Date.now()] *)
Definition dateNow : M Z := fun w => (Returned (clock w), w).

(** Modelled from the spec: the event bus is not part of the sources.  By the
    spec a subscriber that throws is isolated and logged, so [emit] returns to
    the emitter; the emission is recorded in the call log. *)
Definition emit (ev : BusEvent) : M unit := record (Emit ev).

(** What a lifecycle hook of [p] does after the calls of [l]. *)
Definition invoke (h : Hook) (p : AdapterPlugin) (l : list Call) : Outcome unit :=
  match h with
  | Initialize => initialize p l
  | Activate => activate p l
  | Deactivate => deactivate p l
  | Cleanup => cleanup p l
  end.

(** Invoke a lifecycle hook of a plugin instance. *)
Definition callHook (h : Hook) (p : AdapterPlugin) : M unit :=
  fun w => let r := invoke h p (log w) in
           (r, withLog (log w ++ [Lifecycle h (name p) r]) w).

Definition assignIn (n : string) (f : PluginRegistration -> PluginRegistration)
    (s : AdapterState) : AdapterState :=
  {| registeredPlugins := alter f n (registeredPlugins s);
     activeAdapterName := activeAdapterName s;
     currentCapabilities := currentCapabilities s;
     lastAdapterError := lastAdapterError s |}.

(** A registration object lives in the store under its plugin's name, and the
    store's actions assign to the fields of the object they fetched
    ([pluginReg.status = ...]) before they call [set]: the assignment is an
    update in place of the entry, visible to every later [get()] and to a
    [catch] block that runs after it. *)
Definition assign (n : string) (f : PluginRegistration -> PluginRegistration) : M unit :=
  fun w => (Returned tt, withStore (assignIn n f (store w)) w).

(** [{ ...registeredPlugins, [name]: pluginReg }] where [pluginReg] is the
    object registered under [name]. *)
Definition reinsert (n : string) (regs : gmap string PluginRegistration)
  : gmap string PluginRegistration :=
  match regs !! n with
  | Some pluginReg => <[n := pluginReg]> regs
  | None => regs
  end.

(** The double quote character of the store's messages. *)
Definition dq : string := String (Ascii.ascii_of_nat 34) EmptyString.

Definition sidebar_plugin : string := "sidebar-plugin".

(** ** Reading the registry *)

(** The property names of [Object.prototype]: every plain object, the
    registry included, has a property under each of them without having an
    entry of its own. *)
Definition objectPrototypeNames : list string :=
  ["constructor"; "hasOwnProperty"; "isPrototypeOf"; "propertyIsEnumerable";
   "toLocaleString"; "toString"; "valueOf"; "__proto__";
   "__defineGetter__"; "__defineSetter__"; "__lookupGetter__"; "__lookupSetter__"].

Definition inherited (n : string) : bool := bool_decide (n ∈ objectPrototypeNames).

(** What [registeredPlugins[name]] evaluates to: the registration stored
    under the name; or the builtin inherited under it (a function, or
    [Object.prototype] itself under [__proto__]), which is truthy and has
    none of the fields of a registration; or [undefined]. *)
Inductive Property : Type :=
| Own (r : PluginRegistration)
| Inherited
| Undefined.

Definition property (regs : gmap string PluginRegistration) (n : string) : Property :=
  match regs !! n with
  | Some r => Own r
  | None => if inherited n then Inherited else Undefined
  end.

(** [v?.plugin] *)
Definition pluginOf (v : Property) : option AdapterPlugin :=
  match v with
  | Own r => Some (plugin r)
  | Inherited | Undefined => None
  end.

(** The [TypeError] of reading [field] of [undefined], with the message the
    engine of the extension's browser gives it. *)
Definition typeError (field : string) : ErrorValue :=
  ErrObject ("Cannot read properties of undefined (reading '" +:+ field +:+ "')").

(** ** The adapter store *)


(** [activeName ? get().registeredPlugins[activeName] : undefined]; the empty
    string is falsy. *)
Definition getActiveAdapter : M Property :=
  let* s := get in
  match activeAdapterName s with
  | Some activeName =>
      if String.eqb activeName "" then ret Undefined
      else ret (property (registeredPlugins s) activeName)
  | None => ret Undefined
  end.

(** Under an inherited name the source takes its first branch with the
    builtin as [pluginReg]: besides what the second branch does, it assigns
    [status] and [error] on the builtin and stores the builtin under the
    name, which changes no later read of the registry under that name. *)
Definition setPluginError (n : string) (error : ErrorValue) : M unit :=
  let* s := get in
  match registeredPlugins s !! n with
  | Some pluginReg =>
      assign n (with_status st_error);;
      assign n (with_error error);;
      set (fun state =>
             {| registeredPlugins := reinsert n (registeredPlugins state);
                activeAdapterName := activeAdapterName state;
                currentCapabilities := currentCapabilities state;
                lastAdapterError := Some (n, error) |})
  | None =>
      set (fun state =>
             {| registeredPlugins := registeredPlugins state;
                activeAdapterName := activeAdapterName state;
                currentCapabilities := currentCapabilities state;
                lastAdapterError := Some (n, error) |})
  end;;
  emit (AdapterError n error).

Definition registerPlugin (p : AdapterPlugin) (cfg : PluginConfig) : M bool :=
  let* s := get in
  match registeredPlugins s !! name p with
  | Some _ => ret false
  | None =>
      (* an inherited builtin is truthy: "already registered" *)
      if inherited (name p) then ret false
      else
      let* now := dateNow in
      let registration :=
        {| plugin := p; config := cfg; registeredAt := now;
           status := st_registered; instance := None; reg_error := None;
           lastUsedAt := None |} in
      set (fun state =>
             {| registeredPlugins := <[name p := registration]> (registeredPlugins state);
                activeAdapterName := activeAdapterName state;
                currentCapabilities := currentCapabilities state;
                lastAdapterError := lastAdapterError state |});;
      emit (PluginRegistered (name p) (version p));;
      ret true
  end.

Definition unregisterPlugin (n : string) : M unit :=
  let* s := get in
  match registeredPlugins s !! n with
  | None =>
      if inherited n then
        (* the builtin is truthy and has no [instance]: no hook is called *)
        let* s := get in
        let remainingPlugins := delete n (registeredPlugins s) in
        set (fun _ =>
               {| registeredPlugins := remainingPlugins;
                  activeAdapterName :=
                    if bool_decide (activeAdapterName s = Some n) then None
                    else activeAdapterName s;
                  currentCapabilities :=
                    if bool_decide (activeAdapterName s = Some n) then []
                    else currentCapabilities s;
                  lastAdapterError := lastAdapterError s |});;
        emit (PluginUnregistered n)
      else ret tt
  | Some pluginReg =>
      (match instance pluginReg with
       | Some inst =>
           if bool_decide (activeAdapterName s = Some n) then
             try_catch (callHook Deactivate inst;; callHook Cleanup inst)
                       (fun _ => ret tt)
           else ret tt
       | None => ret tt
       end);;
      let* s := get in
      let remainingPlugins := delete n (registeredPlugins s) in
      set (fun _ =>
             {| registeredPlugins := remainingPlugins;
                activeAdapterName :=
                  if bool_decide (activeAdapterName s = Some n) then None
                  else activeAdapterName s;
                currentCapabilities :=
                  if bool_decide (activeAdapterName s = Some n) then []
                  else currentCapabilities s;
                lastAdapterError := lastAdapterError s |});;
      emit (PluginUnregistered n)
  end.

Definition activateAdapter (n : string) : M bool :=
  let* s := get in
  match registeredPlugins s !! n with
  | None =>
      if inherited n then
        (* [!pluginReg] is false for the builtin, which has no [config] *)
        throw (typeError "enabled")
      else
        setPluginError n (ErrString ("Plugin " +:+ dq +:+ n +:+ dq +:+ " not registered."));;
        ret false
  | Some pluginReg =>
      if negb (enabled (config pluginReg)) then
        setPluginError n (ErrString ("Plugin " +:+ dq +:+ n +:+ dq +:+ " is disabled."));;
        ret false
      else
        let* currentActiveAdapter := getActiveAdapter in
        (match currentActiveAdapter with
         | Own cur =>
             if negb (String.eqb (name (plugin cur)) n) then
               (* Never deactivate sidebar-plugin *)
               if negb (String.eqb (name (plugin cur)) sidebar_plugin) then
                 try_catch
                   ((match instance cur with
                     | Some inst => callHook Deactivate inst
                     | None => ret tt
                     end);;
                    let* now := dateNow in
                    emit (AdapterDeactivated (name (plugin cur)) "switching adapter" now))
                   (fun _ => ret tt)
               else ret tt
             else ret tt
         | Inherited =>
             (* [currentActiveAdapter.plugin.name]: the builtin has no [plugin] *)
             throw (typeError "name")
         | Undefined => ret tt
         end);;
        try_catch
          ((* lazy initialization *)
           let* inst :=
             match instance pluginReg with
             | None =>
                 callHook Initialize (plugin pluginReg);;
                 assign n (with_instance (plugin pluginReg));;
                 assign n (with_status st_initialized);;
                 emit (PluginInitializationComplete n);;
                 ret (plugin pluginReg)
             | Some inst => ret inst
             end in
           callHook Activate inst;;
           assign n (with_status st_active);;
           let* now := dateNow in
           assign n (with_lastUsedAt now);;
           set (fun state =>
                  {| activeAdapterName :=
                       if negb (String.eqb n sidebar_plugin) then Some n
                       else activeAdapterName state;
                     currentCapabilities := capabilities (plugin pluginReg);
                     lastAdapterError := None;
                     registeredPlugins := reinsert n (registeredPlugins state) |});;
           let* now := dateNow in
           emit (AdapterActivated n now);;
           emit (AdapterCapabilityChanged n (capabilities (plugin pluginReg)));;
           ret true)
          (fun error =>
             assign n (with_status st_error);;
             assign n (with_error error);;
             set (fun state =>
                    {| lastAdapterError := Some (n, error);
                       registeredPlugins := reinsert n (registeredPlugins state);
                       activeAdapterName := activeAdapterName state;
                       currentCapabilities := currentCapabilities state |});;
             emit (PluginActivationFailed n error);;
             emit (AdapterError n error);;
             ret false)
  end.

(** [reason || 'user action'] *)
Definition reasonOrDefault (reason : option string) : string :=
  match reason with
  | Some r => if String.eqb r "" then "user action" else r
  | None => "user action"
  end.

Definition deactivateAdapter (n : string) (reason : option string) : M unit :=
  let* s := get in
  match registeredPlugins s !! n with
  | None =>
      if inherited n && bool_decide (activeAdapterName s = Some n) then
        (* the builtin has no [instance]; [status] is assigned on it *)
        try_catch
          (set (fun state =>
                  {| activeAdapterName := None;
                     currentCapabilities := [];
                     registeredPlugins := registeredPlugins state;
                     lastAdapterError := lastAdapterError state |});;
           let* now := dateNow in
           emit (AdapterDeactivated n (reasonOrDefault reason) now))
          (fun error =>
             set (fun state =>
                    {| lastAdapterError := Some (n, error);
                       registeredPlugins := registeredPlugins state;
                       activeAdapterName := activeAdapterName state;
                       currentCapabilities := currentCapabilities state |});;
             emit (AdapterError n error))
      else ret tt
  | Some pluginReg =>
      if negb (bool_decide (activeAdapterName s = Some n)) then ret tt
      else
        try_catch
          ((match instance pluginReg with
            | Some inst => callHook Deactivate inst
            | None => ret tt
            end);;
           assign n (with_status st_inactive);;
           set (fun state =>
                  {| activeAdapterName := None;
                     currentCapabilities := [];
                     registeredPlugins := reinsert n (registeredPlugins state);
                     lastAdapterError := lastAdapterError state |});;
           let* now := dateNow in
           emit (AdapterDeactivated n (reasonOrDefault reason) now))
          (fun error =>
             assign n (with_status st_error);;
             assign n (with_error error);;
             set (fun state =>
                    {| lastAdapterError := Some (n, error);
                       registeredPlugins := reinsert n (registeredPlugins state);
                       activeAdapterName := activeAdapterName state;
                       currentCapabilities := currentCapabilities state |});;
             emit (AdapterError n error))
  end.

Definition updatePluginConfig (n : string) (configUpdate : PartialConfig) : M unit :=
  let* s := get in
  match registeredPlugins s !! n with
  | Some pluginReg =>
      let newConfig := mergeConfig (config pluginReg) configUpdate in
      assign n (with_config newConfig);;
      set (fun state =>
             {| registeredPlugins := reinsert n (registeredPlugins state);
                activeAdapterName := activeAdapterName state;
                currentCapabilities := currentCapabilities state;
                lastAdapterError := lastAdapterError state |});;
      let* s := get in
      if bool_decide (Some n = activeAdapterName s) && negb (enabled newConfig) then
        (* not awaited; [deactivateAdapter] catches whatever its hook throws *)
        deactivateAdapter n (Some "disabled by config update")
      else ret tt
  | None =>
      if inherited n then
        (* [config] is assigned on the builtin, which had none: the merged
           config has the fields of the update *)
        let* s := get in
        if bool_decide (Some n = activeAdapterName s) &&
           bool_decide (enabled_opt configUpdate = Some false) then
          deactivateAdapter n (Some "disabled by config update")
        else ret tt
      else ret tt
  end.

(** ** Sequences of calls on the store *)

Inductive Action : Type :=
| RegisterPlugin (p : AdapterPlugin) (cfg : PluginConfig)
| UnregisterPlugin (n : string)
| ActivateAdapter (n : string)
| DeactivateAdapter (n : string) (reason : option string)
| UpdatePluginConfig (n : string) (configUpdate : PartialConfig)
| SetPluginError (n : string) (error : ErrorValue)
| Elapse (ms : Z).

(** Time passing between two calls. *)
Definition elapse (ms : Z) : M unit :=
  fun w => (Returned tt, withClock (clock w + ms) w).

Definition perform (a : Action) : M unit :=
  match a with
  | RegisterPlugin p cfg => registerPlugin p cfg;; ret tt
  | UnregisterPlugin n => unregisterPlugin n
  | ActivateAdapter n => activateAdapter n;; ret tt
  | DeactivateAdapter n reason => deactivateAdapter n reason
  | UpdatePluginConfig n configUpdate => updatePluginConfig n configUpdate
  | SetPluginError n error => setPluginError n error
  | Elapse ms => elapse ms
  end.

(** The world after an action; what the action returned or threw is dropped. *)
Definition step (w : World) (a : Action) : World := snd (perform a w).

Definition run (acts : list Action) (w : World) : World := foldl step w acts.

(** A world whose store is the store's [initialState]. *)
Definition initialWorld (prefs : Preferences) (refs : StoreRefs) (now : Z) : World :=
  {| store := initialState; preferences := prefs; storeRefs := refs;
     window_mcpAutomationState := None; clock := now; log := []; pending := [] |}.

(** ** The automation service *)

(** JavaScript truthiness of an optional flag and of an optional string. *)
Definition truthy (b : option bool) : bool := default false b.

Definition nonEmpty (s : option string) : option string :=
  match s with
  | Some t => if String.eqb t "" then None else Some t
  | None => None
  end.

(** [x || 0] for an optional number. *)
Definition orZero (x : option Z) : Z := default 0 x.

(** [await new Promise(resolve => setTimeout(resolve, ms))] *)
Definition sleep (ms : Z) : M unit :=
  fun w => (Returned tt, withClock (clock w + ms) (withLog (log w ++ [Sleep ms]) w)).

(** Start [t] after [ms] milliseconds without awaiting it: [setTimeout], or a
    call of an [async] function whose promise is dropped ([ms = 0]). *)
Definition spawn (ms : Z) (t : Task) : M unit :=
  fun w => (Returned tt, withPending (pending w ++ [(ms, t)]) w).

Definition setWindowAutomationState (st : AutomationState) : M unit :=
  fun w => (Returned tt, withWindowState (Some st) w).

Definition callInsertText (f : Bound (Log -> string -> Outcome bool)) (text : string) : M bool :=
  fun w => let r := fn f (log w) text in
           (r, withLog (log w ++ [InsertText (owner f) text r]) w).

Definition callAttachFile (f : Bound (Log -> File -> Outcome bool)) (x : File) : M bool :=
  fun w => let r := fn f (log w) x in
           (r, withLog (log w ++ [AttachFile (owner f) x r]) w).

Definition callSubmitForm (f : Bound (Log -> Outcome bool)) : M bool :=
  fun w => let r := fn f (log w) in
           (r, withLog (log w ++ [SubmitForm (owner f) r]) w).

(** [storeRefs.getUserPreferences]: [useUIStore.getState().preferences]. *)
Definition getUserPreferences : M Preferences :=
  fun w => (Returned (preferences w), w).

(** [storeRefs.getUserPreferences?.()] *)
Definition getUserPreferences_opt : M (option Preferences) :=
  let* w := world in
  if has_getUserPreferences (storeRefs w) then
    let* p := getUserPreferences in ret (Some p)
  else ret None.

(** What [storeRefs.getCurrentAdapterState] returns. *)
Record CurrentAdapterState : Type := mkCurrentAdapterState {
  cas_plugin : option AdapterPlugin;
  cas_insertText : option (Bound (Log -> string -> Outcome bool));
  cas_attachFile : option (Bound (Log -> File -> Outcome bool));
  cas_submitForm : option (Bound (Log -> Outcome bool));
  isReady : bool
}.

Definition is_active (s : PluginStatus) : bool :=
  match s with st_active => true | _ => false end.

Definition getCurrentAdapterState : M CurrentAdapterState :=
  let* adapterState := get in
  let* activeAdapterRegistration := getActiveAdapter in
  let p := pluginOf activeAdapterRegistration in
  ret {| cas_plugin := p;
         cas_insertText := p ≫= (fun p => mkBound (name p) <$> insertText p);
         cas_attachFile := p ≫= (fun p => mkBound (name p) <$> attachFile p);
         cas_submitForm := p ≫= (fun p => mkBound (name p) <$> submitForm p);
         isReady :=
           match activeAdapterRegistration with
           | Own r =>
               is_active (status r) &&
               match lastAdapterError adapterState with
               | None => true
               | Some _ => false
               end
           | Inherited | Undefined => false
           end |}.

Definition getAutomationState : M (option AutomationState) :=
  try_catch
    (let* w := world in
     if negb (has_getUserPreferences (storeRefs w)) then ret None
     else
       let* preferences := getUserPreferences in
       ret (Some {| autoInsert := truthy (pref_autoInsert preferences);
                    autoSubmit := truthy (pref_autoSubmit preferences);
                    autoExecute := truthy (pref_autoExecute preferences);
                    autoInsertDelay := orZero (pref_autoInsertDelay preferences);
                    autoSubmitDelay := orZero (pref_autoSubmitDelay preferences);
                    autoExecuteDelay := orZero (pref_autoExecuteDelay preferences) |}))
    (fun _ => ret None).

Definition exposeAutomationStateToWindow : M unit :=
  try_catch
    (let* automationState := getAutomationState in
     match automationState with
     | Some st => setWindowAutomationState st
     | None => ret tt
     end)
    (fun _ => ret tt).

Definition delayOf (field : Preferences -> option Z) (preferences : option Preferences) : Z :=
  match preferences with
  | Some p => orZero (field p)
  | None => 0
  end.

(** Waits, then logs; no capability is involved. *)
Definition handleAutoExecute (d : ToolExecutionCompleteDetail) : M unit :=
  let* preferences := getUserPreferences_opt in
  let delay := delayOf pref_autoExecuteDelay preferences in
  (if (0 <? delay)%Z then sleep (delay * 1000) else ret tt);;
  ret tt.

Definition handleAutoInsert (d : ToolExecutionCompleteDetail) : M bool :=
  let* preferences := getUserPreferences_opt in
  let delay := delayOf pref_autoInsertDelay preferences in
  (if (0 <? delay)%Z then sleep (delay * 1000) else ret tt);;
  (* Additional safety check *)
  if truthy (skipAutoInsertCheck d) then ret false
  else
    try_catch
      (let* w := world in
       if negb (has_getCurrentAdapterState (storeRefs w)) then ret false
       else
         let* st := getCurrentAdapterState in
         match cas_plugin st with
         | None => ret false
         | Some activePlugin =>
             if negb (isReady st) then ret false
             else
               match (if truthy (isFileAttachment d) then file d else None),
                     cas_attachFile st with
               | Some x, Some attachFile =>
                   (* Handle file attachment *)
                   try_catch
                     (let* success := callAttachFile attachFile x in
                      if success then
                        (match nonEmpty (confirmationText d), cas_insertText st with
                         | Some text, Some insertText =>
                             spawn 100 (TaskInsertConfirmation insertText text)
                         | _, _ => ret tt
                         end);;
                        ret true
                      else ret false)
                     (fun _ => ret false)
               | _, _ =>
                   match nonEmpty (result d), cas_insertText st with
                   | Some text, Some insertText =>
                       (* Handle text insertion *)
                       try_catch
                         (let* success := callInsertText insertText text in
                          if success then ret true else ret false)
                         (fun _ => ret false)
                   | _, _ =>
                       (* No valid insertion method found *)
                       ret false
                   end
               end
         end)
      (fun _ => ret false).

Definition handleAutoSubmit (d : ToolExecutionCompleteDetail) : M bool :=
  let* preferences := getUserPreferences_opt in
  let delay := delayOf pref_autoSubmitDelay preferences in
  (if (0 <? delay)%Z then sleep (delay * 1000) else ret tt);;
  try_catch
    (let* w := world in
     if negb (has_getCurrentAdapterState (storeRefs w)) then ret false
     else
       let* st := getCurrentAdapterState in
       match cas_plugin st, cas_submitForm st with
       | Some activePlugin, Some submitForm =>
           if negb (isReady st) then ret false
           else
             sleep 800;;
             try_catch
               (let* success := callSubmitForm submitForm in
                if success then ret true else ret false)
               (fun _ => ret false)
       | _, _ => ret false
       end)
    (fun _ => ret false).

(** The first half of the body of [handleToolExecutionComplete]: read the
    policy, publish it on [window], start the auto-execute stage.  [None] is
    the early [return] when no automation state is available. *)
Definition beginPipeline (d : ToolExecutionCompleteDetail) : M (option AutomationState) :=
  let* automationState := getAutomationState in
  match automationState with
  | None => ret None
  | Some automationState =>
      exposeAutomationStateToWindow;;
      (* always run if enabled, independent of other actions; not awaited *)
      (if autoExecute automationState then spawn 0 (TaskAutoExecute d) else ret tt);;
      ret (Some automationState)
  end.

(** The second half: the auto-insert stage and, gated by its outcome, the
    auto-submit stage. *)
Definition insertThenSubmit (automationState : AutomationState)
    (d : ToolExecutionCompleteDetail) : M unit :=
  let shouldAutoInsert :=
    autoInsert automationState && negb (truthy (skipAutoInsertCheck d)) in
  if shouldAutoInsert then
    let* insertSuccess := handleAutoInsert d in
    if insertSuccess && autoSubmit automationState then
      handleAutoSubmit d;; ret tt
    else ret tt
  else ret tt.

Definition handleToolExecutionComplete (event : CustomEvent) : M unit :=
  match detail event with
  | None => ret tt
  | Some d =>
      try_catch
        (let* automationState := beginPipeline d in
         match automationState with
         | None => ret tt
         | Some automationState => insertThenSubmit automationState d
         end)
        (fun _ => ret tt)
  end.

(** The body of a pending task. *)
Definition runTask (t : Task) : M unit :=
  match t with
  | TaskAutoExecute d => handleAutoExecute d
  | TaskInsertConfirmation insert text =>
      try_catch (callInsertText insert text;; ret tt) (fun _ => ret tt)
  end.

(** ** Properties of states *)

(** The persistent plugin is recognised by its name. *)
Definition isPersistent (n : string) : bool := String.eqb n sidebar_plugin.

(** The names of the registrations that are not persistent and have status
    [active]. *)
Definition activeExclusive (w : World) : list string :=
  (List.filter
     (fun kv => negb (isPersistent (name (plugin (snd kv)))) &&
                is_active (status (snd kv)))
     (map_to_list (registeredPlugins (store w)))).*1.

(** Invariant I1 of the specification. *)
Definition exclusiveAdapterInvariant (w : World) : Prop :=
  (length (activeExclusive w) <= 1)%nat.

Definition hasInstance (r : PluginRegistration) : bool :=
  match instance r with Some _ => true | None => false end.

(** The statuses [{initialized, active, inactive, error}]. *)
Definition pastRegistered (s : PluginStatus) : bool :=
  match s with
  | st_registered => false
  | st_initialized | st_active | st_inactive | st_error => true
  end.

(** The statuses [{initialized, active, inactive}]. *)
Definition initializedOk (s : PluginStatus) : bool :=
  match s with
  | st_initialized | st_active | st_inactive => true
  | st_registered | st_error => false
  end.

(** Invariant I2 as the specification states it. *)
Definition instanceIffStatus (w : World) : Prop :=
  forall n r, registeredPlugins (store w) !! n = Some r ->
    (hasInstance r = true <-> pastRegistered (status r) = true).

(** What the store maintains between the instance and the status of a
    registration: an instance is the registration's own plugin and excludes
    status [registered]; without an instance the status is [registered] or
    [error]. *)
Definition goodReg (r : PluginRegistration) : Prop :=
  match instance r with
  | Some i => i = plugin r /\ status r <> st_registered
  | None => status r = st_registered \/ status r = st_error
  end.

(** The exclusive slot names a registration that has an instance. *)
Definition slotInitialized (regs : gmap string PluginRegistration)
    (ptr : option string) : Prop :=
  forall n, ptr = Some n -> exists r, regs !! n = Some r /\ is_Some (instance r).

Definition registryInv (regs : gmap string PluginRegistration)
    (ptr : option string) : Prop :=
  (forall n r, regs !! n = Some r -> goodReg r) /\ slotInitialized regs ptr.

Definition worldInv (w : World) : Prop :=
  registryInv (registeredPlugins (store w)) (activeAdapterName (store w)).

(** What one action does to the instance of a registration that exists before
    and after it. *)
Definition instanceStep (a : Action) (n : string) (r r' : PluginRegistration) : Prop :=
  instance r' = instance r \/
  (a = ActivateAdapter n /\ instance r = None /\ instance r' = Some (plugin r)).

(** ** Sample plugins and worlds *)

Definition succeeds : list Call -> Outcome unit := fun _ => Returned tt.
Definition fails (message : string) : list Call -> Outcome unit :=
  fun _ => Threw (ErrObject message).

(** A site adapter whose hooks all succeed and that binds no capability. *)
Definition sitePlugin (n : string) : AdapterPlugin :=
  {| name := n; version := "1.0.0"; capabilities := ["insert-text"];
     initialize := succeeds; activate := succeeds;
     deactivate := succeeds; cleanup := succeeds;
     insertText := None; attachFile := None; submitForm := None |}.

(** A plugin whose [initialize] throws. *)
Definition brokenInit (n : string) : AdapterPlugin :=
  {| name := n; version := "1.0.0"; capabilities := [];
     initialize := fails "init failed"; activate := succeeds;
     deactivate := succeeds; cleanup := succeeds;
     insertText := None; attachFile := None; submitForm := None |}.

(** A plugin that cannot be shut down: [deactivate] and [cleanup] throw. *)
Definition stubborn (n : string) : AdapterPlugin :=
  {| name := n; version := "1.0.0"; capabilities := ["insert-text"];
     initialize := succeeds; activate := succeeds;
     deactivate := fails "busy"; cleanup := fails "busy";
     insertText := None; attachFile := None; submitForm := None |}.

Definition enabledConfig : PluginConfig := {| enabled := true; options := ∅ |}.
Definition disabledConfig : PluginConfig := {| enabled := false; options := ∅ |}.

Definition noPreferences : Preferences :=
  {| pref_autoInsert := None; pref_autoSubmit := None; pref_autoExecute := None;
     pref_autoInsertDelay := None; pref_autoSubmitDelay := None;
     pref_autoExecuteDelay := None |}.

Definition freshWorld : World :=
  initialWorld noPreferences {| has_getUserPreferences := true;
                                has_getCurrentAdapterState := true |} 0.

(** [a] and [b] registered, [a] activated: [a] holds the exclusive slot. *)
Definition worldWithActiveA : World :=
  run [RegisterPlugin (sitePlugin "a") enabledConfig;
       RegisterPlugin (sitePlugin "b") enabledConfig;
       ActivateAdapter "a"] freshWorld.

(** ** Observations of a pipeline run *)

(** The calls made, and the tasks started, between [w] and a later [w']. *)
Definition newCalls (w w' : World) : list Call := drop (length (log w)) (log w').
Definition newTasks (w w' : World) : list (Z * Task) :=
  drop (length (pending w)) (pending w').

Definition isSubmitCall (c : Call) : bool :=
  match c with SubmitForm _ _ => true | _ => false end.

Definition isInsertOrSubmitCall (c : Call) : bool :=
  match c with InsertText _ _ _ | SubmitForm _ _ => true | _ => false end.

Definition isAttachCall (c : Call) : bool :=
  match c with AttachFile _ _ _ => true | _ => false end.

(** ** Sample events and adapters for the pipeline *)

(** An adapter with all three capabilities; each accepts what it is given. *)
Definition chatPlugin : AdapterPlugin :=
  {| name := "chat"; version := "1.0.0";
     capabilities := ["insert-text"; "attach-file"; "submit-form"];
     initialize := succeeds; activate := succeeds;
     deactivate := succeeds; cleanup := succeeds;
     insertText := Some (fun _ _ => Returned true);
     attachFile := Some (fun _ _ => Returned true);
     submitForm := Some (fun _ => Returned true) |}.

(** The same adapter, but its [insertText] reports failure. *)
Definition readOnlyPlugin : AdapterPlugin :=
  {| name := "chat"; version := "1.0.0";
     capabilities := ["insert-text"; "submit-form"];
     initialize := succeeds; activate := succeeds;
     deactivate := succeeds; cleanup := succeeds;
     insertText := Some (fun _ _ => Returned false);
     attachFile := None;
     submitForm := Some (fun _ => Returned true) |}.

Definition autoEverything : Preferences :=
  {| pref_autoInsert := Some true; pref_autoSubmit := Some true;
     pref_autoExecute := Some true;
     pref_autoInsertDelay := Some 2; pref_autoSubmitDelay := Some 1;
     pref_autoExecuteDelay := None |}.

(** The policy that [autoEverything] yields. *)
Definition everythingOn : AutomationState :=
  {| autoInsert := true; autoSubmit := true; autoExecute := true;
     autoInsertDelay := 2; autoSubmitDelay := 1; autoExecuteDelay := 0 |}.

(** A world in which [p] is the active adapter and every automation is on. *)
Definition automationWorld (p : AdapterPlugin) : World :=
  run [RegisterPlugin p enabledConfig; ActivateAdapter (name p)]
      (initialWorld autoEverything
         {| has_getUserPreferences := true; has_getCurrentAdapterState := true |} 0).

Definition textDetail (text : string) (skip : bool) : ToolExecutionCompleteDetail :=
  {| result := Some text; isFileAttachment := Some false;
     file := None; fileName := None; confirmationText := None;
     skipAutoInsertCheck := Some skip;
     callId := Some "call-1"; functionName := Some "search" |}.

Definition textResult (text : string) (skip : bool) : CustomEvent :=
  {| detail := Some (textDetail text skip) |}.

Definition reportFile : File := {| file_name := "report.txt"; file_content := "42" |}.

Definition fileDetail : ToolExecutionCompleteDetail :=
  {| result := None; isFileAttachment := Some true;
     file := Some reportFile; fileName := Some "report.txt";
     confirmationText := Some "File report.txt attached";
     skipAutoInsertCheck := Some false;
     callId := Some "call-2"; functionName := Some "export" |}.

Definition fileResult : CustomEvent := {| detail := Some fileDetail |}.

(** ** Further properties of states and of runs *)

(** Every registration is stored under the name of its plugin. *)
Definition keysAreNames (regs : gmap string PluginRegistration) : Prop :=
  forall n r, regs !! n = Some r -> name (plugin r) = n.

(** The statuses [{active, error}]. *)
Definition holderStatus (s : PluginStatus) : bool :=
  match s with
  | st_active | st_error => true
  | st_registered | st_initialized | st_inactive => false
  end.

(** The exclusive slot is empty, or names a registration that is not the
    persistent plugin and whose status is [active] or [error]. *)
Definition slotHolderOk (regs : gmap string PluginRegistration)
    (ptr : option string) : Prop :=
  forall n, ptr = Some n ->
    n <> sidebar_plugin /\
    exists r, regs !! n = Some r /\ holderStatus (status r) = true.

(** The second and third parts of [storeInv], action by action. *)
Definition slotInv (w : World) : Prop :=
  keysAreNames (registeredPlugins (store w)) /\
  slotHolderOk (registeredPlugins (store w)) (activeAdapterName (store w)).

(** What holds of the store in every state its actions reach. *)
Definition storeInv (w : World) : Prop :=
  worldInv w /\
  keysAreNames (registeredPlugins (store w)) /\
  slotHolderOk (registeredPlugins (store w)) (activeAdapterName (store w)).

Definition isLifecycleCall (c : Call) : bool :=
  match c with Lifecycle _ _ _ => true | _ => false end.

Definition isSleepCall (c : Call) : bool :=
  match c with Sleep _ => true | _ => false end.

(** A call of one of the three capabilities. *)
Definition isCapabilityCall (c : Call) : bool :=
  match c with
  | InsertText _ _ _ | AttachFile _ _ _ | SubmitForm _ _ => true
  | _ => false
  end.

Definition isInsertTextCall (c : Call) : bool :=
  match c with InsertText _ _ _ => true | _ => false end.

(** An [insertText] or [attachFile] call that returned [true]. *)
Definition insertionSucceeded (c : Call) : bool :=
  match c with
  | InsertText _ _ (Returned true) | AttachFile _ _ (Returned true) => true
  | _ => false
  end.

Definition isConfirmationTask (t : Z * Task) : bool :=
  match snd t with TaskInsertConfirmation _ _ => true | TaskAutoExecute _ => false end.

(** The registration that a successful activation leaves. *)
Definition activated (now : Z) (r : PluginRegistration) : PluginRegistration :=
  {| plugin := plugin r; config := config r; registeredAt := registeredAt r;
     status := st_active;
     instance := Some (default (plugin r) (instance r));
     reg_error := reg_error r; lastUsedAt := Some now |}.

(** ** Further sample worlds *)

(** The actions that lead to [worldWithActiveA]. *)
Definition registerAB_activateA : list Action :=
  [RegisterPlugin (sitePlugin "a") enabledConfig;
   RegisterPlugin (sitePlugin "b") enabledConfig;
   ActivateAdapter "a"].

(** The persistent plugin, with hooks that succeed. *)
Definition sidebarPlugin : AdapterPlugin := sitePlugin "sidebar-plugin".

(** [a] holds the slot and the persistent plugin is active beside it. *)
Definition sidebarBesideA : list Action :=
  registerAB_activateA ++
  [RegisterPlugin sidebarPlugin enabledConfig; ActivateAdapter "sidebar-plugin"].

(** ** The calls of the two stages *)

(** The configured wait at the start of a stage, as the stage logs it. *)
Definition delaySleeps (field : Preferences -> option Z) (w : World) : list Call :=
  let delay :=
    delayOf field
      (if has_getUserPreferences (storeRefs w) then Some (preferences w) else None) in
  if (0 <? delay)%Z then [Sleep (delay * 1000)] else [].

(** The service finds an adapter it can drive. *)
Definition adapterReady (w : World) (st : CurrentAdapterState) : Prop :=
  has_getCurrentAdapterState (storeRefs w) = true /\
  isReady st = true /\ is_Some (cas_plugin st).

Definition returnedTrue (r : Outcome bool) : bool :=
  match r with Returned true => true | _ => false end.

(** The task that a successful attachment starts. *)
Definition confirmationTasks (d : ToolExecutionCompleteDetail)
    (st : CurrentAdapterState) : list (Z * Task) :=
  match nonEmpty (confirmationText d), cas_insertText st with
  | Some text, Some insertText => [(100, TaskInsertConfirmation insertText text)]
  | _, _ => []
  end.

(** What the auto-insert stage did, by its result [b], the calls [calls] it
    made after its wait and the tasks [extra] it started: nothing; or one
    [attachFile] call; or one [insertText] call with the event's result. *)
Definition insertStageDid (d : ToolExecutionCompleteDetail) (w : World)
    (st : CurrentAdapterState) (b : bool) (calls : list Call)
    (extra : list (Z * Task)) : Prop :=
  (calls = [] /\ b = false /\ extra = []) \/
  (exists f x r,
     adapterReady w st /\ truthy (skipAutoInsertCheck d) = false /\
     (if truthy (isFileAttachment d) then file d else None) = Some x /\
     cas_attachFile st = Some f /\
     calls = [AttachFile (owner f) x r] /\ b = returnedTrue r /\
     extra = (if returnedTrue r then confirmationTasks d st else [])) \/
  (exists ins text r,
     adapterReady w st /\ truthy (skipAutoInsertCheck d) = false /\
     ((if truthy (isFileAttachment d) then file d else None) = None \/
      cas_attachFile st = None) /\
     nonEmpty (result d) = Some text /\ cas_insertText st = Some ins /\
     calls = [InsertText (owner ins) text r] /\ b = returnedTrue r /\
     extra = []).

(** What the auto-submit stage did after its wait: nothing, or the settle
    wait of 800 ms and one [submitForm] call. *)
Definition submitStageDid (w : World) (st : CurrentAdapterState)
    (calls : list Call) : Prop :=
  (calls = [] /\
   ~ (adapterReady w st /\ is_Some (cas_submitForm st))) \/
  (exists f r,
     adapterReady w st /\ cas_submitForm st = Some f /\
     calls = [Sleep 800; SubmitForm (owner f) r]).


(** The plugin a call is addressed to. *)
Definition callee (c : Call) : option string :=
  match c with
  | Lifecycle _ p _ | InsertText p _ _ | AttachFile p _ _ | SubmitForm p _ => Some p
  | Emit _ | Sleep _ => None
  end.

(** ** Further sample preferences *)

(** Auto-submit switched on, auto-insert switched off. *)
Definition submitOnly : Preferences :=
  {| pref_autoInsert := Some false; pref_autoSubmit := Some true;
     pref_autoExecute := Some false;
     pref_autoInsertDelay := None; pref_autoSubmitDelay := None;
     pref_autoExecuteDelay := None |}.

(** [chatPlugin] is the active adapter; the preferences are [submitOnly]. *)
Definition submitOnlyWorld : World :=
  run [RegisterPlugin chatPlugin enabledConfig; ActivateAdapter "chat"]
      (initialWorld submitOnly
         {| has_getUserPreferences := true; has_getCurrentAdapterState := true |} 0).

(** What the service does with a plugin: it waits, or calls a capability of
    the plugin of the adapter state, which is ready. *)
Definition drives (st : CurrentAdapterState) (c : Call) : Prop :=
  isSleepCall c = true \/
  exists p, cas_plugin st = Some p /\ isReady st = true /\
            isCapabilityCall c = true /\ callee c = Some (name p).

(** ** The service object *)

(** [initializeStoreAccess]: both accessors are set; the assignments cannot
    throw. *)
Definition initializeStoreAccess : M unit :=
  try_catch
    (fun w =>
       (Returned tt,
        {| store := store w; preferences := preferences w;
           storeRefs := {| has_getUserPreferences := true;
                           has_getCurrentAdapterState := true |};
           window_mcpAutomationState := window_mcpAutomationState w;
           clock := clock w; log := log w; pending := pending w |}))
    (fun _ => ret tt).

(** [triggerTestAutomation(detail)] *)
Definition triggerTestAutomation (d : ToolExecutionCompleteDetail) : M unit :=
  handleToolExecutionComplete {| detail := Some d |}.

(** The development helper [window.__automationService.testAutoSubmit]. *)
Definition testAutoSubmit : M unit :=
  triggerTestAutomation
    {| result := Some "Test result for auto submit";
       isFileAttachment := Some false;
       file := None; fileName := None; confirmationText := None;
       skipAutoInsertCheck := Some true;
       callId := None; functionName := None |}.

Module AutomationService.

(** The singleton and what it has installed on the page.  A listener is a
    closure, and each closure the service creates is a new object; closures
    are numbered in the order of their creation.  [documentListeners] are
    the service's listeners of [mcp:tool-execution-complete] on [document];
    [statusHandlers] counts its handlers of [connection:status-changed] on
    the event bus. *)
Record Service : Type := mkService {
  isInitialized : bool;
  eventListener : option nat;
  documentListeners : list nat;
  statusHandlers : nat;
  closures : nat
}.

(** [document.removeEventListener]: the listener is taken off, if it is on. *)
Definition removeEventListener (l : nat) (s : Service) : Service :=
  {| isInitialized := isInitialized s; eventListener := eventListener s;
     documentListeners := List.filter (fun x => negb (Nat.eqb x l)) (documentListeners s);
     statusHandlers := statusHandlers s; closures := closures s |}.

(** [document.addEventListener]: a listener that is already on is not added
    again. *)
Definition addEventListener (l : nat) (s : Service) : Service :=
  {| isInitialized := isInitialized s; eventListener := eventListener s;
     documentListeners :=
       if existsb (Nat.eqb l) (documentListeners s) then documentListeners s
       else documentListeners s ++ [l];
     statusHandlers := statusHandlers s; closures := closures s |}.

Definition setupToolExecutionListener (s : Service) : Service :=
  (* Remove existing listener if any *)
  let s :=
    match eventListener s with
    | Some l => removeEventListener l s
    | None => s
    end in
  (* Create new event listener *)
  let l := closures s in
  let s :=
    {| isInitialized := isInitialized s; eventListener := Some l;
       documentListeners := documentListeners s;
       statusHandlers := statusHandlers s; closures := S l |} in
  addEventListener l s.

(** Modelled from the spec: [eventBus.on] of [events/event-bus] is not part
    of the sources; it subscribes the handler to the topic, and the
    unsubscribe token it returns is dropped here. *)
Definition setupMCPStateListener (s : Service) : Service :=
  {| isInitialized := isInitialized s; eventListener := eventListener s;
     documentListeners := documentListeners s;
     statusHandlers := S (statusHandlers s); closures := closures s |}.

Definition initialize (s : Service) : M Service :=
  if isInitialized s then ret s
  else
    initializeStoreAccess;;
    let s := setupToolExecutionListener s in
    let s := setupMCPStateListener s in
    exposeAutomationStateToWindow;;
    ret {| isInitialized := true; eventListener := eventListener s;
           documentListeners := documentListeners s;
           statusHandlers := statusHandlers s; closures := closures s |}.

Definition cleanup (s : Service) : Service :=
  if negb (isInitialized s) then s
  else
    let s :=
      match eventListener s with
      | Some l =>
          let s := removeEventListener l s in
          {| isInitialized := isInitialized s; eventListener := None;
             documentListeners := documentListeners s;
             statusHandlers := statusHandlers s; closures := closures s |}
      | None => s
      end in
    {| isInitialized := false; eventListener := eventListener s;
       documentListeners := documentListeners s;
       statusHandlers := statusHandlers s; closures := closures s |}.

Definition isServiceInitialized (s : Service) : bool := isInitialized s.

(** [new AutomationService()] *)
Definition newService : Service :=
  {| isInitialized := false; eventListener := None; documentListeners := [];
     statusHandlers := 0; closures := 0 |}.

(** The calls of the two exported functions, each awaited before the next. *)
Inductive ServiceCall : Type := InitializeAutomationService | CleanupAutomationService.

Definition call (c : ServiceCall) (sw : Service * World) : Service * World :=
  match c with
  | InitializeAutomationService =>
      match initialize (fst sw) (snd sw) with
      | (Returned s, w) => (s, w)
      | (Threw _, w) => (fst sw, w)
      end
  | CleanupAutomationService => (cleanup (fst sw), snd sw)
  end.

Definition calls (cs : list ServiceCall) (sw : Service * World) : Service * World :=
  fold_left (fun sw c => call c sw) cs sw.

(** [n] rounds of [initialize] followed by [cleanup]. *)
Definition rounds (n : nat) (sw : Service * World) : Service * World :=
  Nat.iter n (fun sw => call CleanupAutomationService (call InitializeAutomationService sw)) sw.

(** What holds of the service between calls: its listeners on [document]
    are its current listener, and it has none when it is not initialized. *)
Definition listenerInv (s : Service) : Prop :=
  documentListeners s = match eventListener s with Some l => [l] | None => [] end /\
  (isInitialized s = false -> eventListener s = None).

End AutomationService.

(** * Reasoning about computations *)

(** [wp c Q w]: running [c] in [w] ends in an outcome and a world that
    satisfy [Q].  Computations are total functions, so every run ends. *)
Definition wp {A} (c : M A) (Q : Outcome A -> World -> Prop) (w : World) : Prop :=
  Q (fst (c w)) (snd (c w)).

(** The postcondition of a [bind]: continue after a value, propagate a throw. *)
Definition after {A B} (k : A -> M B) (Q : Outcome B -> World -> Prop)
    (r : Outcome A) (w : World) : Prop :=
  match r with
  | Returned a => wp (k a) Q w
  | Threw e => Q (Threw e) w
  end.

(** The postcondition of the body of a [try]. *)
Definition caught {A} (h : ErrorValue -> M A) (Q : Outcome A -> World -> Prop)
    (r : Outcome A) (w : World) : Prop :=
  match r with
  | Returned a => Q (Returned a) w
  | Threw e => wp (h e) Q w
  end.

Section ProgramLogic.
Context {A B : Type}.
Implicit Types (Q : Outcome B -> World -> Prop) (w : World).

Lemma wp_ret (a : B) Q w : Q (Returned a) w -> wp (ret a) Q w.
Proof. exact (fun H => H). Qed.

Lemma wp_bind (c : M A) (k : A -> M B) Q w :
  wp c (after k Q) w -> wp (bind c k) Q w.
Proof.
  unfold wp, after, bind. destruct (c w) as [[a|e] w']; exact (fun H => H).
Qed.

Lemma wp_try_catch (body : M B) (h : ErrorValue -> M B) Q w :
  wp body (caught h Q) w -> wp (try_catch body h) Q w.
Proof.
  unfold wp, caught, try_catch. destruct (body w) as [[a|e] w']; exact (fun H => H).
Qed.

Lemma wp_mono (c : M B) (Q Q' : Outcome B -> World -> Prop) w :
  (forall r w', Q r w' -> Q' r w') -> wp c Q w -> wp c Q' w.
Proof. unfold wp. auto. Qed.

Lemma wp_elim (c : M B) Q w : wp c Q w -> Q (fst (c w)) (snd (c w)).
Proof. exact (fun H => H). Qed.

Lemma after_returned (k : A -> M B) Q a w :
  wp (k a) Q w -> after k Q (Returned a) w.
Proof. exact (fun H => H). Qed.

Lemma after_threw (k : A -> M B) Q e w :
  Q (Threw e) w -> after k Q (Threw e) w.
Proof. exact (fun H => H). Qed.

Lemma caught_returned (h : ErrorValue -> M B) Q a w :
  Q (Returned a) w -> caught h Q (Returned a) w.
Proof. exact (fun H => H). Qed.

Lemma caught_threw (h : ErrorValue -> M B) Q e w :
  wp (h e) Q w -> caught h Q (Threw e) w.
Proof. exact (fun H => H). Qed.
End ProgramLogic.

Section Primitives.
Implicit Types (w : World).

Lemma wp_get (Q : Outcome AdapterState -> World -> Prop) w :
  Q (Returned (store w)) w -> wp get Q w.
Proof. exact (fun H => H). Qed.

Lemma wp_throw {A} e (Q : Outcome A -> World -> Prop) w :
  Q (Threw e) w -> wp (throw e) Q w.
Proof. exact (fun H => H). Qed.

Lemma wp_world (Q : Outcome World -> World -> Prop) w :
  Q (Returned w) w -> wp world Q w.
Proof. exact (fun H => H). Qed.

Lemma wp_dateNow (Q : Outcome Z -> World -> Prop) w :
  Q (Returned (clock w)) w -> wp dateNow Q w.
Proof. exact (fun H => H). Qed.

Lemma wp_set f (Q : Outcome unit -> World -> Prop) w :
  Q (Returned tt) (withStore (f (store w)) w) -> wp (set f) Q w.
Proof. exact (fun H => H). Qed.

Lemma wp_assign n f (Q : Outcome unit -> World -> Prop) w :
  Q (Returned tt) (withStore (assignIn n f (store w)) w) -> wp (assign n f) Q w.
Proof. exact (fun H => H). Qed.

Lemma wp_record c (Q : Outcome unit -> World -> Prop) w :
  Q (Returned tt) (withLog (log w ++ [c]) w) -> wp (record c) Q w.
Proof. exact (fun H => H). Qed.

Lemma wp_emit ev (Q : Outcome unit -> World -> Prop) w :
  Q (Returned tt) (withLog (log w ++ [Emit ev]) w) -> wp (emit ev) Q w.
Proof. exact (fun H => H). Qed.

Lemma wp_callHook h p (Q : Outcome unit -> World -> Prop) w :
  Q (invoke h p (log w)) (withLog (log w ++ [Lifecycle h (name p) (invoke h p (log w))]) w) ->
  wp (callHook h p) Q w.
Proof. exact (fun H => H). Qed.

Lemma wp_sleep ms (Q : Outcome unit -> World -> Prop) w :
  Q (Returned tt) (withClock (clock w + ms) (withLog (log w ++ [Sleep ms]) w)) ->
  wp (sleep ms) Q w.
Proof. exact (fun H => H). Qed.

Lemma wp_spawn ms t (Q : Outcome unit -> World -> Prop) w :
  Q (Returned tt) (withPending (pending w ++ [(ms, t)]) w) -> wp (spawn ms t) Q w.
Proof. exact (fun H => H). Qed.

Lemma wp_elapse ms (Q : Outcome unit -> World -> Prop) w :
  Q (Returned tt) (withClock (clock w + ms) w) -> wp (elapse ms) Q w.
Proof. exact (fun H => H). Qed.

Lemma wp_setWindowAutomationState st (Q : Outcome unit -> World -> Prop) w :
  Q (Returned tt) (withWindowState (Some st) w) -> wp (setWindowAutomationState st) Q w.
Proof. exact (fun H => H). Qed.

Lemma wp_getUserPreferences (Q : Outcome Preferences -> World -> Prop) w :
  Q (Returned (preferences w)) w -> wp getUserPreferences Q w.
Proof. exact (fun H => H). Qed.

Lemma wp_callInsertText f text (Q : Outcome bool -> World -> Prop) w :
  Q (fn f (log w) text)
    (withLog (log w ++ [InsertText (owner f) text (fn f (log w) text)]) w) ->
  wp (callInsertText f text) Q w.
Proof. exact (fun H => H). Qed.

Lemma wp_callAttachFile f x (Q : Outcome bool -> World -> Prop) w :
  Q (fn f (log w) x)
    (withLog (log w ++ [AttachFile (owner f) x (fn f (log w) x)]) w) ->
  wp (callAttachFile f x) Q w.
Proof. exact (fun H => H). Qed.

Lemma wp_callSubmitForm f (Q : Outcome bool -> World -> Prop) w :
  Q (fn f (log w)) (withLog (log w ++ [SubmitForm (owner f) (fn f (log w))]) w) ->
  wp (callSubmitForm f) Q w.
Proof. exact (fun H => H). Qed.
End Primitives.

(** Reduce the projections of the worlds that symbolic execution builds. *)
Ltac world_simpl :=
  cbn [withStore withLog withClock withPending withWindowState assignIn invoke
       fst snd store preferences storeRefs window_mcpAutomationState clock log
       pending registeredPlugins activeAdapterName currentCapabilities
       lastAdapterError] in *.

Ltac world_simpl_goal :=
  cbn [withStore withLog withClock withPending withWindowState assignIn invoke
       fst snd store preferences storeRefs window_mcpAutomationState clock log
       pending registeredPlugins activeAdapterName currentCapabilities
       lastAdapterError].

(** One step of symbolic execution; a branch on a value that is not known
    splits the goal and records the case as a hypothesis. *)
Ltac wp_step :=
  lazymatch goal with
  | |- wp (ret _) _ _ => apply wp_ret
  | |- wp (bind _ _) _ _ => apply wp_bind
  | |- wp (try_catch _ _) _ _ => apply wp_try_catch
  | |- wp get _ _ => apply wp_get; world_simpl_goal
  | |- wp (throw _) _ _ => apply wp_throw
  | |- wp world _ _ => apply wp_world
  | |- wp dateNow _ _ => apply wp_dateNow; world_simpl_goal
  | |- wp (set _) _ _ => apply wp_set; world_simpl_goal
  | |- wp (assign _ _) _ _ => apply wp_assign; world_simpl_goal
  | |- wp (emit _) _ _ => apply wp_emit; world_simpl_goal
  | |- wp (record _) _ _ => apply wp_record; world_simpl_goal
  | |- wp (callHook _ _) _ _ => apply wp_callHook; world_simpl_goal
  | |- wp (sleep _) _ _ => apply wp_sleep; world_simpl_goal
  | |- wp (spawn _ _) _ _ => apply wp_spawn; world_simpl_goal
  | |- wp (elapse _) _ _ => apply wp_elapse; world_simpl_goal
  | |- wp (setWindowAutomationState _) _ _ =>
      apply wp_setWindowAutomationState; world_simpl_goal
  | |- wp getUserPreferences _ _ => apply wp_getUserPreferences; world_simpl_goal
  | |- wp (callInsertText _ _) _ _ => apply wp_callInsertText; world_simpl_goal
  | |- wp (callAttachFile _ _) _ _ => apply wp_callAttachFile; world_simpl_goal
  | |- wp (callSubmitForm _) _ _ => apply wp_callSubmitForm; world_simpl_goal
  | |- after _ _ (Returned _) _ => apply after_returned; cbv beta
  | |- after _ _ (Threw _) _ => apply after_threw
  | |- caught _ _ (Returned _) _ => apply caught_returned
  | |- caught _ _ (Threw _) _ => apply caught_threw; cbv beta
  | |- after _ _ ?r _ => let E := fresh "Hcall" in destruct r as [?|?] eqn:E
  | |- caught _ _ ?r _ => let E := fresh "Hcall" in destruct r as [?|?] eqn:E
  | |- wp (match property ?regs ?n with _ => _ end) _ _ =>
      let E := fresh "Hprop" in
      unfold property at 1; destruct (regs !! n) eqn:E;
      [|let E' := fresh "Hinh" in destruct (inherited n) eqn:E']
  | |- wp (match ?x with _ => _ end) _ _ =>
      let E := fresh "Hcase" in destruct x eqn:E
  end.

Ltac wp_run := repeat wp_step.

(** Re-inserting the object that is registered under a name changes nothing. *)
Lemma reinsert_id n (regs : gmap string PluginRegistration) : reinsert n regs = regs.
Proof.
  unfold reinsert. destruct (regs !! n) as [r|] eqn:E; [|reflexivity].
  by apply insert_id.
Qed.

(** * The adapter store: frame and error-handling properties *)

(** [setPluginError] writes the error and nothing else of the slot. *)
Lemma setPluginError_returns n e w : fst (setPluginError n e w) = Returned tt.
Proof.
  apply (wp_elim (setPluginError n e) (fun r _ => r = Returned tt)).
  unfold setPluginError. wp_run; reflexivity.
Qed.

Lemma setPluginError_pointer n e w :
  activeAdapterName (store (snd (setPluginError n e w))) = activeAdapterName (store w).
Proof.
  apply (wp_elim (setPluginError n e)
           (fun _ w' => activeAdapterName (store w') = activeAdapterName (store w))).
  unfold setPluginError. wp_run; reflexivity.
Qed.

(** C7: for every state, [activateAdapter 'sidebar-plugin'] leaves the
    exclusive-adapter pointer [activeAdapterName] with the value it had before
    the call, whether the activation succeeds (returns [true]), fails
    (returns [false]) or is refused. *)
Theorem activateAdapter_sidebar_keeps_pointer (w : World) :
  activeAdapterName (store (snd (activateAdapter "sidebar-plugin" w)))
  = activeAdapterName (store w).
Proof.
  change "sidebar-plugin" with sidebar_plugin.
  apply (wp_elim (activateAdapter sidebar_plugin)
           (fun _ w' => activeAdapterName (store w') = activeAdapterName (store w))).
  unfold activateAdapter, setPluginError, getActiveAdapter.
  wp_run; world_simpl; first [reflexivity | assumption].
Qed.

(** An unregistered name that the registry inherits from [Object.prototype]
    passes the test [!pluginReg]; the builtin found under it has no [config],
    and reading [config.enabled] throws before anything is written. *)
Lemma activateAdapter_inherited_name (n : string) (w : World) :
  registeredPlugins (store w) !! n = None -> inherited n = true ->
  activateAdapter n w = (Threw (typeError "enabled"), w).
Proof.
  intros Hnone Hinh. unfold activateAdapter, bind, get, throw. cbn.
  by rewrite Hnone, Hinh.
Qed.

(** C6: [activateAdapter] does not return [false] for every name that is
    not in the registration map.  On the initial store, where no plugin is
    registered, [activateAdapter 'constructor'] finds the builtin that the
    registry object inherits under that name, skips the branch for
    unregistered names and throws a [TypeError] at [pluginReg.config.enabled],
    outside every [try] block. *)
Theorem activateAdapter_unregistered_name_throws :
  registeredPlugins (store freshWorld) !! "constructor" = None /\
  activateAdapter "constructor" freshWorld
  = (Threw (typeError "enabled"), freshWorld) /\
  fst (activateAdapter "constructor" freshWorld) <> Returned false.
Proof.
  assert (H : activateAdapter "constructor" freshWorld
              = (Threw (typeError "enabled"), freshWorld))
    by (apply activateAdapter_inherited_name; reflexivity).
  split; [reflexivity|]. split; [exact H|]. rewrite H. discriminate.
Qed.

(** What holds of the claim: for every name that is not in the registration
    map and is not inherited from [Object.prototype], or whose registration
    has [config.enabled = false], [activateAdapter name] returns [false] and
    [activeAdapterName] is the same after the call as before. *)
Lemma activateAdapter_unknown_or_disabled (n : string) (w : World) :
  ((registeredPlugins (store w) !! n = None /\ inherited n = false) \/
   exists r, registeredPlugins (store w) !! n = Some r /\ enabled (config r) = false) ->
  fst (activateAdapter n w) = Returned false /\
  activeAdapterName (store (snd (activateAdapter n w))) = activeAdapterName (store w).
Proof.
  intros H.
  apply (wp_elim (activateAdapter n)
           (fun r w' => r = Returned false /\
                        activeAdapterName (store w') = activeAdapterName (store w))).
  unfold activateAdapter.
  destruct H as [[H Hplain] | (r & H & Hdis)].
  - wp_step. wp_step. wp_step. rewrite H, Hplain. wp_step.
    apply (wp_mono _ (fun r w' => r = Returned tt /\
             activeAdapterName (store w') = activeAdapterName (store w))).
    + intros r w' [-> Hp]. wp_run. split; [reflexivity | exact Hp].
    + split; [apply setPluginError_returns | apply setPluginError_pointer].
  - wp_step. wp_step. wp_step. rewrite H, Hdis. cbn [negb]. wp_step.
    apply (wp_mono _ (fun r w' => r = Returned tt /\
             activeAdapterName (store w') = activeAdapterName (store w))).
    + intros r' w' [-> Hp]. wp_run. split; [reflexivity | exact Hp].
    + split; [apply setPluginError_returns | apply setPluginError_pointer].
Qed.

(** The claim's two cases, in a world where [a] holds the slot, [c] is
    registered but disabled, and nothing is registered as [ghost]. *)
Lemma activateAdapter_unknown_or_disabled_witness :
  let w := run [RegisterPlugin (sitePlugin "c") disabledConfig] worldWithActiveA in
  (registeredPlugins (store w) !! "ghost" = None /\
   inherited "ghost" = false /\
   fst (activateAdapter "ghost" w) = Returned false /\
   activeAdapterName (store (snd (activateAdapter "ghost" w))) = Some "a") /\
  ((enabled <$> (config <$> registeredPlugins (store w) !! "c")) = Some false /\
   fst (activateAdapter "c" w) = Returned false /\
   activeAdapterName (store (snd (activateAdapter "c" w))) = Some "a").
Proof.
  cbv zeta. split.
  - split; [vm_compute; reflexivity|]. split; [reflexivity|].
    apply (activateAdapter_unknown_or_disabled "ghost").
    left. split; vm_compute; reflexivity.
  - split; [vm_compute; reflexivity|].
    apply (activateAdapter_unknown_or_disabled "c").
    right. eexists. split; [vm_compute; reflexivity | reflexivity].
Defined.

(** C9: for every registered name, [unregisterPlugin name] returns without
    throwing, whatever the plugin's [deactivate] and [cleanup] do; afterwards
    the name is not in the registration map; and if the name held the
    exclusive slot, [activeAdapterName] is [null] and [currentCapabilities] is
    empty. *)
Theorem unregisterPlugin_always_removes (n : string) (w : World) (r : PluginRegistration) :
  registeredPlugins (store w) !! n = Some r ->
  fst (unregisterPlugin n w) = Returned tt /\
  registeredPlugins (store (snd (unregisterPlugin n w))) !! n = None /\
  (activeAdapterName (store w) = Some n ->
   activeAdapterName (store (snd (unregisterPlugin n w))) = None /\
   currentCapabilities (store (snd (unregisterPlugin n w))) = []).
Proof.
  intros Hreg.
  apply (wp_elim (unregisterPlugin n)
           (fun o w' =>
              o = Returned tt /\
              registeredPlugins (store w') !! n = None /\
              (activeAdapterName (store w) = Some n ->
               activeAdapterName (store w') = None /\
               currentCapabilities (store w') = []))).
  unfold unregisterPlugin.
  wp_step. wp_step. wp_step. rewrite Hreg.
  wp_run; world_simpl;
    (split; [reflexivity | split; [apply lookup_delete_eq |]]);
    intros Hp; rewrite Hp, bool_decide_eq_true_2 by reflexivity;
    split; reflexivity.
Qed.

(** A plugin whose [deactivate] and [cleanup] throw holds the slot and is
    unregistered all the same. *)
Lemma unregisterPlugin_always_removes_witness :
  let w := run [RegisterPlugin (stubborn "s") enabledConfig; ActivateAdapter "s"] freshWorld in
  (is_Some (registeredPlugins (store w) !! "s") /\
   activeAdapterName (store w) = Some "s" /\
   deactivate (stubborn "s") (log w) = Threw (ErrObject "busy")) /\
  fst (unregisterPlugin "s" w) = Returned tt /\
  registeredPlugins (store (snd (unregisterPlugin "s" w))) !! "s" = None /\
  activeAdapterName (store (snd (unregisterPlugin "s" w))) = None /\
  currentCapabilities (store (snd (unregisterPlugin "s" w))) = [].
Proof.
  cbv zeta.
  assert (Hreg : exists r,
             registeredPlugins
               (store (run [RegisterPlugin (stubborn "s") enabledConfig;
                            ActivateAdapter "s"] freshWorld)) !! "s" = Some r)
    by (eexists; vm_compute; reflexivity).
  destruct Hreg as [r Hreg].
  destruct (unregisterPlugin_always_removes "s" _ r Hreg) as (Hret & Hgone & Hslot).
  split; [split; [by exists r | split; [vm_compute; reflexivity | reflexivity]]|].
  split; [exact Hret|]. split; [exact Hgone|].
  apply Hslot. vm_compute. reflexivity.
Defined.

(** C10: when [name] holds the exclusive slot and the [deactivate] hook of its
    instance throws, [deactivateAdapter name] returns normally and leaves the
    registration with status [error] and the thrown value recorded,
    [lastAdapterError] equal to that name and error, [activeAdapterName] still
    equal to [name], and [currentCapabilities] unchanged. *)
Theorem deactivateAdapter_hook_failure_keeps_slot
    (n : string) (reason : option string) (w : World)
    (r : PluginRegistration) (inst : AdapterPlugin) (e : ErrorValue) :
  registeredPlugins (store w) !! n = Some r ->
  activeAdapterName (store w) = Some n ->
  instance r = Some inst ->
  deactivate inst (log w) = Threw e ->
  let w' := snd (deactivateAdapter n reason w) in
  fst (deactivateAdapter n reason w) = Returned tt /\
  (exists r', registeredPlugins (store w') !! n = Some r' /\
              status r' = st_error /\ reg_error r' = Some e /\
              instance r' = Some inst) /\
  lastAdapterError (store w') = Some (n, e) /\
  activeAdapterName (store w') = Some n /\
  currentCapabilities (store w') = currentCapabilities (store w).
Proof.
  intros Hreg Hptr Hinst Hthrow w'. subst w'.
  apply (wp_elim (deactivateAdapter n reason)
           (fun o w' =>
              o = Returned tt /\
              (exists r', registeredPlugins (store w') !! n = Some r' /\
                          status r' = st_error /\ reg_error r' = Some e /\
                          instance r' = Some inst) /\
              lastAdapterError (store w') = Some (n, e) /\
              activeAdapterName (store w') = Some n /\
              currentCapabilities (store w') = currentCapabilities (store w))).
  unfold deactivateAdapter.
  wp_step. wp_step. wp_step. rewrite Hreg, Hptr.
  rewrite bool_decide_eq_true_2 by reflexivity. cbn [negb].
  wp_step. wp_step. rewrite Hinst. wp_step. rewrite Hthrow.
  wp_run. world_simpl. rewrite reinsert_id.
  split; [reflexivity|]. split; [|auto].
  exists (with_error e (with_status st_error r)).
  rewrite !lookup_alter_eq, Hreg. cbn. auto.
Qed.

(** The stubborn plugin holds the slot; [deactivateAdapter] fails on it. *)
Lemma deactivateAdapter_hook_failure_keeps_slot_witness :
  let w := run [RegisterPlugin (stubborn "s") enabledConfig; ActivateAdapter "s"] freshWorld in
  let w' := snd (deactivateAdapter "s" None w) in
  (activeAdapterName (store w) = Some "s" /\
   deactivate (stubborn "s") (log w) = Threw (ErrObject "busy")) /\
  fst (deactivateAdapter "s" None w) = Returned tt /\
  (exists r', registeredPlugins (store w') !! "s" = Some r' /\
              status r' = st_error /\ reg_error r' = Some (ErrObject "busy") /\
              instance r' = Some (stubborn "s")) /\
  lastAdapterError (store w') = Some ("s", ErrObject "busy") /\
  activeAdapterName (store w') = Some "s" /\
  currentCapabilities (store w') = currentCapabilities (store w).
Proof.
  cbv zeta. split; [split; [vm_compute; reflexivity | reflexivity]|].
  eapply (deactivateAdapter_hook_failure_keeps_slot "s" None
            (run [RegisterPlugin (stubborn "s") enabledConfig; ActivateAdapter "s"] freshWorld)).
  - vm_compute. reflexivity.
  - vm_compute. reflexivity.
  - reflexivity.
  - reflexivity.
Defined.

(** * The exclusive slot when adapters are switched *)

(** C1: the store does not maintain invariant I1.  After [a] and [b] are
    registered and activated one after the other, both registrations have
    status [active] and neither is the persistent plugin: activating [b]
    calls [a]'s [deactivate] hook and emits [adapter:deactivated] for it, but
    never assigns [a]'s status. *)
Theorem switching_breaks_exclusive_invariant :
  activeExclusive (run [ActivateAdapter "b"] worldWithActiveA) = ["a"; "b"] /\
  ~ exclusiveAdapterInvariant (run [ActivateAdapter "b"] worldWithActiveA).
Proof.
  assert (H : activeExclusive (run [ActivateAdapter "b"] worldWithActiveA) = ["a"; "b"])
    by (vm_compute; reflexivity).
  split; [exact H|]. unfold exclusiveAdapterInvariant. rewrite H. cbn. lia.
Qed.

(** Activating one name leaves the registration of every other name as it
    was: in particular the adapter that held the slot keeps its status. *)
Lemma activateAdapter_other_registrations (n m : string) (w : World) :
  n <> m ->
  registeredPlugins (store (snd (activateAdapter n w))) !! m
  = registeredPlugins (store w) !! m.
Proof.
  intros Hne.
  apply (wp_elim (activateAdapter n)
           (fun _ w' => registeredPlugins (store w') !! m
                        = registeredPlugins (store w) !! m)).
  unfold activateAdapter, setPluginError, getActiveAdapter.
  wp_run; world_simpl; rewrite ?reinsert_id, ?lookup_alter_ne by exact Hne;
    reflexivity.
Qed.

(** C2: in a state where the non-persistent adapter [a] holds the exclusive
    slot with status [active], [activateAdapter "b"] succeeds for the
    registered, enabled, non-persistent [b] and moves the slot to [b], but
    [a] keeps status [active]: its [deactivate] hook is called (and
    [adapter:deactivated] emitted) without any assignment to its status. *)
Theorem switching_leaves_previous_adapter_active :
  let w := worldWithActiveA in
  let w' := snd (activateAdapter "b" w) in
  activeAdapterName (store w) = Some "a" /\
  (status <$> registeredPlugins (store w) !! "a") = Some st_active /\
  fst (activateAdapter "b" w) = Returned true /\
  activeAdapterName (store w') = Some "b" /\
  (status <$> registeredPlugins (store w') !! "a") = Some st_active /\
  Lifecycle Deactivate "a" (Returned tt) ∈ log w'.
Proof.
  cbv zeta. repeat split; try (vm_compute; reflexivity).
  apply list_elem_of_In. vm_compute. tauto.
Qed.

(** * The instance of a registration *)

Section RegistryInvariant.
Implicit Types (regs : gmap string PluginRegistration) (ptr : option string).

Lemma registryInv_alter regs ptr n f r :
  regs !! n = Some r ->
  goodReg (f r) ->
  (is_Some (instance r) -> is_Some (instance (f r))) ->
  registryInv regs ptr -> registryInv (alter f n regs) ptr.
Proof.
  intros Hn Hgood Hkeep [Hregs Hslot]. split.
  - intros m r'. destruct (decide (n = m)) as [<-|Hne].
    + rewrite lookup_alter_eq, Hn. cbn. by intros [= <-].
    + rewrite lookup_alter_ne by done. apply Hregs.
  - intros m Hm. destruct (Hslot m Hm) as (r' & Hr' & Hi).
    destruct (decide (n = m)) as [<-|Hne].
    + exists (f r). rewrite lookup_alter_eq, Hn. split; [done|].
      apply Hkeep. by simplify_eq.
    + exists r'. by rewrite lookup_alter_ne.
Qed.

Lemma registryInv_alter_slot regs ptr n f r :
  regs !! n = Some r ->
  goodReg (f r) ->
  is_Some (instance (f r)) ->
  registryInv regs ptr -> registryInv (alter f n regs) (Some n).
Proof.
  intros Hn Hgood Hi [Hregs Hslot]. split.
  - intros m r'. destruct (decide (n = m)) as [<-|Hne].
    + rewrite lookup_alter_eq, Hn. cbn. by intros [= <-].
    + rewrite lookup_alter_ne by done. apply Hregs.
  - intros m [= <-]. exists (f r). by rewrite lookup_alter_eq, Hn.
Qed.

Lemma registryInv_clear regs ptr : registryInv regs ptr -> registryInv regs None.
Proof. intros [Hregs _]. split; [done|]. intros n [=]. Qed.

Lemma registryInv_delete regs ptr n :
  registryInv regs ptr ->
  registryInv (delete n regs) (if bool_decide (ptr = Some n) then None else ptr).
Proof.
  intros [Hregs Hslot]. split.
  - intros m r Hm. apply lookup_delete_Some in Hm as [_ Hm]. eauto.
  - intros m Hm. case_bool_decide as Hp; [done|].
    destruct (Hslot m Hm) as (r & Hr & Hi). exists r. split; [|done].
    rewrite lookup_delete_ne; [done|]. congruence.
Qed.

Lemma registryInv_insert_fresh regs ptr n r :
  regs !! n = None -> goodReg r ->
  registryInv regs ptr -> registryInv (<[n:=r]> regs) ptr.
Proof.
  intros Hn Hgood [Hregs Hslot]. split.
  - intros m r'. destruct (decide (n = m)) as [<-|Hne].
    + rewrite lookup_insert_eq. by intros [= <-].
    + rewrite lookup_insert_ne by done. apply Hregs.
  - intros m Hm. destruct (Hslot m Hm) as (r' & Hr' & Hi). exists r'.
    rewrite lookup_insert_ne; [done|]. congruence.
Qed.
End RegistryInvariant.

(** Bring the map that symbolic execution built to a single [alter]. *)
Ltac inv_alters :=
  unfold worldInv; world_simpl; rewrite ?reinsert_id, ?alter_alter_eq.

(** Settle [goodReg (f r)] from what the invariant says about [r]. *)
Ltac good_reg Hinv Hcase :=
  let Hgood := fresh "Hgood" in
  pose proof (proj1 Hinv _ _ Hcase) as Hgood;
  try match goal with
      | Hp : activeAdapterName (store ?w) = Some ?n |- _ =>
          let r := fresh "r" in
          let Hr := fresh "Hr" in
          let Hi := fresh "Hi" in
          destruct (proj2 Hinv _ Hp) as (r & Hr & [? Hi]);
          rewrite Hcase in Hr; injection Hr as <-
      end;
  unfold goodReg in *; cbn in *;
  repeat case_match; simplify_eq; intuition congruence.

Lemma setPluginError_inv n e w : worldInv w -> worldInv (snd (setPluginError n e w)).
Proof.
  intros Hinv.
  apply (wp_elim (setPluginError n e) (fun _ w' => worldInv w')).
  unfold setPluginError. wp_run; inv_alters.
  - eapply registryInv_alter; [eassumption | | | exact Hinv].
    + good_reg Hinv Hcase.
    + done.
  - done.
Qed.

Lemma registerPlugin_inv p cfg w : worldInv w -> worldInv (snd (registerPlugin p cfg w)).
Proof.
  intros Hinv.
  apply (wp_elim (registerPlugin p cfg) (fun _ w' => worldInv w')).
  unfold registerPlugin. wp_run; inv_alters.
  - done.
  - done.
  - apply registryInv_insert_fresh; [done | | done]. unfold goodReg; cbn; auto.
Qed.

Lemma unregisterPlugin_inv n w : worldInv w -> worldInv (snd (unregisterPlugin n w)).
Proof.
  intros Hinv.
  apply (wp_elim (unregisterPlugin n) (fun _ w' => worldInv w')).
  unfold unregisterPlugin. wp_run; inv_alters;
    first [done | by apply registryInv_delete].
Qed.

Lemma deactivateAdapter_inv n reason w :
  worldInv w -> worldInv (snd (deactivateAdapter n reason w)).
Proof.
  intros Hinv.
  apply (wp_elim (deactivateAdapter n reason) (fun _ w' => worldInv w')).
  unfold deactivateAdapter. wp_step. wp_step. wp_step.
  destruct (registeredPlugins (store w) !! n) as [p|] eqn:Hcase.
  2:{ wp_run; inv_alters; try done.
      by apply (registryInv_clear _ (activeAdapterName (store w))). }
  wp_run; inv_alters; try done.
  all: apply negb_false_iff, bool_decide_eq_true in Hcase0.
  all: try match goal with
           | |- registryInv _ None =>
               apply (registryInv_clear _ (activeAdapterName (store w)))
           end.
  all: (eapply registryInv_alter; [eassumption | | | exact Hinv]); [|done].
  all: good_reg Hinv Hcase.
Qed.

Lemma updatePluginConfig_inv n c w :
  worldInv w -> worldInv (snd (updatePluginConfig n c w)).
Proof.
  intros Hinv.
  apply (wp_elim (updatePluginConfig n c) (fun _ w' => worldInv w')).
  unfold updatePluginConfig. wp_step. wp_step. wp_step.
  destruct (registeredPlugins (store w) !! n) as [p|] eqn:Hcase.
  2:{ wp_run; try done.
      apply (wp_elim (deactivateAdapter n (Some "disabled by config update"))
               (fun _ w' => worldInv w')).
      by apply deactivateAdapter_inv. }
  assert (Hmid : worldInv (withStore (assignIn n (with_config (mergeConfig (config p) c)) (store w)) w)).
  { inv_alters.
    eapply registryInv_alter; [eassumption | | | exact Hinv]; [|done].
    good_reg Hinv Hcase. }
  wp_run.
  - apply (wp_elim (deactivateAdapter n (Some "disabled by config update"))
             (fun _ w' => worldInv w')).
    apply deactivateAdapter_inv. revert Hmid. inv_alters. done.
  - revert Hmid. inv_alters. done.
Qed.

Lemma activateAdapter_inv n w : worldInv w -> worldInv (snd (activateAdapter n w)).
Proof.
  intros Hinv.
  apply (wp_elim (activateAdapter n) (fun _ w' => worldInv w')).
  unfold activateAdapter, getActiveAdapter.
  wp_step. wp_step. wp_step.
  destruct (registeredPlugins (store w) !! n) as [p|] eqn:Hcase.
  2:{ wp_step; [wp_run; done|].
      wp_step. apply (wp_mono _ (fun _ w' => worldInv w')); [|by apply setPluginError_inv].
      intros r w' H. destruct r; wp_run; done. }
  wp_step.
  { wp_step. apply (wp_mono _ (fun _ w' => worldInv w')); [|by apply setPluginError_inv].
    intros r w' H. destruct r; wp_run; done. }
  wp_run; inv_alters.
  all: try (destruct (negb (n =? sidebar_plugin));
            [eapply registryInv_alter_slot | eapply registryInv_alter];
            [eassumption | | | exact Hinv | eassumption | | | exact Hinv ]).
  all: try (eapply registryInv_alter; [eassumption | | | exact Hinv]).
  all: try (unfold compose; cbn; done).
  all: try good_reg Hinv Hcase.
Qed.

Lemma perform_inv a w : worldInv w -> worldInv (step w a).
Proof.
  intros Hinv. unfold step. destruct a; unfold perform.
  - apply (wp_elim (registerPlugin p cfg;; ret tt) (fun _ w' => worldInv w')).
    wp_step. apply (wp_mono _ (fun _ w' => worldInv w'));
      [|exact (registerPlugin_inv p cfg w Hinv)].
    intros [?|?] w' H; wp_run; exact H.
  - by apply unregisterPlugin_inv.
  - apply (wp_elim (activateAdapter n;; ret tt) (fun _ w' => worldInv w')).
    wp_step. apply (wp_mono _ (fun _ w' => worldInv w'));
      [|exact (activateAdapter_inv n w Hinv)].
    intros [?|?] w' H; wp_run; exact H.
  - by apply deactivateAdapter_inv.
  - by apply updatePluginConfig_inv.
  - by apply setPluginError_inv.
  - exact Hinv.
Qed.

Lemma run_inv acts w : worldInv w -> worldInv (run acts w).
Proof.
  revert w. induction acts as [|a acts IH]; intros w Hinv; [exact Hinv|].
  cbn. apply IH, perform_inv, Hinv.
Qed.

Lemma initialWorld_inv prefs refs now : worldInv (initialWorld prefs refs now).
Proof.
  split.
  - intros n r. cbn. by rewrite lookup_empty.
  - intros n. cbn. discriminate.
Qed.

(** Read an entry of the map that symbolic execution built. *)
Ltac entry_cases n Hreg :=
  let r' := fresh "r'" in
  let Hr' := fresh "Hr'" in
  world_simpl; rewrite ?reinsert_id, ?alter_alter_eq;
  intros r' Hr';
  first
    [ rewrite Hreg in Hr'; injection Hr' as <-; left; reflexivity
    | match type of Hr' with
      | alter _ ?t _ !! _ = _ =>
          destruct (decide (t = n)) as [->|?];
          [ rewrite lookup_alter_eq, Hreg in Hr'; cbn in Hr'; injection Hr' as <-
          | rewrite lookup_alter_ne, Hreg in Hr' by assumption;
            injection Hr' as <-; left; reflexivity ]
      | delete ?t _ !! _ = _ =>
          destruct (decide (t = n)) as [->|?];
          [ rewrite lookup_delete_eq in Hr'; discriminate
          | rewrite lookup_delete_ne, Hreg in Hr' by assumption;
            injection Hr' as <-; left; reflexivity ]
      | <[?t := _]> _ !! _ = _ =>
          let Heq := fresh "Heq" in
          destruct (decide (t = n)) as [Heq|?];
          [ rewrite Heq in *; congruence
          | rewrite lookup_insert_ne, Hreg in Hr' by assumption;
            injection Hr' as <-; left; reflexivity ]
      end ].

Lemma step_instance a w n r r' :
  registeredPlugins (store w) !! n = Some r ->
  registeredPlugins (store (step w a)) !! n = Some r' ->
  instanceStep a n r r'.
Proof.
  intros Hreg. revert r'. unfold step.
  destruct a as [p cfg|t|t|t reason|t c|t e|ms]; unfold perform.
  - apply (wp_elim (registerPlugin p cfg;; ret tt)
             (fun _ w' => forall r', registeredPlugins (store w') !! n = Some r' ->
                                     instanceStep (RegisterPlugin p cfg) n r r')).
    unfold registerPlugin. wp_run; entry_cases n Hreg.
  - apply (wp_elim (unregisterPlugin t)
             (fun _ w' => forall r', registeredPlugins (store w') !! n = Some r' ->
                                     instanceStep (UnregisterPlugin t) n r r')).
    unfold unregisterPlugin. wp_run; entry_cases n Hreg.
  - apply (wp_elim (activateAdapter t;; ret tt)
             (fun _ w' => forall r', registeredPlugins (store w') !! n = Some r' ->
                                     instanceStep (ActivateAdapter t) n r r')).
    unfold activateAdapter, setPluginError, getActiveAdapter.
    wp_run; entry_cases n Hreg; simplify_eq; unfold instanceStep; cbn; auto.
  - apply (wp_elim (deactivateAdapter t reason)
             (fun _ w' => forall r', registeredPlugins (store w') !! n = Some r' ->
                                     instanceStep (DeactivateAdapter t reason) n r r')).
    unfold deactivateAdapter. wp_run; entry_cases n Hreg; left; reflexivity.
  - apply (wp_elim (updatePluginConfig t c)
             (fun _ w' => forall r', registeredPlugins (store w') !! n = Some r' ->
                                     instanceStep (UpdatePluginConfig t c) n r r')).
    unfold updatePluginConfig, deactivateAdapter.
    wp_run; entry_cases n Hreg; left; reflexivity.
  - apply (wp_elim (setPluginError t e)
             (fun _ w' => forall r', registeredPlugins (store w') !! n = Some r' ->
                                     instanceStep (SetPluginError t e) n r r')).
    unfold setPluginError. wp_run; entry_cases n Hreg; left; reflexivity.
  - cbn. intros r'. rewrite Hreg. intros [= <-]. left. reflexivity.
Qed.

(** C5, as the claim states it, fails: a plugin whose [initialize] throws on
    its first activation is left with status [error] and no instance. *)
Lemma instanceIffStatus_fails_when_initialize_throws :
  ~ instanceIffStatus
      (run [RegisterPlugin (brokenInit "p") enabledConfig; ActivateAdapter "p"]
           freshWorld).
Proof.
  intros H.
  assert (E : (fun r => (hasInstance r, status r)) <$>
              registeredPlugins
                (store (run [RegisterPlugin (brokenInit "p") enabledConfig;
                             ActivateAdapter "p"] freshWorld)) !! "p"
              = Some (false, st_error)) by (vm_compute; reflexivity).
  destruct (registeredPlugins _ !! "p") as [r|] eqn:Hr; [|discriminate].
  cbn in E. injection E as Hi Hs.
  destruct (H "p" r Hr) as [_ Hback].
  rewrite Hs in Hback. specialize (Hback eq_refl). congruence.
Qed.

(** C5, amended: in every state reached from the initial store by the
    store's actions,
      - a registration that has an instance has a status among
        [initialized], [active], [inactive], [error], and the instance is the
        registration's own plugin;
      - a registration whose status is [initialized], [active] or [inactive]
        has an instance (status [error] does not promise one);
      - an action leaves the instance of a registration it does not remove as
        it was, except [activateAdapter] of that name on a registration
        without instance, which sets it to the registration's plugin: the
        instance is created at most once and never replaced. *)
Theorem registry_instance_lifecycle
    (prefs : Preferences) (refs : StoreRefs) (now : Z) (acts : list Action) :
  let w := run acts (initialWorld prefs refs now) in
  (forall n r, registeredPlugins (store w) !! n = Some r ->
     (hasInstance r = true -> pastRegistered (status r) = true) /\
     (initializedOk (status r) = true -> hasInstance r = true) /\
     (forall i, instance r = Some i -> i = plugin r)) /\
  (forall a n r r',
     registeredPlugins (store w) !! n = Some r ->
     registeredPlugins (store (step w a)) !! n = Some r' ->
     instance r' = instance r \/
     (a = ActivateAdapter n /\ instance r = None /\ instance r' = Some (plugin r))).
Proof.
  cbv zeta. split.
  - intros n r Hr.
    pose proof (run_inv acts _ (initialWorld_inv prefs refs now)) as [Hgood _].
    specialize (Hgood n r Hr). unfold goodReg, hasInstance in *.
    destruct (instance r) as [i|], (status r); cbn; intuition congruence.
  - intros a n r r'. apply step_instance.
Qed.

(** * The automation pipeline *)

Lemma wp_known {A} (c : M A) (Q : Outcome A -> World -> Prop) w r w1 :
  c w = (r, w1) -> Q r w1 -> wp c Q w.
Proof. unfold wp. intros ->. exact (fun H => H). Qed.

(** Reading the adapter state changes nothing, and reads only the store. *)
Lemma getCurrentAdapterState_world w : snd (getCurrentAdapterState w) = w.
Proof.
  apply (wp_elim getCurrentAdapterState (fun _ w' => w' = w)).
  unfold getCurrentAdapterState, getActiveAdapter. wp_run; reflexivity.
Qed.

Lemma getCurrentAdapterState_store w1 w2 :
  store w1 = store w2 ->
  fst (getCurrentAdapterState w1) = fst (getCurrentAdapterState w2).
Proof.
  intros Hs. unfold getCurrentAdapterState, getActiveAdapter, bind, get, ret.
  cbn. rewrite Hs. destruct (activeAdapterName (store w2)) as [n|]; [|reflexivity].
  destruct (n =? ""); reflexivity.
Qed.

Lemma getCurrentAdapterState_returns w :
  exists st, fst (getCurrentAdapterState w) = Returned st.
Proof.
  unfold getCurrentAdapterState, getActiveAdapter, bind, get, ret. cbn.
  destruct (activeAdapterName (store w)) as [n|]; [|eauto].
  destruct (n =? ""); eauto.
Qed.

Lemma wp_getCurrentAdapterState (Q : Outcome CurrentAdapterState -> World -> Prop) w :
  Q (fst (getCurrentAdapterState w)) w -> wp getCurrentAdapterState Q w.
Proof. unfold wp. by rewrite getCurrentAdapterState_world. Qed.

(** Symbolic execution of the service from the world [w0], in which the
    adapter state is known by [Hst]. *)
Ltac auto_step w0 Hst :=
  lazymatch goal with
  | |- wp getCurrentAdapterState _ ?w1 =>
      apply wp_getCurrentAdapterState;
      try rewrite (getCurrentAdapterState_store w1 w0) by reflexivity;
      rewrite Hst
  | |- wp getAutomationState _ _ => unfold getAutomationState
  | |- wp exposeAutomationStateToWindow _ _ => unfold exposeAutomationStateToWindow
  | |- wp getUserPreferences_opt _ _ => unfold getUserPreferences_opt
  | _ => wp_step
  end.

Ltac auto_run w0 Hst := repeat auto_step w0 Hst.

(** Bring [log w ++ l1 ++ ...] facts to the form the observations compute on. *)
Lemma newCalls_app w w' l : log w' = log w ++ l -> newCalls w w' = l.
Proof. unfold newCalls. intros ->. apply drop_app_length. Qed.

Lemma newTasks_app w w' l : pending w' = pending w ++ l -> newTasks w w' = l.
Proof. unfold newTasks. intros ->. apply drop_app_length. Qed.

(** [l ++ []], [(l ++ l1) ++ l2]: one list appended to [l]. *)
Ltac appended :=
  cbn [log pending withStore withLog withClock withPending withWindowState];
  rewrite <- ?app_assoc;
  first [ reflexivity | symmetry; apply app_nil_r ].

(** The auto-execute stage touches no capability. *)
Lemma handleAutoExecute_calls d w :
  Forall (fun c => isInsertOrSubmitCall c = false)
         (newCalls w (snd (handleAutoExecute d w))).
Proof.
  destruct (getCurrentAdapterState_returns w) as [st0 Hst0].
  apply (wp_elim (handleAutoExecute d)
           (fun _ w' =>
              Forall (fun c => isInsertOrSubmitCall c = false) (newCalls w w'))).
  unfold handleAutoExecute. auto_run w Hst0.
  all: erewrite newCalls_app by appended.
  all: repeat constructor.
Qed.

(** The first half of the handler makes no call and starts at most the
    auto-execute task. *)
Lemma beginPipeline_effect d w :
  let w1 := snd (beginPipeline d w) in
  log w1 = log w /\ store w1 = store w /\
  (pending w1 = pending w ++ [] \/ pending w1 = pending w ++ [(0, TaskAutoExecute d)]).
Proof.
  cbv zeta.
  destruct (getCurrentAdapterState_returns w) as [st0 Hst0].
  apply (wp_elim (beginPipeline d)
           (fun _ w1 =>
              log w1 = log w /\ store w1 = store w /\
              (pending w1 = pending w ++ [] \/
               pending w1 = pending w ++ [(0, TaskAutoExecute d)]))).
  unfold beginPipeline. auto_run w Hst0; cbn;
    repeat (split; [reflexivity|]);
    first [left; symmetry; apply app_nil_r | right; reflexivity].
Qed.

Lemma insertThenSubmit_skip st d :
  skipAutoInsertCheck d = Some true -> insertThenSubmit st d = ret tt.
Proof.
  intros Hskip. unfold insertThenSubmit. rewrite Hskip. cbn.
  by rewrite andb_false_r.
Qed.

(** C3: for every completion event whose [skipAutoInsertCheck] flag is set and
    every policy (in particular [autoInsert = true] and [autoSubmit = true]),
    a run of the handler makes no call at all, so it invokes neither
    [insertText] nor [submitForm]; the only task it may start is the
    auto-execute task, whose body invokes neither. *)
Theorem skipAutoInsertCheck_skips_insert_and_submit
    (ev : CustomEvent) (d : ToolExecutionCompleteDetail) (w : World) :
  detail ev = Some d ->
  skipAutoInsertCheck d = Some true ->
  let w' := snd (handleToolExecutionComplete ev w) in
  log w' = log w /\
  (newTasks w w' = [] \/ newTasks w w' = [(0, TaskAutoExecute d)]) /\
  (forall w2, Forall (fun c => isInsertOrSubmitCall c = false)
                     (newCalls w2 (snd (runTask (TaskAutoExecute d) w2)))).
Proof.
  intros Hd Hskip. cbv zeta.
  destruct (getCurrentAdapterState_returns w) as [st0 Hst0].
  split; [|split].
  - apply (wp_elim (handleToolExecutionComplete ev) (fun _ w' => log w' = log w)).
    unfold handleToolExecutionComplete. rewrite Hd. unfold beginPipeline.
    auto_run w Hst0; try reflexivity.
    all: rewrite insertThenSubmit_skip by exact Hskip; auto_run w Hst0; reflexivity.
  - apply (wp_elim (handleToolExecutionComplete ev)
             (fun _ w' => newTasks w w' = [] \/ newTasks w w' = [(0, TaskAutoExecute d)])).
    unfold handleToolExecutionComplete. rewrite Hd. unfold beginPipeline.
    auto_run w Hst0.
    all: try (rewrite insertThenSubmit_skip by exact Hskip; auto_run w Hst0).
    all: first [ left; apply newTasks_app; appended
               | right; apply newTasks_app; appended ].
  - intros w2. apply (handleAutoExecute_calls d w2).
Qed.

(** Every flag on, a ready adapter with all capabilities, and the skip flag
    set: nothing is called. *)
Lemma skipAutoInsertCheck_skips_insert_and_submit_witness :
  let w := automationWorld chatPlugin in
  let d := textDetail "done" true in
  let w' := snd (handleToolExecutionComplete (textResult "done" true) w) in
  (pref_autoInsert (preferences w) = Some true /\
   pref_autoSubmit (preferences w) = Some true /\
   skipAutoInsertCheck d = Some true) /\
  log w' = log w /\
  (newTasks w w' = [] \/ newTasks w w' = [(0, TaskAutoExecute d)]) /\
  (forall w2, Forall (fun c => isInsertOrSubmitCall c = false)
                     (newCalls w2 (snd (runTask (TaskAutoExecute d) w2)))).
Proof.
  cbv zeta. split; [repeat split; reflexivity|].
  apply (skipAutoInsertCheck_skips_insert_and_submit (textResult "done" true));
    reflexivity.
Defined.

(** What the auto-insert stage does to the log and to the pending tasks: it
    never calls [submitForm], and when it logs an [attachFile] call that
    returned [true] for an event with a non-empty confirmation text while
    [insertText] is bound, the one task it starts is the insertion of that
    text, 100 ms later. *)
Lemma handleAutoInsert_effect d w st :
  fst (getCurrentAdapterState w) = Returned st ->
  exists new extra,
    log (snd (handleAutoInsert d w)) = log w ++ new /\
    pending (snd (handleAutoInsert d w)) = pending w ++ extra /\
    store (snd (handleAutoInsert d w)) = store w /\
    Forall (fun c => isSubmitCall c = false) new /\
    ((exists p y, AttachFile p y (Returned true) ∈ new) ->
     forall text ins,
       nonEmpty (confirmationText d) = Some text ->
       cas_insertText st = Some ins ->
       extra = [(100, TaskInsertConfirmation ins text)]).
Proof.
  intros Hst.
  apply (wp_elim (handleAutoInsert d)
           (fun _ w' =>
              exists new extra,
                log w' = log w ++ new /\
                pending w' = pending w ++ extra /\
                store w' = store w /\
                Forall (fun c => isSubmitCall c = false) new /\
                ((exists p y, AttachFile p y (Returned true) ∈ new) ->
                 forall text ins,
                   nonEmpty (confirmationText d) = Some text ->
                   cas_insertText st = Some ins ->
                   extra = [(100, TaskInsertConfirmation ins text)]))).
  unfold handleAutoInsert. auto_run w Hst.
  all: cbv beta; eexists _, _; split; [appended|]; split; [appended|]; split; [reflexivity|].
  all: split; [repeat constructor|].
  all: intros (p & y & Hin) text' ins' Htext Hins.
  all: repeat (apply elem_of_cons in Hin as [Hin|Hin]; [try discriminate|]).
  all: try (by apply elem_of_nil in Hin).
  all: simplify_eq; try reflexivity.
Qed.

(** The auto-submit stage attaches nothing and starts no task. *)
Lemma handleAutoSubmit_effect d w :
  exists new,
    log (snd (handleAutoSubmit d w)) = log w ++ new /\
    pending (snd (handleAutoSubmit d w)) = pending w /\
    Forall (fun c => isAttachCall c = false) new.
Proof.
  destruct (getCurrentAdapterState_returns w) as [st0 Hst0].
  apply (wp_elim (handleAutoSubmit d)
           (fun _ w' =>
              exists new,
                log w' = log w ++ new /\ pending w' = pending w /\
                Forall (fun c => isAttachCall c = false) new)).
  unfold handleAutoSubmit. auto_run w Hst0.
  all: cbv beta; eexists; split; [appended|]; split; [reflexivity|]; repeat constructor.
Qed.

(** C4: for every completion event and every policy, if the auto-insert stage
    of the run returns anything but success (it returns [false] when
    [insertText] or [attachFile] returned [false] or threw, when the adapter
    is not ready, and when there is nothing to insert), then the run makes no
    [submitForm] call, whatever the [autoSubmit] flag of the policy is.
    [w1] is the world in which the handler enters the stage. *)
Theorem insert_failure_never_submits
    (ev : CustomEvent) (d : ToolExecutionCompleteDetail) (w w1 : World)
    (st : AutomationState) :
  detail ev = Some d ->
  beginPipeline d w = (Returned (Some st), w1) ->
  fst (handleAutoInsert d w1) <> Returned true ->
  let w' := snd (handleToolExecutionComplete ev w) in
  Forall (fun c => isSubmitCall c = false) (newCalls w w').
Proof.
  intros Hd Hb Hfail. cbv zeta.
  pose proof (beginPipeline_effect d w) as (Hlog1 & _ & _).
  rewrite Hb in Hlog1. cbn [snd] in Hlog1.
  destruct (getCurrentAdapterState_returns w1) as [ast Hast].
  destruct (handleAutoInsert_effect d w1 ast Hast)
    as (n2 & e2 & Hlog2 & _ & _ & Hnosubmit & _).
  apply (wp_elim (handleToolExecutionComplete ev)
           (fun _ w' => Forall (fun c => isSubmitCall c = false) (newCalls w w'))).
  unfold handleToolExecutionComplete. rewrite Hd.
  wp_step. wp_step. eapply wp_known; [exact Hb|].
  wp_step. unfold insertThenSubmit.
  destruct (autoInsert st && negb (truthy (skipAutoInsertCheck d))).
  - wp_step. destruct (handleAutoInsert d w1) as [r2 w2] eqn:Hi.
    eapply wp_known; [exact Hi|]. cbn [fst snd] in *.
    assert (Hend : Forall (fun c => isSubmitCall c = false) (newCalls w w2)).
    { rewrite (newCalls_app w w2 n2); [exact Hnosubmit|]. by rewrite Hlog2, Hlog1. }
    destruct r2 as [[|]|e];
      [congruence | wp_step; cbn [andb]; wp_run; exact Hend | wp_run; exact Hend].
  - wp_run. rewrite (newCalls_app w w1 []); [constructor|].
    by rewrite Hlog1, app_nil_r.
Qed.

(** The adapter's [insertText] returns [false]; [autoSubmit] is on. *)
Lemma insert_failure_never_submits_witness :
  let w := automationWorld readOnlyPlugin in
  let d := textDetail "hi" false in
  let w' := snd (handleToolExecutionComplete (textResult "hi" false) w) in
  (fst (beginPipeline d w) = Returned (Some everythingOn) /\
   autoSubmit everythingOn = true /\
   fst (handleAutoInsert d (snd (beginPipeline d w))) = Returned false) /\
  newCalls w w' = [Sleep 2000; InsertText "chat" "hi" (Returned false)] /\
  Forall (fun c => isSubmitCall c = false) (newCalls w w').
Proof.
  cbv zeta.
  split; [repeat split; vm_compute; reflexivity|].
  split; [vm_compute; reflexivity|].
  apply (insert_failure_never_submits (textResult "hi" false) (textDetail "hi" false)
           (automationWorld readOnlyPlugin)
           (snd (beginPipeline (textDetail "hi" false) (automationWorld readOnlyPlugin)))
           everythingOn).
  - reflexivity.
  - vm_compute. reflexivity.
  - vm_compute. discriminate.
Defined.

Lemma nonEmpty_Some (s : option string) text :
  s = Some text -> text <> "" -> nonEmpty s = Some text.
Proof.
  intros -> Hne. unfold nonEmpty.
  destruct (String.eqb_spec text ""); [contradiction | reflexivity].
Qed.

(** The body of the confirmation task: one [insertText] call, with the text
    the task carries; an exception of the call is swallowed. *)
Lemma runTask_insert_confirmation ins text w :
  fst (runTask (TaskInsertConfirmation ins text) w) = Returned tt /\
  newCalls w (snd (runTask (TaskInsertConfirmation ins text) w))
  = [InsertText (owner ins) text (fn ins (log w) text)].
Proof.
  apply (wp_elim (runTask (TaskInsertConfirmation ins text))
           (fun r w' => r = Returned tt /\
                        newCalls w w' = [InsertText (owner ins) text (fn ins (log w) text)])).
  unfold runTask. wp_step. wp_step. wp_step.
  destruct (fn ins (log w) text) as [b|e] eqn:Hcall; wp_run.
  all: split; [reflexivity|]; apply newCalls_app; reflexivity.
Qed.

(** C8: for every completion event with a non-empty confirmation text, if the
    run of the handler invokes [attachFile] and the call returns [true], and
    the adapter state the service reads binds [insertText], then the run
    starts (without awaiting it) a task that is due 100 ms later, and the
    body of that task, in whatever world it runs, makes exactly one call:
    [insertText] with exactly the event's confirmation text. *)
Theorem confirmation_text_inserted_after_attach
    (ev : CustomEvent) (d : ToolExecutionCompleteDetail) (w : World)
    (text : string) (st : CurrentAdapterState)
    (ins : Bound (list Call -> string -> Outcome bool)) :
  detail ev = Some d ->
  confirmationText d = Some text ->
  text <> "" ->
  fst (getCurrentAdapterState w) = Returned st ->
  cas_insertText st = Some ins ->
  let w' := snd (handleToolExecutionComplete ev w) in
  (exists p y, AttachFile p y (Returned true) ∈ newCalls w w') ->
  (100, TaskInsertConfirmation ins text) ∈ newTasks w w' /\
  (forall w2,
     fst (runTask (TaskInsertConfirmation ins text) w2) = Returned tt /\
     newCalls w2 (snd (runTask (TaskInsertConfirmation ins text) w2))
     = [InsertText (owner ins) text (fn ins (log w2) text)]).
Proof.
  intros Hd Htext Hne Hst Hins. cbv zeta. intros Hattach.
  split; [|intros w2; apply runTask_insert_confirmation].
  revert Hattach.
  pose proof (nonEmpty_Some _ _ Htext Hne) as Hconf.
  pose proof (beginPipeline_effect d w) as (Hlog1 & Hstore1 & Hpend1).
  destruct (beginPipeline d w) as [r1 w1] eqn:Hb. cbn [snd] in *.
  assert (Hst1 : fst (getCurrentAdapterState w1) = Returned st)
    by (by rewrite (getCurrentAdapterState_store w1 w)).
  destruct (handleAutoInsert_effect d w1 st Hst1)
    as (n2 & e2 & Hlog2 & Hpend2 & _ & _ & Hspawn).
  assert (Hnone : (exists p y, AttachFile p y (Returned true) ∈ newCalls w w1) ->
                  (100, TaskInsertConfirmation ins text) ∈ newTasks w w1).
  { rewrite (newCalls_app w w1 []) by (by rewrite Hlog1, app_nil_r).
    intros (p & y & Hin). by apply elem_of_nil in Hin. }
  assert (Hstage : forall w3 n3,
            log w3 = log (snd (handleAutoInsert d w1)) ++ n3 ->
            pending w3 = pending (snd (handleAutoInsert d w1)) ->
            Forall (fun c => isAttachCall c = false) n3 ->
            (exists p y, AttachFile p y (Returned true) ∈ newCalls w w3) ->
            (100, TaskInsertConfirmation ins text) ∈ newTasks w w3).
  { intros w3 n3 Hlog3 Hpend3 Hno3.
    rewrite (newCalls_app w w3 (n2 ++ n3))
      by (by rewrite Hlog3, Hlog2, Hlog1, app_assoc).
    intros (p & y & Hin). apply elem_of_app in Hin as [Hin|Hin].
    - rewrite (Hspawn (ex_intro _ p (ex_intro _ y Hin)) text ins Hconf Hins)
        in Hpend2.
      destruct Hpend1 as [Hpend1|Hpend1].
      + rewrite (newTasks_app w w3 ([] ++ [(100, TaskInsertConfirmation ins text)]))
          by (by rewrite Hpend3, Hpend2, Hpend1, app_assoc).
        set_solver.
      + rewrite (newTasks_app w w3 ([(0, TaskAutoExecute d)] ++
                                    [(100, TaskInsertConfirmation ins text)]))
          by (by rewrite Hpend3, Hpend2, Hpend1, app_assoc).
        set_solver.
    - rewrite Forall_forall in Hno3. specialize (Hno3 _ Hin). discriminate. }
  apply (wp_elim (handleToolExecutionComplete ev)
           (fun _ w' =>
              (exists p y, AttachFile p y (Returned true) ∈ newCalls w w') ->
              (100, TaskInsertConfirmation ins text) ∈ newTasks w w')).
  unfold handleToolExecutionComplete. rewrite Hd.
  wp_step. wp_step. eapply wp_known; [exact Hb|].
  destruct r1 as [[ast|]|e]; [| wp_run; exact Hnone | wp_run; exact Hnone].
  wp_step. unfold insertThenSubmit.
  destruct (autoInsert ast && negb (truthy (skipAutoInsertCheck d)));
    [| wp_run; exact Hnone].
  wp_step. destruct (handleAutoInsert d w1) as [r2 w2] eqn:Hi.
  eapply wp_known; [exact Hi|]. cbn [fst snd] in *.
  assert (Hend2 : (exists p y, AttachFile p y (Returned true) ∈ newCalls w w2) ->
                  (100, TaskInsertConfirmation ins text) ∈ newTasks w w2).
  { apply (Hstage w2 []); [by rewrite app_nil_r | reflexivity | constructor]. }
  destruct r2 as [b|e]; [| wp_run; exact Hend2].
  wp_step. destruct (b && autoSubmit ast); [| wp_run; exact Hend2].
  wp_step. destruct (handleAutoSubmit_effect d w2) as (n3 & Hlog3 & Hpend3 & Hno3).
  destruct (handleAutoSubmit d w2) as [r3 w3] eqn:Hs.
  eapply wp_known; [exact Hs|]. cbn [fst snd] in *.
  destruct r3; wp_run; by apply (Hstage w3 n3).
Qed.

(** A file event on an adapter that accepts the file: the confirmation text
    is scheduled, after the auto-execute task. *)
Lemma confirmation_text_inserted_after_attach_witness :
  let w := automationWorld chatPlugin in
  let w' := snd (handleToolExecutionComplete fileResult w) in
  let ins := {| owner := "chat"; fn := fun (_ : list Call) (_ : string) => Returned true |} in
  AttachFile "chat" reportFile (Returned true) ∈ newCalls w w' /\
  (100, TaskInsertConfirmation ins "File report.txt attached") ∈ newTasks w w' /\
  (forall w2,
     fst (runTask (TaskInsertConfirmation ins "File report.txt attached") w2)
     = Returned tt /\
     newCalls w2 (snd (runTask (TaskInsertConfirmation ins "File report.txt attached") w2))
     = [InsertText "chat" "File report.txt attached" (Returned true)]).
Proof.
  cbv zeta.
  assert (Hin : AttachFile "chat" reportFile (Returned true)
                ∈ newCalls (automationWorld chatPlugin)
                    (snd (handleToolExecutionComplete fileResult (automationWorld chatPlugin)))).
  { apply list_elem_of_In. vm_compute. tauto. }
  split; [exact Hin|].
  eapply (confirmation_text_inserted_after_attach fileResult fileDetail
            (automationWorld chatPlugin) "File report.txt attached").
  - reflexivity.
  - reflexivity.
  - discriminate.
  - vm_compute. reflexivity.
  - reflexivity.
  - exists "chat", reportFile. exact Hin.
Defined.

(** * The store in every reachable state *)

Section SlotHolder.
Implicit Types (regs : gmap string PluginRegistration) (ptr : option string).

Lemma keysAreNames_alter regs n f :
  (forall r, plugin (f r) = plugin r) ->
  keysAreNames regs -> keysAreNames (alter f n regs).
Proof.
  intros Hf Hk m r'. destruct (decide (n = m)) as [<-|Hne].
  - rewrite lookup_alter_eq. destruct (regs !! n) as [r|] eqn:Hr; [|done].
    cbn. intros [= <-]. rewrite Hf. by apply Hk.
  - rewrite lookup_alter_ne by done. apply Hk.
Qed.

Lemma keysAreNames_delete regs n : keysAreNames regs -> keysAreNames (delete n regs).
Proof. intros Hk m r Hm. apply lookup_delete_Some in Hm as [_ Hm]. by apply Hk. Qed.

Lemma keysAreNames_insert regs r :
  keysAreNames regs -> keysAreNames (<[name (plugin r) := r]> regs).
Proof.
  intros Hk m r'. destruct (decide (name (plugin r) = m)) as [<-|Hne].
  - rewrite lookup_insert_eq. by intros [= <-].
  - rewrite lookup_insert_ne by done. apply Hk.
Qed.

Lemma slotHolderOk_alter regs ptr n f :
  (forall r, regs !! n = Some r -> ptr = Some n ->
             holderStatus (status (f r)) = true) ->
  slotHolderOk regs ptr -> slotHolderOk (alter f n regs) ptr.
Proof.
  intros Hf Hs m Hm. destruct (Hs m Hm) as (Hne & r & Hr & Hst).
  split; [done|]. destruct (decide (n = m)) as [<-|Hnm].
  - exists (f r). rewrite lookup_alter_eq, Hr. split; [done|]. by apply Hf.
  - exists r. by rewrite lookup_alter_ne.
Qed.

Lemma slotHolderOk_alter_slot regs n f r :
  n <> sidebar_plugin ->
  regs !! n = Some r ->
  holderStatus (status (f r)) = true ->
  slotHolderOk (alter f n regs) (Some n).
Proof.
  intros Hne Hr Hst m [= <-]. split; [done|].
  exists (f r). by rewrite lookup_alter_eq, Hr.
Qed.

Lemma slotHolderOk_clear regs : slotHolderOk regs None.
Proof. intros n [=]. Qed.

Lemma slotHolderOk_delete regs ptr n :
  slotHolderOk regs ptr ->
  slotHolderOk (delete n regs) (if bool_decide (ptr = Some n) then None else ptr).
Proof.
  intros Hs m Hm. case_bool_decide as Hp; [done|].
  destruct (Hs m Hm) as (Hne & r & Hr & Hst). split; [done|].
  exists r. split; [|done]. rewrite lookup_delete_ne; [done|]. congruence.
Qed.

Lemma slotHolderOk_insert_fresh regs ptr n r :
  regs !! n = None ->
  slotHolderOk regs ptr -> slotHolderOk (<[n:=r]> regs) ptr.
Proof.
  intros Hn Hs m Hm. destruct (Hs m Hm) as (Hne & r' & Hr' & Hst).
  split; [done|]. exists r'. split; [|done].
  rewrite lookup_insert_ne; [done|]. congruence.
Qed.
End SlotHolder.

Ltac slot_alters :=
  unfold slotInv; world_simpl; rewrite ?reinsert_id, ?alter_alter_eq;
  try match goal with
      | H : activeAdapterName (store _) = _ |- _ => rewrite ?H
      end.

Ltac slot_keys :=
  first [ assumption
        | apply keysAreNames_alter; [intros ?; reflexivity | assumption]
        | apply keysAreNames_delete; assumption ].

Lemma setPluginError_slotInv n e w : slotInv w -> slotInv (snd (setPluginError n e w)).
Proof.
  intros [Hk Hs].
  apply (wp_elim (setPluginError n e) (fun _ w' => slotInv w')).
  unfold setPluginError. wp_run; slot_alters; (split; [slot_keys|]); [|done].
  apply slotHolderOk_alter; [|done]. intros; reflexivity.
Qed.

Lemma registerPlugin_slotInv p cfg w : slotInv w -> slotInv (snd (registerPlugin p cfg w)).
Proof.
  intros [Hk Hs].
  apply (wp_elim (registerPlugin p cfg) (fun _ w' => slotInv w')).
  unfold registerPlugin. wp_run; slot_alters; [done|done|]. split.
  - apply (keysAreNames_insert _
             {| plugin := p; config := cfg; registeredAt := clock w;
                status := st_registered; instance := None; reg_error := None;
                lastUsedAt := None |}). exact Hk.
  - by apply slotHolderOk_insert_fresh.
Qed.

Lemma unregisterPlugin_slotInv n w : slotInv w -> slotInv (snd (unregisterPlugin n w)).
Proof.
  intros [Hk Hs].
  apply (wp_elim (unregisterPlugin n) (fun _ w' => slotInv w')).
  unfold unregisterPlugin. wp_run; slot_alters; try done.
  all: split; [slot_keys | by apply slotHolderOk_delete].
Qed.

Lemma deactivateAdapter_slotInv n reason w :
  slotInv w -> slotInv (snd (deactivateAdapter n reason w)).
Proof.
  intros [Hk Hs].
  apply (wp_elim (deactivateAdapter n reason) (fun _ w' => slotInv w')).
  unfold deactivateAdapter. wp_run; slot_alters; try done.
  all: split; [slot_keys|].
  all: first [ apply slotHolderOk_clear
             | apply slotHolderOk_alter; [intros; reflexivity | exact Hs] ].
Qed.

Lemma updatePluginConfig_slotInv n c w :
  slotInv w -> slotInv (snd (updatePluginConfig n c w)).
Proof.
  intros Hinv.
  apply (wp_elim (updatePluginConfig n c) (fun _ w' => slotInv w')).
  unfold updatePluginConfig. wp_step. wp_step. wp_step.
  destruct (registeredPlugins (store w) !! n) as [p|] eqn:Hcase.
  2:{ wp_run; try done.
      apply (wp_elim (deactivateAdapter n (Some "disabled by config update"))
               (fun _ w' => slotInv w')).
      by apply deactivateAdapter_slotInv. }
  assert (Hmid : slotInv (withStore (assignIn n (with_config (mergeConfig (config p) c)) (store w)) w)).
  { destruct Hinv as [Hk Hs]. slot_alters. split; [slot_keys|].
    apply slotHolderOk_alter; [|exact Hs].
    intros r Hr Hp. destruct (Hs n Hp) as (_ & r' & Hr' & Hst).
    rewrite Hr in Hr'. by injection Hr' as <-. }
  wp_run.
  - apply (wp_elim (deactivateAdapter n (Some "disabled by config update"))
             (fun _ w' => slotInv w')).
    apply deactivateAdapter_slotInv. revert Hmid. slot_alters. done.
  - revert Hmid. slot_alters. done.
Qed.

Lemma activateAdapter_slotInv n w : slotInv w -> slotInv (snd (activateAdapter n w)).
Proof.
  intros Hinv.
  apply (wp_elim (activateAdapter n) (fun _ w' => slotInv w')).
  unfold activateAdapter, getActiveAdapter.
  wp_step. wp_step. wp_step.
  destruct (registeredPlugins (store w) !! n) as [p|] eqn:Hcase.
  2:{ wp_step; [wp_run; done|].
      wp_step. apply (wp_mono _ (fun _ w' => slotInv w')); [|by apply setPluginError_slotInv].
      intros r w' H. destruct r; wp_run; done. }
  wp_step.
  { wp_step. apply (wp_mono _ (fun _ w' => slotInv w')); [|by apply setPluginError_slotInv].
    intros r w' H. destruct r; wp_run; done. }
  destruct Hinv as [Hk Hs].
  wp_run; slot_alters.
  all: split; [slot_keys|].
  all: try (destruct (String.eqb_spec n sidebar_plugin) as [Heq|Hneq]; cbn [negb];
            [ apply slotHolderOk_alter; [intros; reflexivity | exact Hs]
            | eapply slotHolderOk_alter_slot; [exact Hneq | exact Hcase | reflexivity] ]).
  all: first [exact Hs | apply slotHolderOk_alter; [intros; reflexivity | exact Hs]].
Qed.

Lemma perform_slotInv a w : slotInv w -> slotInv (step w a).
Proof.
  intros Hinv. unfold step. destruct a; unfold perform.
  - apply (wp_elim (registerPlugin p cfg;; ret tt) (fun _ w' => slotInv w')).
    wp_step. apply (wp_mono _ (fun _ w' => slotInv w'));
      [|exact (registerPlugin_slotInv p cfg w Hinv)].
    intros [?|?] w' H; wp_run; exact H.
  - by apply unregisterPlugin_slotInv.
  - apply (wp_elim (activateAdapter n;; ret tt) (fun _ w' => slotInv w')).
    wp_step. apply (wp_mono _ (fun _ w' => slotInv w'));
      [|exact (activateAdapter_slotInv n w Hinv)].
    intros [?|?] w' H; wp_run; exact H.
  - by apply deactivateAdapter_slotInv.
  - by apply updatePluginConfig_slotInv.
  - by apply setPluginError_slotInv.
  - exact Hinv.
Qed.

Lemma run_storeInv acts prefs refs now :
  storeInv (run acts (initialWorld prefs refs now)).
Proof.
  assert (H0 : storeInv (initialWorld prefs refs now)).
  { split; [apply initialWorld_inv|]. split.
    - intros n r. cbn. by rewrite lookup_empty.
    - intros n. cbn. discriminate. }
  revert H0. generalize (initialWorld prefs refs now).
  induction acts as [|a acts IH]; intros w Hinv; [exact Hinv|].
  cbn. apply IH. destruct Hinv as [H1 H2].
  split; [by apply perform_inv | by apply perform_slotInv].
Qed.


(** * What the slot names, and the registry as a map *)

(** X1: in every state the store's actions reach, the exclusive slot is empty
    or names a plugin that is registered under that name, is not the
    persistent plugin, has an instance, and has status [active] or [error]:
    the pointer never dangles and never points at [sidebar-plugin]. *)
Theorem slot_names_initialized_site_adapter
    (prefs : Preferences) (refs : StoreRefs) (now : Z) (acts : list Action)
    (n : string) :
  let w := run acts (initialWorld prefs refs now) in
  activeAdapterName (store w) = Some n ->
  n <> "sidebar-plugin" /\
  exists r, registeredPlugins (store w) !! n = Some r /\
            name (plugin r) = n /\
            instance r = Some (plugin r) /\
            (status r = st_active \/ status r = st_error).
Proof.
  cbv zeta. intros Hn.
  destruct (run_storeInv acts prefs refs now) as ([Hgood Hslot] & Hk & Hs).
  destruct (Hs n Hn) as (Hne & r & Hr & Hst).
  split; [exact Hne|]. exists r. split; [exact Hr|]. split; [by apply Hk|].
  destruct (Hslot n Hn) as (r' & Hr' & [i Hi]).
  rewrite Hr in Hr'. injection Hr' as <-.
  specialize (Hgood n r Hr). unfold goodReg in Hgood. rewrite Hi in Hgood.
  destruct Hgood as [-> _]. split; [exact Hi|].
  destruct (status r); cbn in Hst; auto; discriminate.
Qed.

(** After [a] was activated and the persistent plugin beside it, the slot
    names [a]. *)
Lemma slot_names_initialized_site_adapter_witness :
  let w := run sidebarBesideA (initialWorld noPreferences
             {| has_getUserPreferences := true; has_getCurrentAdapterState := true |} 0) in
  activeAdapterName (store w) = Some "a" /\
  "a" <> "sidebar-plugin" /\
  exists r, registeredPlugins (store w) !! "a" = Some r /\
            name (plugin r) = "a" /\
            instance r = Some (plugin r) /\
            (status r = st_active \/ status r = st_error).
Proof.
  cbv zeta. split; [vm_compute; reflexivity|].
  apply (slot_names_initialized_site_adapter noPreferences _ 0 sidebarBesideA "a").
  vm_compute. reflexivity.
Defined.


(** The world after a registration under a free name. *)
Lemma registerPlugin_fresh p cfg w :
  registeredPlugins (store w) !! name p = None -> inherited (name p) = false ->
  registerPlugin p cfg w
  = (Returned true,
     withLog (log w ++ [Emit (PluginRegistered (name p) (version p))])
       (withStore
          {| registeredPlugins :=
               <[name p := {| plugin := p; config := cfg; registeredAt := clock w;
                              status := st_registered; instance := None;
                              reg_error := None; lastUsedAt := None |}]>
                 (registeredPlugins (store w));
             activeAdapterName := activeAdapterName (store w);
             currentCapabilities := currentCapabilities (store w);
             lastAdapterError := lastAdapterError (store w) |} w)).
Proof.
  intros Hfree Hplain.
  unfold registerPlugin, bind, get, dateNow, set, emit, record, ret.
  cbn. rewrite Hfree, Hplain. reflexivity.
Qed.

(** Under a name that the registry inherits, the plugin counts as registered
    already. *)
Lemma registerPlugin_inherited p cfg w :
  registeredPlugins (store w) !! name p = None -> inherited (name p) = true ->
  registerPlugin p cfg w = (Returned false, w).
Proof.
  intros Hfree Hinh. unfold registerPlugin, bind, get, ret. cbn.
  by rewrite Hfree, Hinh.
Qed.


Lemma store_eta (s : AdapterState) :
  {| registeredPlugins := registeredPlugins s;
     activeAdapterName := activeAdapterName s;
     currentCapabilities := currentCapabilities s;
     lastAdapterError := lastAdapterError s |} = s.
Proof. by destruct s. Qed.

(** X3: in every reachable state, registering a plugin under a free name and
    unregistering it again gives back the store as it was: the map, the
    exclusive slot, the capabilities and the last error. *)
Theorem register_then_unregister_restores_store
    (prefs : Preferences) (refs : StoreRefs) (now : Z) (acts : list Action)
    (p : AdapterPlugin) (cfg : PluginConfig) :
  let w := run acts (initialWorld prefs refs now) in
  registeredPlugins (store w) !! name p = None ->
  store (run [RegisterPlugin p cfg; UnregisterPlugin (name p)] w) = store w.
Proof.
  cbv zeta. intros Hfree.
  destruct (run_storeInv acts prefs refs now) as (_ & _ & Hs).
  set (w := run acts (initialWorld prefs refs now)) in *.
  assert (Hptr : activeAdapterName (store w) <> Some (name p)).
  { intros Hp. destruct (Hs _ Hp) as (_ & r & Hr & _). congruence. }
  change (run [RegisterPlugin p cfg; UnregisterPlugin (name p)] w)
    with (snd (unregisterPlugin (name p) (snd ((registerPlugin p cfg;; ret tt) w)))).
  unfold bind at 1. destruct (inherited (name p)) eqn:Hinh.
  { rewrite (registerPlugin_inherited p cfg w Hfree Hinh). cbn [snd ret].
    apply (wp_elim (unregisterPlugin (name p)) (fun _ w' => store w' = store w)).
    unfold unregisterPlugin. wp_step. wp_step. wp_step. rewrite Hfree, Hinh.
    wp_run. world_simpl.
    rewrite (delete_id _ _ Hfree), !bool_decide_eq_false_2 by exact Hptr.
    apply store_eta. }
  rewrite (registerPlugin_fresh p cfg w Hfree Hinh). cbn [snd ret].
  apply (wp_elim (unregisterPlugin (name p)) (fun _ w' => store w' = store w)).
  unfold unregisterPlugin. wp_step. wp_step. wp_step.
  world_simpl_goal. rewrite lookup_insert_eq.
  wp_run; try (cbn in *; discriminate). world_simpl.
  rewrite delete_insert_eq, (delete_id _ _ Hfree).
  rewrite !bool_decide_eq_false_2 by exact Hptr. apply store_eta.
Qed.

Lemma register_then_unregister_restores_store_witness :
  let w := run registerAB_activateA (initialWorld noPreferences
             {| has_getUserPreferences := true; has_getCurrentAdapterState := true |} 0) in
  registeredPlugins (store w) !! name (stubborn "s") = None /\
  store (run [RegisterPlugin (stubborn "s") disabledConfig;
              UnregisterPlugin (name (stubborn "s"))] w) = store w.
Proof.
  cbv zeta. split; [vm_compute; reflexivity|].
  apply (register_then_unregister_restores_store noPreferences _ 0
           registerAB_activateA (stubborn "s") disabledConfig).
  vm_compute. reflexivity.
Defined.


(** * The actions of the store, one by one *)

(** [deactivate] and [cleanup] run only for the holder of the slot. *)
Lemma unregisterPlugin_calls_no_hook (n : string) (w : World) :
  activeAdapterName (store w) <> Some n ->
  Forall (fun c => isLifecycleCall c = false)
         (newCalls w (snd (unregisterPlugin n w))).
Proof.
  intros Hp.
  apply (wp_elim (unregisterPlugin n)
           (fun _ w' => Forall (fun c => isLifecycleCall c = false) (newCalls w w'))).
  unfold unregisterPlugin. wp_run; world_simpl.
  all: try (apply bool_decide_eq_true in Hcase1; contradiction).
  all: erewrite newCalls_app by appended; repeat constructor.
Qed.


(** X6: in every reachable state the store cannot shut the persistent plugin
    down: [deactivateAdapter 'sidebar-plugin'] changes nothing, and
    [unregisterPlugin 'sidebar-plugin'] calls neither its [deactivate] nor
    its [cleanup] hook, whatever its status is. *)
Theorem store_never_shuts_sidebar_down
    (prefs : Preferences) (refs : StoreRefs) (now : Z) (acts : list Action)
    (reason : option string) :
  let w := run acts (initialWorld prefs refs now) in
  deactivateAdapter "sidebar-plugin" reason w = (Returned tt, w) /\
  Forall (fun c => isLifecycleCall c = false)
         (newCalls w (snd (unregisterPlugin "sidebar-plugin" w))).
Proof.
  cbv zeta.
  destruct (run_storeInv acts prefs refs now) as (_ & _ & Hs).
  set (w := run acts (initialWorld prefs refs now)) in *.
  assert (Hptr : activeAdapterName (store w) <> Some sidebar_plugin).
  { intros Hp. by destruct (Hs _ Hp) as (Hne & _). }
  change "sidebar-plugin" with sidebar_plugin. split.
  - unfold deactivateAdapter, bind, get, ret. cbn.
    destruct (registeredPlugins (store w) !! sidebar_plugin); [|reflexivity].
    by rewrite bool_decide_eq_false_2.
  - by apply unregisterPlugin_calls_no_hook.
Qed.

(** X7: when [name] holds the exclusive slot and the [deactivate] hook of its
    instance returns (or there is no instance), [deactivateAdapter] sets the
    registration's status to [inactive] and nothing else of it, empties the
    slot and the capabilities, keeps the last error and every other
    registration, and emits [adapter:deactivated] with the given reason, or
    with 'user action' when the reason is missing or empty. *)
Theorem deactivateAdapter_releases_slot
    (n : string) (reason : option string) (w : World) (r : PluginRegistration) :
  registeredPlugins (store w) !! n = Some r ->
  activeAdapterName (store w) = Some n ->
  (forall inst, instance r = Some inst -> deactivate inst (log w) = Returned tt) ->
  let w' := snd (deactivateAdapter n reason w) in
  fst (deactivateAdapter n reason w) = Returned tt /\
  registeredPlugins (store w') = <[n := with_status st_inactive r]> (registeredPlugins (store w)) /\
  activeAdapterName (store w') = None /\
  currentCapabilities (store w') = [] /\
  lastAdapterError (store w') = lastAdapterError (store w) /\
  last (log w') = Some (Emit (AdapterDeactivated n (reasonOrDefault reason) (clock w))).
Proof.
  intros Hreg Hptr Hhook. cbv zeta.
  apply (wp_elim (deactivateAdapter n reason)
           (fun o w' =>
              o = Returned tt /\
              registeredPlugins (store w')
              = <[n := with_status st_inactive r]> (registeredPlugins (store w)) /\
              activeAdapterName (store w') = None /\
              currentCapabilities (store w') = [] /\
              lastAdapterError (store w') = lastAdapterError (store w) /\
              last (log w')
              = Some (Emit (AdapterDeactivated n (reasonOrDefault reason) (clock w))))).
  assert (Hmap : alter (with_status st_inactive) n (registeredPlugins (store w))
                 = <[n := with_status st_inactive r]> (registeredPlugins (store w))).
  { apply map_eq. intros m. destruct (decide (n = m)) as [<-|Hne].
    - by rewrite lookup_alter_eq, lookup_insert_eq, Hreg.
    - by rewrite lookup_alter_ne, lookup_insert_ne. }
  unfold deactivateAdapter.
  wp_step. wp_step. wp_step. rewrite Hreg, Hptr.
  rewrite bool_decide_eq_true_2 by reflexivity. cbn [negb].
  wp_step. wp_step.
  destruct (instance r) as [inst|] eqn:Hinst.
  - wp_step. rewrite (Hhook inst eq_refl).
    wp_run. world_simpl. rewrite reinsert_id, Hmap, last_snoc. auto 10.
  - wp_run. world_simpl. rewrite reinsert_id, Hmap, last_snoc. auto 10.
Qed.

Lemma deactivateAdapter_releases_slot_witness :
  let w := worldWithActiveA in
  let w' := snd (deactivateAdapter "a" (Some "") w) in
  (activeAdapterName (store w) = Some "a" /\
   (status <$> registeredPlugins (store w) !! "a") = Some st_active) /\
  fst (deactivateAdapter "a" (Some "") w) = Returned tt /\
  (status <$> registeredPlugins (store w') !! "a") = Some st_inactive /\
  activeAdapterName (store w') = None /\
  currentCapabilities (store w') = [] /\
  lastAdapterError (store w') = lastAdapterError (store w) /\
  last (log w') = Some (Emit (AdapterDeactivated "a" "user action" (clock w))).
Proof.
  cbv zeta. split; [split; vm_compute; reflexivity|].
  assert (Hreg : exists r, registeredPlugins (store worldWithActiveA) !! "a" = Some r /\
                           instance r = Some (sitePlugin "a"))
    by (eexists; split; vm_compute; reflexivity).
  destruct Hreg as (r & Hreg & Hinst).
  destruct (deactivateAdapter_releases_slot "a" (Some "") worldWithActiveA r Hreg)
    as (H1 & H2 & H3 & H4 & H5 & H6).
  - vm_compute. reflexivity.
  - intros inst Hi. rewrite Hinst in Hi. injection Hi as <-. reflexivity.
  - split; [exact H1|]. split; [by rewrite H2, lookup_insert_eq|]. auto.
Defined.


(** X9: when [activateAdapter name] returns [true], the plugin was enabled,
    and afterwards its registration has status [active], its own plugin (or
    the instance it had) as instance and the current time as [lastUsedAt],
    with config and recorded error untouched; [lastAdapterError] is cleared;
    [currentCapabilities] are the plugin's, also for the persistent plugin;
    and the exclusive slot names it, unless it is the persistent plugin. *)
Theorem activateAdapter_success
    (n : string) (w : World) (r : PluginRegistration) :
  registeredPlugins (store w) !! n = Some r ->
  fst (activateAdapter n w) = Returned true ->
  let w' := snd (activateAdapter n w) in
  enabled (config r) = true /\
  registeredPlugins (store w') !! n = Some (activated (clock w) r) /\
  lastAdapterError (store w') = None /\
  currentCapabilities (store w') = capabilities (plugin r) /\
  activeAdapterName (store w')
  = (if String.eqb n "sidebar-plugin" then activeAdapterName (store w) else Some n).
Proof.
  intros Hreg. cbv zeta. change "sidebar-plugin" with sidebar_plugin.
  apply (wp_elim (activateAdapter n)
           (fun o w' =>
              o = Returned true ->
              enabled (config r) = true /\
              registeredPlugins (store w') !! n = Some (activated (clock w) r) /\
              lastAdapterError (store w') = None /\
              currentCapabilities (store w') = capabilities (plugin r) /\
              activeAdapterName (store w')
              = (if String.eqb n sidebar_plugin then activeAdapterName (store w)
                 else Some n))).
  unfold activateAdapter, getActiveAdapter.
  wp_step. wp_step. wp_step. rewrite Hreg. wp_step.
  { wp_step. apply (wp_mono _ (fun o _ => o = Returned tt));
      [|apply setPluginError_returns].
    intros o w' ->. wp_run. discriminate. }
  apply negb_false_iff in Hcase.
  wp_run; world_simpl; intros Hret; try discriminate.
  all: split; [exact Hcase|].
  all: rewrite reinsert_id, !lookup_alter_eq, Hreg.
  all: split;
    [ unfold activated, with_lastUsedAt, with_status, with_instance; cbn;
      match goal with H : instance _ = _ |- _ => rewrite H end; reflexivity |].
  all: split; [reflexivity|]; split; [reflexivity|].
  all: try match goal with
           | H : activeAdapterName (store _) = _ |- _ => rewrite ?H
           end.
  all: destruct (n =? sidebar_plugin); reflexivity.
Qed.

Lemma activateAdapter_success_witness :
  let w := run sidebarBesideA freshWorld in
  let w' := snd (activateAdapter "b" w) in
  (is_Some (registeredPlugins (store w) !! "b") /\
   fst (activateAdapter "b" w) = Returned true) /\
  (status <$> registeredPlugins (store w') !! "b") = Some st_active /\
  lastAdapterError (store w') = None /\
  currentCapabilities (store w') = ["insert-text"] /\
  activeAdapterName (store w') = Some "b".
Proof.
  cbv zeta.
  assert (Hreg : exists r, registeredPlugins (store (run sidebarBesideA freshWorld)) !! "b"
                           = Some r /\ capabilities (plugin r) = ["insert-text"])
    by (eexists; split; vm_compute; reflexivity).
  destruct Hreg as (r & Hreg & Hcaps).
  assert (Hret : fst (activateAdapter "b" (run sidebarBesideA freshWorld)) = Returned true)
    by (vm_compute; reflexivity).
  split; [split; [by exists r | exact Hret]|].
  destruct (activateAdapter_success "b" _ r Hreg Hret) as (_ & H2 & H3 & H4 & H5).
  split; [by rewrite H2|]. split; [exact H3|]. split; [by rewrite H4|]. exact H5.
Defined.

(** X10: when [activateAdapter name] returns [false] for a registered and
    enabled plugin, a hook has thrown: [initialize], on a registration
    without instance, or [activate].  The call of that hook, with the value
    [e] it threw, is the last hook call of the run, followed only by the
    events [plugin:activation-failed] and [adapter:error], which carry [e];
    the registration has status [error] and records [e]; [lastAdapterError]
    names the plugin with [e]; the registration has an instance exactly if it
    had one or [initialize] returned; and the exclusive slot and the
    capabilities are as before the call (the adapter that held the slot
    keeps it, although its [deactivate] hook may have been called). *)
Theorem activateAdapter_failure
    (n : string) (w : World) (r : PluginRegistration) :
  registeredPlugins (store w) !! n = Some r ->
  enabled (config r) = true ->
  fst (activateAdapter n w) = Returned false ->
  let w' := snd (activateAdapter n w) in
  let inst := default (plugin r) (instance r) in
  exists e h r',
    (h = Initialize /\ instance r = None \/ h = Activate) /\
    [Lifecycle h (name inst) (Threw e);
     Emit (PluginActivationFailed n e); Emit (AdapterError n e)]
      `suffix_of` newCalls w w' /\
    registeredPlugins (store w') !! n = Some r' /\
    status r' = st_error /\ reg_error r' = Some e /\
    instance r' = (match h with Initialize => None | _ => Some inst end) /\
    plugin r' = plugin r /\ config r' = config r /\
    lastAdapterError (store w') = Some (n, e) /\
    activeAdapterName (store w') = activeAdapterName (store w) /\
    currentCapabilities (store w') = currentCapabilities (store w).
Proof.
  intros Hreg Hen. cbv zeta.
  apply (wp_elim (activateAdapter n)
           (fun o w' =>
              o = Returned false ->
              exists e h r',
                (h = Initialize /\ instance r = None \/ h = Activate) /\
                [Lifecycle h (name (default (plugin r) (instance r))) (Threw e);
                 Emit (PluginActivationFailed n e); Emit (AdapterError n e)]
                  `suffix_of` newCalls w w' /\
                registeredPlugins (store w') !! n = Some r' /\
                status r' = st_error /\ reg_error r' = Some e /\
                instance r'
                = (match h with
                   | Initialize => None
                   | _ => Some (default (plugin r) (instance r))
                   end) /\
                plugin r' = plugin r /\ config r' = config r /\
                lastAdapterError (store w') = Some (n, e) /\
                activeAdapterName (store w') = activeAdapterName (store w) /\
                currentCapabilities (store w') = currentCapabilities (store w))).
  unfold activateAdapter, getActiveAdapter.
  wp_step. wp_step. wp_step. rewrite Hreg, Hen. cbn [negb].
  destruct (instance r) as [i|] eqn:Hinst; cbn [default].
  all: wp_run; world_simpl; intros Hret; try discriminate.
  all: match goal with
       | H : initialize _ _ = Threw ?e |- _ => exists e, Initialize
       | H : activate _ _ = Threw ?e |- _ => exists e, Activate
       end.
  all: eexists; rewrite reinsert_id, !lookup_alter_eq, Hreg.
  all: split; [first [left; split; reflexivity | right; reflexivity]|].
  all: split;
    [erewrite newCalls_app by appended; cbn [app];
     repeat first [apply (reflexivity (R:=suffix)) | apply suffix_cons_r]|].
  all: split; [reflexivity|]; cbn.
  all: rewrite ?Hinst; auto 12.
Qed.

Lemma activateAdapter_failure_witness :
  let w := run [RegisterPlugin (brokenInit "p") enabledConfig] worldWithActiveA in
  let w' := snd (activateAdapter "p" w) in
  ((enabled <$> (config <$> registeredPlugins (store w) !! "p")) = Some true /\
   fst (activateAdapter "p" w) = Returned false) /\
  exists e h r',
    (h = Initialize /\
     (instance <$> registeredPlugins (store w) !! "p") = Some None \/ h = Activate) /\
    [Lifecycle h "p" (Threw e);
     Emit (PluginActivationFailed "p" e); Emit (AdapterError "p" e)]
      `suffix_of` newCalls w w' /\
    registeredPlugins (store w') !! "p" = Some r' /\
    status r' = st_error /\ reg_error r' = Some e /\
    lastAdapterError (store w') = Some ("p", e) /\
    activeAdapterName (store w') = activeAdapterName (store w).
Proof.
  cbv zeta. split; [split; vm_compute; reflexivity|].
  assert (Hreg : exists r,
             registeredPlugins
               (store (run [RegisterPlugin (brokenInit "p") enabledConfig]
                         worldWithActiveA)) !! "p" = Some r /\
             enabled (config r) = true /\
             name (default (plugin r) (instance r)) = "p")
    by (eexists; repeat split; vm_compute; reflexivity).
  destruct Hreg as (r & Hreg & Hen & Hname).
  destruct (activateAdapter_failure "p" _ r Hreg Hen)
    as (e & h & r' & Hh & Hlog & Hr' & Hst & Herr & _ & _ & _ & Hlast & Hptr & _).
  { vm_compute. reflexivity. }
  exists e, h, r'. rewrite Hname in Hlog.
  split; [|auto 10].
  destruct Hh as [[Hh Hnone] | Hh]; rewrite Hh; [left | by right].
  split; [reflexivity|]. rewrite Hreg. cbn. by rewrite Hnone.
Defined.

(** X11: [activateAdapter name], whatever it returns, adds and removes no
    registration, leaves the registration of every other name as it was, and
    leaves the plugin, the config and the registration time of [name]'s own
    registration as they were. *)
Theorem activateAdapter_frame (n : string) (w : World) :
  let regs := registeredPlugins (store w) in
  let regs' := registeredPlugins (store (snd (activateAdapter n w))) in
  (forall m, m <> n -> regs' !! m = regs !! m) /\
  (forall m, is_Some (regs' !! m) <-> is_Some (regs !! m)) /\
  (forall r r', regs !! n = Some r -> regs' !! n = Some r' ->
     plugin r' = plugin r /\ config r' = config r /\
     registeredAt r' = registeredAt r).
Proof.
  cbv zeta.
  apply (wp_elim (activateAdapter n)
           (fun _ w' =>
              (forall m, m <> n ->
                 registeredPlugins (store w') !! m = registeredPlugins (store w) !! m) /\
              (forall m, is_Some (registeredPlugins (store w') !! m)
                         <-> is_Some (registeredPlugins (store w) !! m)) /\
              (forall r r', registeredPlugins (store w) !! n = Some r ->
                 registeredPlugins (store w') !! n = Some r' ->
                 plugin r' = plugin r /\ config r' = config r /\
                 registeredAt r' = registeredAt r))).
  unfold activateAdapter, setPluginError, getActiveAdapter.
  wp_run; world_simpl; rewrite ?reinsert_id; try discriminate.
  all: split; [intros m Hm; by rewrite ?lookup_alter_ne by congruence|].
  all: split;
    [intros m; destruct (decide (m = n)) as [->|Hm];
     [rewrite ?lookup_alter_eq, ?fmap_is_Some
     |rewrite ?lookup_alter_ne by congruence]; reflexivity|].
  all: intros r0 r' Hr0 Hr'; rewrite ?lookup_alter_eq in Hr'.
  all: repeat match goal with
              | H : registeredPlugins (store _) !! _ = _ |- _ =>
                  tryif constr_eq H Hr' then fail else (rewrite H in Hr'; clear H)
              end.
  all: first [congruence | cbn in Hr'; simplify_eq; cbn; auto].
Qed.

(** X12: in every reachable state, the only [deactivate] hook that
    [activateAdapter name] calls is that of the adapter holding the exclusive
    slot, and only when that adapter is not the one being activated: an
    activation never deactivates its own plugin (re-activating the holder
    calls no [deactivate]) nor the persistent plugin. *)
Theorem activation_deactivates_only_the_holder
    (prefs : Preferences) (refs : StoreRefs) (now : Z) (acts : list Action)
    (n m : string) (o : Outcome unit) :
  let w := run acts (initialWorld prefs refs now) in
  Lifecycle Deactivate m o ∈ newCalls w (snd (activateAdapter n w)) ->
  activeAdapterName (store w) = Some m /\ m <> n /\ m <> "sidebar-plugin".
Proof.
  cbv zeta.
  destruct (run_storeInv acts prefs refs now) as ([Hgood _] & Hk & Hs).
  set (w := run acts (initialWorld prefs refs now)) in *.
  apply (wp_elim (activateAdapter n)
           (fun _ w' => Lifecycle Deactivate m o ∈ newCalls w w' ->
                        activeAdapterName (store w) = Some m /\ m <> n /\
                        m <> sidebar_plugin)).
  unfold activateAdapter, setPluginError, getActiveAdapter.
  wp_run.
  all: erewrite newCalls_app by appended.
  all: intros Hin.
  all: repeat (apply elem_of_cons in Hin as [Hin|Hin]; [try discriminate|]).
  all: try (by apply elem_of_nil in Hin).
  all: injection Hin as -> _.
  all: match goal with
       | Hr : registeredPlugins (store _) !! ?s = Some ?p,
         Hi : instance ?p = Some ?a |- Some ?s = Some (name ?a) /\ _ =>
           let Hg := fresh "Hg" in
           let Hname := fresh "Hname" in
           pose proof (Hgood _ _ Hr) as Hg; unfold goodReg in Hg;
           rewrite Hi in Hg; destruct Hg as [Hg _]; subst a;
           pose proof (Hk _ _ Hr) as Hname;
           destruct (Hs _ eq_refl) as (Hnes & _);
           rewrite Hname in *
       end.
  all: split; [reflexivity|]; split; [|assumption].
  all: match goal with
       | H : negb (_ =? _) = true |- _ <> _ =>
           apply negb_true_iff, String.eqb_neq in H; exact H
       end.
Qed.

Lemma activation_deactivates_only_the_holder_witness :
  let w := run registerAB_activateA (initialWorld noPreferences
             {| has_getUserPreferences := true; has_getCurrentAdapterState := true |} 0) in
  Lifecycle Deactivate "a" (Returned tt) ∈ newCalls w (snd (activateAdapter "b" w)) /\
  activeAdapterName (store w) = Some "a" /\ "a" <> "b" /\ "a" <> "sidebar-plugin".
Proof.
  cbv zeta.
  assert (Hin : Lifecycle Deactivate "a" (Returned tt)
                ∈ newCalls (run registerAB_activateA (initialWorld noPreferences
                     {| has_getUserPreferences := true;
                        has_getCurrentAdapterState := true |} 0))
                    (snd (activateAdapter "b" (run registerAB_activateA
                       (initialWorld noPreferences
                          {| has_getUserPreferences := true;
                             has_getCurrentAdapterState := true |} 0)))))
    by (apply list_elem_of_In; vm_compute; tauto).
  split; [exact Hin|].
  exact (activation_deactivates_only_the_holder noPreferences _ 0
           registerAB_activateA "b" "a" (Returned tt) Hin).
Defined.

(** Symbolic execution up to the next branch on a value that is not known. *)
Ltac wp_straight :=
  repeat (lazymatch goal with
          | |- wp (match _ with _ => _ end) _ _ => fail
          | |- after _ _ (Returned _) _ => wp_step
          | |- after _ _ (Threw _) _ => wp_step
          | |- after _ _ _ _ => fail
          | |- caught _ _ (Returned _) _ => wp_step
          | |- caught _ _ (Threw _) _ => wp_step
          | |- caught _ _ _ _ => fail
          | _ => wp_step
          end).

(** X13: when a config update disables the adapter that holds the exclusive
    slot, [updatePluginConfig] merges the config and deactivates it: it
    returns normally, the registration is disabled and its status is no
    longer [active]: it is [inactive] with the slot and the capabilities
    emptied, or, when the [deactivate] hook throws, [error] with the slot
    still naming the now disabled adapter.  The deactivation is started
    without being awaited; the state is the one reached when it has run to
    its end. *)
Theorem disabling_the_holder_deactivates_it
    (n : string) (c : PartialConfig) (w : World) (r : PluginRegistration) :
  registeredPlugins (store w) !! n = Some r ->
  activeAdapterName (store w) = Some n ->
  enabled_opt c = Some false ->
  let w' := snd (updatePluginConfig n c w) in
  fst (updatePluginConfig n c w) = Returned tt /\
  exists r',
    registeredPlugins (store w') !! n = Some r' /\
    config r' = mergeConfig (config r) c /\
    enabled (config r') = false /\
    ((status r' = st_inactive /\ activeAdapterName (store w') = None /\
      currentCapabilities (store w') = []) \/
     (status r' = st_error /\ activeAdapterName (store w') = Some n /\
      currentCapabilities (store w') = currentCapabilities (store w))).
Proof.
  intros Hreg Hptr Hdis. cbv zeta.
  apply (wp_elim (updatePluginConfig n c)
           (fun o w' =>
              o = Returned tt /\
              exists r',
                registeredPlugins (store w') !! n = Some r' /\
                config r' = mergeConfig (config r) c /\
                enabled (config r') = false /\
                ((status r' = st_inactive /\ activeAdapterName (store w') = None /\
                  currentCapabilities (store w') = []) \/
                 (status r' = st_error /\ activeAdapterName (store w') = Some n /\
                  currentCapabilities (store w') = currentCapabilities (store w))))).
  assert (Hoff : enabled (mergeConfig (config r) c) = false)
    by (unfold mergeConfig; cbn; by rewrite Hdis).
  unfold updatePluginConfig.
  wp_straight. rewrite Hreg. wp_straight.
  rewrite Hptr, Hoff, bool_decide_eq_true_2 by reflexivity. cbn [andb negb].
  unfold deactivateAdapter. wp_straight. world_simpl_goal.
  rewrite reinsert_id, lookup_alter_eq, Hreg. cbn [fmap option_fmap option_map].
  rewrite bool_decide_eq_true_2 by reflexivity. cbn [negb].
  wp_run; world_simpl; rewrite ?reinsert_id, !lookup_alter_eq, Hreg.
  all: split; [reflexivity|]; eexists; split; [reflexivity|].
  all: cbn; split; [reflexivity|]; split; [exact Hoff|]; auto 10.
Qed.

Lemma disabling_the_holder_deactivates_it_witness :
  let w := worldWithActiveA in
  let c := {| enabled_opt := Some false; options_opt := None |} in
  let w' := snd (updatePluginConfig "a" c w) in
  (activeAdapterName (store w) = Some "a" /\
   (status <$> registeredPlugins (store w) !! "a") = Some st_active) /\
  fst (updatePluginConfig "a" c w) = Returned tt /\
  exists r',
    registeredPlugins (store w') !! "a" = Some r' /\
    enabled (config r') = false /\
    status r' = st_inactive /\ activeAdapterName (store w') = None.
Proof.
  cbv zeta. split; [split; vm_compute; reflexivity|].
  assert (Hreg : exists r, registeredPlugins (store worldWithActiveA) !! "a" = Some r)
    by (eexists; vm_compute; reflexivity).
  destruct Hreg as (r & Hreg).
  destruct (disabling_the_holder_deactivates_it "a"
              {| enabled_opt := Some false; options_opt := None |}
              worldWithActiveA r Hreg)
    as (Hret & r' & Hr' & _ & Hoff & Hcases).
  - vm_compute. reflexivity.
  - reflexivity.
  - split; [exact Hret|]. exists r'. split; [exact Hr'|]. split; [exact Hoff|].
    assert (Hst : (status <$> registeredPlugins
                     (store (snd (updatePluginConfig "a"
                        {| enabled_opt := Some false; options_opt := None |}
                        worldWithActiveA))) !! "a") = Some st_inactive)
      by (vm_compute; reflexivity).
    rewrite Hr' in Hst. cbn in Hst. injection Hst as Hst.
    destruct Hcases as [(_ & Hp & _)|(He & _)]; [auto | congruence].
Defined.

(** X14: a config update that does not disable the holder of the exclusive
    slot changes the config of that one registration and nothing else: no
    hook is called, nothing is emitted, and status, instance, slot,
    capabilities and last error are untouched even when the update disables
    an adapter whose status is [active] (the persistent plugin, or an adapter
    that lost the slot in a switch); on a name under which the registry has
    nothing it changes nothing.  This is for names under which the registry
    has a registration or nothing at all: under an unregistered name that it
    inherits from [Object.prototype], the source assigns the config to the
    builtin found there. *)
Theorem updatePluginConfig_only_config (n : string) (c : PartialConfig) (w : World) :
  let w' := snd (updatePluginConfig n c w) in
  property (registeredPlugins (store w)) n <> Inherited ->
  (activeAdapterName (store w) <> Some n \/
   (exists r, registeredPlugins (store w) !! n = Some r /\
              enabled (mergeConfig (config r) c) = true)) ->
  w' = withStore
         {| registeredPlugins :=
              alter (fun r => with_config (mergeConfig (config r) c) r) n
                    (registeredPlugins (store w));
            activeAdapterName := activeAdapterName (store w);
            currentCapabilities := currentCapabilities (store w);
            lastAdapterError := lastAdapterError (store w) |} w.
Proof.
  cbv zeta. intros Hplain Hcond.
  apply (wp_elim (updatePluginConfig n c)
           (fun _ w' =>
              w' = withStore
                     {| registeredPlugins :=
                          alter (fun r => with_config (mergeConfig (config r) c) r) n
                                (registeredPlugins (store w));
                        activeAdapterName := activeAdapterName (store w);
                        currentCapabilities := currentCapabilities (store w);
                        lastAdapterError := lastAdapterError (store w) |} w)).
  unfold updatePluginConfig. wp_step. wp_step. wp_step.
  destruct (registeredPlugins (store w) !! n) as [r|] eqn:Hreg.
  - assert (Hmap : alter (with_config (mergeConfig (config r) c)) n
                         (registeredPlugins (store w))
                   = alter (fun r => with_config (mergeConfig (config r) c) r) n
                           (registeredPlugins (store w))).
    { apply map_eq. intros k. destruct (decide (n = k)) as [<-|Hne].
      - by rewrite !lookup_alter_eq, Hreg.
      - by rewrite !lookup_alter_ne. }
    wp_straight. world_simpl_goal. rewrite ?reinsert_id, ?Hmap.
    destruct (bool_decide (Some n = activeAdapterName (store w)) &&
              negb (enabled (mergeConfig (config r) c))) eqn:Hgo.
    + exfalso. apply andb_true_iff in Hgo as [Hp Hoff].
      apply bool_decide_eq_true in Hp. apply negb_true_iff in Hoff.
      destruct Hcond as [Hne|(r0 & Hr0 & Hon)]; [congruence|].
      try rewrite Hreg in Hr0. injection Hr0 as <-. congruence.
    + wp_run. unfold withStore. world_simpl_goal. by rewrite ?reinsert_id, ?Hmap.
  - destruct (inherited n) eqn:Hinh.
    { exfalso. apply Hplain. unfold property. by rewrite Hreg, Hinh. }
    wp_run. unfold withStore.
    assert (Hmap : alter (fun r => with_config (mergeConfig (config r) c) r) n
                         (registeredPlugins (store w)) = registeredPlugins (store w)).
    { apply map_eq. intros k. destruct (decide (n = k)) as [<-|Hne].
      - by rewrite lookup_alter_eq, Hreg.
      - by rewrite lookup_alter_ne. }
    rewrite Hmap, store_eta. by destruct w.
Qed.

Lemma updatePluginConfig_only_config_witness :
  let w := run [ActivateAdapter "b"] worldWithActiveA in
  let c := {| enabled_opt := Some false; options_opt := None |} in
  let w' := snd (updatePluginConfig "a" c w) in
  (property (registeredPlugins (store w)) "a" <> Inherited /\
   activeAdapterName (store w) <> Some "a" /\
   (status <$> registeredPlugins (store w) !! "a") = Some st_active) /\
  (status <$> registeredPlugins (store w') !! "a") = Some st_active /\
  (enabled <$> (config <$> registeredPlugins (store w') !! "a")) = Some false /\
  log w' = log w /\ activeAdapterName (store w') = activeAdapterName (store w).
Proof.
  cbv zeta.
  assert (Hne : activeAdapterName (store (run [ActivateAdapter "b"] worldWithActiveA))
                <> Some "a") by (vm_compute; discriminate).
  assert (Hown : property
                   (registeredPlugins (store (run [ActivateAdapter "b"] worldWithActiveA)))
                   "a" <> Inherited) by (vm_compute; discriminate).
  split; [split; [exact Hown | split; [exact Hne | vm_compute; reflexivity]]|].
  rewrite (updatePluginConfig_only_config "a"
             {| enabled_opt := Some false; options_opt := None |}
             (run [ActivateAdapter "b"] worldWithActiveA) Hown (or_introl Hne)).
  repeat split; vm_compute; reflexivity.
Defined.

(** * The stages of the pipeline, call by call *)

Ltac normalize_cases :=
  repeat match goal with
         | H : negb _ = false |- _ => apply negb_false_iff in H
         | H : negb _ = true |- _ => apply negb_true_iff in H
         end.

Ltac stage_ready :=
  unfold adapterReady;
  split; [eassumption|]; split; [eassumption|];
  match goal with
  | H : cas_plugin _ = Some _ |- _ => rewrite H; eexists; reflexivity
  end.

Ltac rewrite_bindings :=
  repeat match goal with
         | H : nonEmpty _ = _ |- _ => rewrite H
         | H : cas_insertText _ = _ |- _ => rewrite H
         end.

(** The auto-insert stage never throws; it leaves the store, the preferences
    and the accessors alone; after its configured wait it makes at most one
    call. *)
Lemma handleAutoInsert_spec d w st :
  fst (getCurrentAdapterState w) = Returned st ->
  exists b calls extra,
    fst (handleAutoInsert d w) = Returned b /\
    log (snd (handleAutoInsert d w))
    = log w ++ delaySleeps pref_autoInsertDelay w ++ calls /\
    pending (snd (handleAutoInsert d w)) = pending w ++ extra /\
    store (snd (handleAutoInsert d w)) = store w /\
    preferences (snd (handleAutoInsert d w)) = preferences w /\
    storeRefs (snd (handleAutoInsert d w)) = storeRefs w /\
    window_mcpAutomationState (snd (handleAutoInsert d w))
    = window_mcpAutomationState w /\
    insertStageDid d w st b calls extra.
Proof.
  intros Hst.
  apply (wp_elim (handleAutoInsert d)
           (fun o w' =>
              exists b calls extra,
                o = Returned b /\
                log w' = log w ++ delaySleeps pref_autoInsertDelay w ++ calls /\
                pending w' = pending w ++ extra /\
                store w' = store w /\
                preferences w' = preferences w /\
                storeRefs w' = storeRefs w /\
                window_mcpAutomationState w' = window_mcpAutomationState w /\
                insertStageDid d w st b calls extra)).
  unfold handleAutoInsert. auto_run w Hst.
  all: cbv beta; unfold delaySleeps; world_simpl; normalize_cases.
  all: repeat match goal with
              | H : has_getUserPreferences _ = _ |- _ => rewrite H
              | H : (0 <? _)%Z = _ |- _ => rewrite H
              end.
  all: eexists _, _, _; split; [reflexivity|]; split; [appended|].
  all: split; [appended|]; do 4 (split; [reflexivity|]).
  all: unfold insertStageDid, confirmationTasks.
  all: first
         [ left; repeat split; reflexivity
         | right; left; eexists _, _, _;
           split; [stage_ready|];
           do 3 (split; [eassumption|]);
           do 2 (split; [reflexivity|]);
           cbn [returnedTrue]; rewrite_bindings; reflexivity
         | right; right; eexists _, _, _;
           split; [stage_ready|];
           split; [eassumption|];
           split; [first [left; eassumption | right; eassumption]|];
           do 2 (split; [eassumption|]);
           repeat split; reflexivity ].
Qed.

(** The auto-submit stage never throws, starts no task and leaves the store
    alone; after its configured wait it submits, behind the settle wait, or
    does nothing. *)
Lemma handleAutoSubmit_spec d w st :
  fst (getCurrentAdapterState w) = Returned st ->
  exists b calls,
    fst (handleAutoSubmit d w) = Returned b /\
    log (snd (handleAutoSubmit d w))
    = log w ++ delaySleeps pref_autoSubmitDelay w ++ calls /\
    pending (snd (handleAutoSubmit d w)) = pending w /\
    store (snd (handleAutoSubmit d w)) = store w /\
    preferences (snd (handleAutoSubmit d w)) = preferences w /\
    storeRefs (snd (handleAutoSubmit d w)) = storeRefs w /\
    window_mcpAutomationState (snd (handleAutoSubmit d w))
    = window_mcpAutomationState w /\
    submitStageDid w st calls.
Proof.
  intros Hst.
  apply (wp_elim (handleAutoSubmit d)
           (fun o w' =>
              exists b calls,
                o = Returned b /\
                log w' = log w ++ delaySleeps pref_autoSubmitDelay w ++ calls /\
                pending w' = pending w /\
                store w' = store w /\
                preferences w' = preferences w /\
                storeRefs w' = storeRefs w /\
                window_mcpAutomationState w' = window_mcpAutomationState w /\
                submitStageDid w st calls)).
  unfold handleAutoSubmit. auto_run w Hst.
  all: cbv beta; unfold delaySleeps; world_simpl; normalize_cases.
  all: repeat match goal with
              | H : has_getUserPreferences _ = _ |- _ => rewrite H
              | H : (0 <? _)%Z = _ |- _ => rewrite H
              end.
  all: eexists _, _; split; [reflexivity|]; split; [appended|].
  all: do 5 (split; [reflexivity|]).
  all: unfold submitStageDid.
  all: first
         [ right; eexists _, _; split; [stage_ready|];
           split; [eassumption | reflexivity]
         | left; split; [reflexivity|];
           unfold adapterReady; intros [(H1 & H2 & [? H3]) [? H4]]; congruence ].
Qed.

Lemma delaySleeps_are_sleeps field w :
  Forall (fun c => isSleepCall c = true) (delaySleeps field w).
Proof. unfold delaySleeps. case_match; repeat constructor. Qed.

(** The first half of the handler returns what [getAutomationState] returns,
    makes no call, leaves the store, the preferences and the accessors
    alone, starts at most the auto-execute task and, when there is a policy,
    publishes it on [window]. *)
Lemma beginPipeline_spec d w :
  let w1 := snd (beginPipeline d w) in
  fst (beginPipeline d w) = fst (getAutomationState w) /\
  log w1 = log w /\ store w1 = store w /\
  preferences w1 = preferences w /\ storeRefs w1 = storeRefs w /\
  (pending w1 = pending w ++ [] \/ pending w1 = pending w ++ [(0, TaskAutoExecute d)]) /\
  match fst (getAutomationState w) with
  | Returned (Some st) =>
      has_getUserPreferences (storeRefs w) = true /\
      window_mcpAutomationState w1 = Some st /\
      autoInsert st = truthy (pref_autoInsert (preferences w)) /\
      autoSubmit st = truthy (pref_autoSubmit (preferences w)) /\
      pending w1
      = pending w ++ (if truthy (pref_autoExecute (preferences w))
                      then [(0, TaskAutoExecute d)] else [])
  | _ => w1 = w
  end.
Proof.
  cbv zeta.
  destruct (getCurrentAdapterState_returns w) as [st0 Hst0].
  assert (Hg : getAutomationState w
               = (if has_getUserPreferences (storeRefs w) then
                    Returned (Some {| autoInsert := truthy (pref_autoInsert (preferences w));
                                      autoSubmit := truthy (pref_autoSubmit (preferences w));
                                      autoExecute := truthy (pref_autoExecute (preferences w));
                                      autoInsertDelay := orZero (pref_autoInsertDelay (preferences w));
                                      autoSubmitDelay := orZero (pref_autoSubmitDelay (preferences w));
                                      autoExecuteDelay := orZero (pref_autoExecuteDelay (preferences w)) |})
                  else Returned None, w)).
  { unfold getAutomationState, try_catch, bind, world, getUserPreferences, ret.
    destruct (has_getUserPreferences (storeRefs w)); reflexivity. }
  rewrite Hg.
  apply (wp_elim (beginPipeline d)
           (fun o w1 =>
              o = fst (if has_getUserPreferences (storeRefs w) then _ else _, w) /\
              log w1 = log w /\ store w1 = store w /\
              preferences w1 = preferences w /\ storeRefs w1 = storeRefs w /\
              (pending w1 = pending w ++ [] \/
               pending w1 = pending w ++ [(0, TaskAutoExecute d)]) /\
              match fst (if has_getUserPreferences (storeRefs w) then _ else _, w) with
              | Returned (Some st) =>
                  has_getUserPreferences (storeRefs w) = true /\
                  window_mcpAutomationState w1 = Some st /\
                  autoInsert st = truthy (pref_autoInsert (preferences w)) /\
                  autoSubmit st = truthy (pref_autoSubmit (preferences w)) /\
                  pending w1
                  = pending w ++ (if truthy (pref_autoExecute (preferences w))
                                  then [(0, TaskAutoExecute d)] else [])
              | _ => w1 = w
              end)).
  unfold beginPipeline. auto_run w Hst0.
  all: cbv beta; world_simpl; normalize_cases; try discriminate.
  all: repeat match goal with
              | H : has_getUserPreferences _ = _ |- _ => rewrite H
              end.
  all: cbn [fst].
  all: split; [reflexivity|]; do 4 (split; [reflexivity|]).
  all: split; [first [left; symmetry; apply app_nil_r | right; reflexivity]|].
  all: first [reflexivity | do 4 (split; [reflexivity|])].
  all: cbn [autoExecute] in *.
  all: match goal with H : truthy (pref_autoExecute _) = _ |- _ => rewrite H end.
  all: first [reflexivity | symmetry; apply app_nil_r].
Qed.

(** The runs of the handler: it returns normally, and it ends where it
    started, or after the first half, or after the auto-insert stage, or
    after the auto-submit stage that follows a successful insertion. *)
Lemma handler_cases ev w :
  fst (handleToolExecutionComplete ev w) = Returned tt /\
  ((snd (handleToolExecutionComplete ev w) = w /\
    (detail ev = None \/ fst (getAutomationState w) = Returned None)) \/
   exists d st,
     detail ev = Some d /\
     fst (beginPipeline d w) = Returned (Some st) /\
     let w1 := snd (beginPipeline d w) in
     let w2 := snd (handleAutoInsert d w1) in
     ((autoInsert st && negb (truthy (skipAutoInsertCheck d)) = false /\
       snd (handleToolExecutionComplete ev w) = w1) \/
      (autoInsert st && negb (truthy (skipAutoInsertCheck d)) = true /\
       exists b, fst (handleAutoInsert d w1) = Returned b /\
         ((b && autoSubmit st = false /\
           snd (handleToolExecutionComplete ev w) = w2) \/
          (b = true /\ autoSubmit st = true /\
           snd (handleToolExecutionComplete ev w) = snd (handleAutoSubmit d w2)))))).
Proof.
  unfold handleToolExecutionComplete.
  destruct (detail ev) as [d|] eqn:Hd; [|split; [reflexivity|]; left; auto].
  pose proof (beginPipeline_spec d w) as (Hfst & _ & _ & _ & _ & _ & Hpol).
  cbv zeta in Hpol. cbv zeta.
  unfold insertThenSubmit, try_catch, bind, ret.
  destruct (beginPipeline d w) as [o1 w1] eqn:Hb. cbn [fst snd] in *.
  rewrite <- Hfst in Hpol.
  destruct o1 as [[st|]|e].
  - destruct (autoInsert st && negb (truthy (skipAutoInsertCheck d))) eqn:Hgo.
    + destruct (getCurrentAdapterState_returns w1) as [ast Hast].
      destruct (handleAutoInsert_spec d w1 ast Hast) as (b & calls & extra & Hret & _).
      destruct (handleAutoInsert d w1) as [o2 w2] eqn:Hi.
      cbn [fst snd] in *. subst o2. cbv beta iota.
      destruct (b && autoSubmit st) eqn:Hsub.
      * apply andb_true_iff in Hsub as [-> Hsub].
        destruct (getCurrentAdapterState_returns w2) as [ast2 Hast2].
        destruct (handleAutoSubmit_spec d w2 ast2 Hast2) as (b3 & calls3 & Hret3 & _).
        destruct (handleAutoSubmit d w2) as [o3 w3] eqn:Hs.
        cbn [fst snd] in *. subst o3. cbv beta iota.
        split; [reflexivity|]. right. exists d, st. rewrite Hb. cbn [fst snd].
        split; [reflexivity|]. split; [reflexivity|]. right.
        split; [exact Hgo|]. exists true. rewrite Hi. cbn [fst snd].
        split; [reflexivity|]. right. rewrite Hs. done.
      * split; [reflexivity|]. right. exists d, st. rewrite Hb. cbn [fst snd].
        split; [reflexivity|]. split; [reflexivity|]. right.
        split; [exact Hgo|]. exists b. rewrite Hi. cbn [fst snd].
        split; [reflexivity|]. left. done.
    + split; [reflexivity|]. right. exists d, st. rewrite Hb. cbn [fst snd].
      split; [reflexivity|]. split; [reflexivity|]. by left.
  - split; [reflexivity|]. left. split; [exact Hpol | by right].
  - split; [reflexivity|]. left.
    split; [exact Hpol | ].
    exfalso. clear -Hfst.
    unfold getAutomationState, try_catch, bind, world, getUserPreferences, ret in Hfst.
    destruct (has_getUserPreferences (storeRefs w)); discriminate.
Qed.

(** * One run of the handler *)

Lemma adapterReady_refs w1 w st :
  storeRefs w1 = storeRefs w -> adapterReady w1 st <-> adapterReady w st.
Proof. unfold adapterReady. by intros ->. Qed.

Lemma insertStageDid_refs d w1 w st b calls extra :
  storeRefs w1 = storeRefs w ->
  insertStageDid d w1 st b calls extra -> insertStageDid d w st b calls extra.
Proof.
  intros Hrefs. unfold insertStageDid.
  intros [H | [(f & x & r & Hready & H) | (ins & text & r & Hready & H)]].
  - by left.
  - right; left. exists f, x, r. split; [by apply (adapterReady_refs w1 w)|exact H].
  - right; right. exists ins, text, r.
    split; [by apply (adapterReady_refs w1 w)|exact H].
Qed.

Lemma submitStageDid_refs w1 w st calls :
  storeRefs w1 = storeRefs w ->
  submitStageDid w1 st calls -> submitStageDid w st calls.
Proof.
  intros Hrefs. unfold submitStageDid.
  intros [[Hc Hn] | (f & r & Hready & H)].
  - left. split; [exact Hc|]. intros [Hready Hsub]. apply Hn.
    split; [by apply (adapterReady_refs w1 w)|exact Hsub].
  - right. exists f, r. split; [by apply (adapterReady_refs w1 w)|exact H].
Qed.

(** One run of the handler, from a world whose adapter state is [st]: the
    store, the preferences and the accessors are as before; the calls are
    the wait and the call of the auto-insert stage, then the wait and the
    calls of the auto-submit stage; the tasks are the auto-execute task, if
    any, and what the auto-insert stage started.  [b] is the result of the
    auto-insert stage, [false] when it did not run. *)
Lemma pipeline_run ev w st :
  fst (getCurrentAdapterState w) = Returned st ->
  let w' := snd (handleToolExecutionComplete ev w) in
  store w' = store w /\ preferences w' = preferences w /\
  storeRefs w' = storeRefs w /\
  exists (b : bool) waits1 ins waits2 sub tasks0 extra,
    log w' = log w ++ waits1 ++ ins ++ waits2 ++ sub /\
    pending w' = pending w ++ tasks0 ++ extra /\
    Forall (fun c => isSleepCall c = true) waits1 /\
    Forall (fun c => isSleepCall c = true) waits2 /\
    Forall (fun t => isConfirmationTask t = false) tasks0 /\
    ((b = false /\ waits1 = [] /\ ins = [] /\ extra = []) \/
     (exists d, detail ev = Some d /\
        has_getUserPreferences (storeRefs w) = true /\
        truthy (pref_autoInsert (preferences w)) = true /\
        insertStageDid d w st b ins extra)) /\
    ((b && truthy (pref_autoSubmit (preferences w)) = false /\
      waits2 = [] /\ sub = []) \/
     (b = true /\ truthy (pref_autoSubmit (preferences w)) = true /\
      submitStageDid w st sub)).
Proof.
  intros Hst. cbv zeta.
  destruct (handler_cases ev w) as [_ [[Hw _] | (d & pol & Hd & Hb & Hcases)]].
  { rewrite Hw. do 3 (split; [reflexivity|]).
    exists false, [], [], [], [], [], [].
    split; [by rewrite app_nil_r|]. split; [by rewrite app_nil_r|].
    do 3 (split; [constructor|]). split; [by left | by left]. }
  pose proof (beginPipeline_spec d w)
    as (Hfst & Hlog1 & Hstore1 & Hprefs1 & Hrefs1 & Hpend1 & Hpol).
  cbv zeta in *. rewrite <- Hfst, Hb in Hpol.
  destruct Hpol as (Hhas & _ & HautoInsert & HautoSubmit & _).
  set (w1 := snd (beginPipeline d w)) in *.
  assert (exists tasks0, pending w1 = pending w ++ tasks0 /\
            Forall (fun t => isConfirmationTask t = false) tasks0)
    as (tasks0 & Hpend & Htasks0).
  { destruct Hpend1 as [H|H]; eexists; (split; [exact H|]); repeat constructor. }
  assert (Hst1 : fst (getCurrentAdapterState w1) = Returned st).
  { by rewrite (getCurrentAdapterState_store w1 w). }
  destruct Hcases as [[Hoff ->] | (Hon & b & Hret & Hcases)].
  { do 3 (split; [assumption|]).
    exists false, [], [], [], [], tasks0, [].
    rewrite Hlog1, Hpend, !app_nil_r.
    do 2 (split; [reflexivity|]). do 2 (split; [constructor|]).
    split; [assumption|]. split; [by left | by left]. }
  destruct (handleAutoInsert_spec d w1 st Hst1)
    as (b' & ins & extra & Hret' & Hlog2 & Hpend2 & Hstore2 & Hprefs2 & Hrefs2 & _ & Hdid).
  rewrite Hret in Hret'. injection Hret' as <-.
  set (w2 := snd (handleAutoInsert d w1)) in *.
  apply andb_true_iff in Hon as [HautoInsert' _]. rewrite HautoInsert in HautoInsert'.
  apply (insertStageDid_refs d w1 w) in Hdid; [|assumption].
  assert (Hinsert :
            (b = false /\ delaySleeps pref_autoInsertDelay w1 = [] /\ ins = [] /\ extra = []) \/
            (exists d0, detail ev = Some d0 /\
               has_getUserPreferences (storeRefs w) = true /\
               truthy (pref_autoInsert (preferences w)) = true /\
               insertStageDid d0 w st b ins extra)).
  { right. by exists d. }
  destruct Hcases as [[Hnosub ->] | (-> & Hsub & ->)].
  { split; [congruence|]. split; [congruence|]. split; [congruence|].
    exists b, (delaySleeps pref_autoInsertDelay w1), ins, [], [], tasks0, extra.
    rewrite Hlog2, Hlog1, Hpend2, Hpend, !app_nil_r, <- !app_assoc.
    do 2 (split; [reflexivity|]).
    split; [apply delaySleeps_are_sleeps|]. split; [constructor|].
    split; [assumption|]. split; [assumption|].
    left. by rewrite <- HautoSubmit. }
  assert (Hst2 : fst (getCurrentAdapterState w2) = Returned st).
  { rewrite (getCurrentAdapterState_store w2 w1); assumption. }
  destruct (handleAutoSubmit_spec d w2 st Hst2)
    as (b3 & sub & _ & Hlog3 & Hpend3 & Hstore3 & Hprefs3 & Hrefs3 & _ & Hsubmit).
  apply (submitStageDid_refs w2 w) in Hsubmit; [|congruence].
  split; [congruence|]. split; [congruence|]. split; [congruence|].
  exists true, (delaySleeps pref_autoInsertDelay w1), ins,
    (delaySleeps pref_autoSubmitDelay w2), sub, tasks0, extra.
  rewrite Hlog3, Hlog2, Hlog1, Hpend3, Hpend2, Hpend, <- !app_assoc.
  do 2 (split; [reflexivity|]).
  split; [apply delaySleeps_are_sleeps|]. split; [apply delaySleeps_are_sleeps|].
  split; [assumption|]. split; [assumption|].
  right. split; [reflexivity|]. split; [congruence | assumption].
Qed.

(** What a ready adapter state says about the store. *)
Lemma ready_state w st p :
  fst (getCurrentAdapterState w) = Returned st ->
  cas_plugin st = Some p -> isReady st = true ->
  exists n r,
    activeAdapterName (store w) = Some n /\
    registeredPlugins (store w) !! n = Some r /\
    plugin r = p /\ status r = st_active /\
    lastAdapterError (store w) = None.
Proof.
  unfold getCurrentAdapterState, getActiveAdapter, bind, get, ret. cbn.
  destruct (activeAdapterName (store w)) as [n|] eqn:Hn; cbn;
    [destruct (n =? "") eqn:Hempty; cbn|].
  - intros [= <-]; cbn. discriminate.
  - unfold property.
    destruct (registeredPlugins (store w) !! n) as [r|] eqn:Hr; cbn;
      [|destruct (inherited n); cbn].
    + intros [= <-]; cbn. intros [= <-] Hready.
      apply andb_true_iff in Hready as [Hactive Herr].
      exists n, r. split; [reflexivity|]. split; [exact Hr|]. split; [reflexivity|].
      split; [by destruct (status r) | by destruct (lastAdapterError (store w))].
    + intros [= <-]; cbn. discriminate.
    + intros [= <-]; cbn. discriminate.
  - intros [= <-]; cbn. discriminate.
Qed.

(** The capabilities of an adapter state are those of its plugin. *)
Lemma bound_owners w st :
  fst (getCurrentAdapterState w) = Returned st ->
  (forall f, cas_insertText st = Some f -> exists p, cas_plugin st = Some p /\ owner f = name p) /\
  (forall f, cas_attachFile st = Some f -> exists p, cas_plugin st = Some p /\ owner f = name p) /\
  (forall f, cas_submitForm st = Some f -> exists p, cas_plugin st = Some p /\ owner f = name p).
Proof.
  unfold getCurrentAdapterState, getActiveAdapter, bind, get, ret. cbn.
  assert (Hnone : forall v : Property,
            let p := pluginOf v in
            (forall f, p ≫= (fun p => mkBound (name p) <$> insertText p) = Some f ->
                       exists q, p = Some q /\ owner f = name q) /\
            (forall f, p ≫= (fun p => mkBound (name p) <$> attachFile p) = Some f ->
                       exists q, p = Some q /\ owner f = name q) /\
            (forall f, p ≫= (fun p => mkBound (name p) <$> submitForm p) = Some f ->
                       exists q, p = Some q /\ owner f = name q)).
  { intros [r| |]; cbn; [|repeat split; discriminate..].
    repeat split; intros f Hf; exists (plugin r); (split; [reflexivity|]).
    - destruct (insertText (plugin r)); cbn in Hf; by simplify_eq.
    - destruct (attachFile (plugin r)); cbn in Hf; by simplify_eq.
    - destruct (submitForm (plugin r)); cbn in Hf; by simplify_eq. }
  destruct (activeAdapterName (store w)) as [n|]; cbn;
    [destruct (n =? ""); cbn|]; intros [= <-]; cbn.
  - apply (Hnone Undefined).
  - apply (Hnone (property (registeredPlugins (store w)) n)).
  - apply (Hnone Undefined).
Qed.

(** The calls of a stage are addressed to the plugin of the adapter state. *)
Lemma stage_calls_ready w st b ins extra sub :
  fst (getCurrentAdapterState w) = Returned st ->
  (ins = [] \/ exists d, insertStageDid d w st b ins extra) ->
  (sub = [] \/ submitStageDid w st sub) ->
  Forall (drives st) (ins ++ sub).
Proof.
  intros Hst Hins Hsub.
  destruct (bound_owners w st Hst) as (Hi & Ha & Hs).
  apply Forall_app. split.
  - destruct Hins as [-> | (d & [(-> & _) | [(f & x & r & Hready & _ & _ & Hf & -> & _)
                                       | (f & text & r & Hready & _ & _ & _ & Hf & -> & _)]])].
    + constructor.
    + constructor.
    + apply Forall_singleton. right. destruct (Ha f Hf) as (p & Hp & Ho). exists p.
      destruct Hready as (_ & Hr & _). cbn. by rewrite Ho.
    + apply Forall_singleton. right. destruct (Hi f Hf) as (p & Hp & Ho). exists p.
      destruct Hready as (_ & Hr & _). cbn. by rewrite Ho.
  - destruct Hsub as [-> | [(-> & _) | (f & r & Hready & Hf & ->)]].
    + constructor.
    + constructor.
    + constructor; [by left|]. apply Forall_singleton.
      right. destruct (Hs f Hf) as (p & Hp & Ho). exists p.
      destruct Hready as (_ & Hr & _). cbn. by rewrite Ho.
Qed.

(** The calls of a run of the handler. *)
Lemma pipeline_drives ev w st :
  fst (getCurrentAdapterState w) = Returned st ->
  Forall (drives st) (newCalls w (snd (handleToolExecutionComplete ev w))).
Proof.
  intros Hst.
  destruct (pipeline_run ev w st Hst)
    as (_ & _ & _ & b & waits1 & ins & waits2 & sub & tasks0 & extra
        & Hlog & _ & Hw1 & Hw2 & _ & Hins & Hsub).
  rewrite (newCalls_app _ _ _ Hlog).
  assert (Hsleep : forall l, Forall (fun c => isSleepCall c = true) l ->
                             Forall (drives st) l).
  { intros l Hl. eapply Forall_impl; [exact Hl|]. intros c Hc. by left. }
  assert (Hall : Forall (drives st) (ins ++ sub)).
  { apply (stage_calls_ready w st b ins extra sub Hst).
    - destruct Hins as [(_ & _ & -> & _) | (d & _ & _ & _ & Hdid)];
        [by left | right; by exists d].
    - destruct Hsub as [(_ & _ & ->) | (_ & _ & Hdid)]; [by left | by right]. }
  apply Forall_app in Hall as [Hall1 Hall2].
  repeat (apply Forall_app; split); auto.
Qed.


(** * What a run of the handler does, and what it never does *)

(** X15: the handler of [mcp:tool-execution-complete] never throws, whatever
    the capabilities of the adapter do, and it writes neither to the adapter
    store nor to the preferences nor to the store accessors. *)
Theorem handler_never_throws_keeps_store (ev : CustomEvent) (w : World) :
  fst (handleToolExecutionComplete ev w) = Returned tt /\
  store (snd (handleToolExecutionComplete ev w)) = store w /\
  preferences (snd (handleToolExecutionComplete ev w)) = preferences w /\
  storeRefs (snd (handleToolExecutionComplete ev w)) = storeRefs w.
Proof.
  split; [apply handler_cases|].
  destruct (getCurrentAdapterState_returns w) as [st Hst].
  destruct (pipeline_run ev w st Hst) as (Hs & Hp & Hr & _). auto.
Qed.

(** X16: auto-submit is nested in auto-insert: with [autoInsert] off the
    handler makes no call at all, not even a wait, and starts no
    confirmation task, whatever [autoSubmit] says. *)
Theorem autoSubmit_needs_autoInsert (ev : CustomEvent) (w : World) :
  truthy (pref_autoInsert (preferences w)) = false ->
  newCalls w (snd (handleToolExecutionComplete ev w)) = [] /\
  Forall (fun t => isConfirmationTask t = false)
         (newTasks w (snd (handleToolExecutionComplete ev w))).
Proof.
  intros Hoff.
  destruct (getCurrentAdapterState_returns w) as [st Hst].
  destruct (pipeline_run ev w st Hst)
    as (_ & _ & _ & b & waits1 & ins & waits2 & sub & tasks0 & extra
        & Hlog & Hpend & _ & _ & Htasks & Hins & Hsub).
  destruct Hins as [(-> & -> & -> & ->) | (d & _ & _ & Hon & _)]; [|congruence].
  destruct Hsub as [(_ & -> & ->) | (? & _)]; [|discriminate].
  split.
  - apply newCalls_app. by rewrite Hlog.
  - rewrite (newTasks_app _ _ _ Hpend), app_nil_r. exact Htasks.
Qed.

Lemma autoSubmit_needs_autoInsert_witness :
  truthy (pref_autoInsert (preferences submitOnlyWorld)) = false /\
  truthy (pref_autoSubmit (preferences submitOnlyWorld)) = true /\
  newCalls submitOnlyWorld
    (snd (handleToolExecutionComplete (textResult "42" false) submitOnlyWorld)) = [].
Proof.
  split; [reflexivity|]. split; [reflexivity|].
  apply (autoSubmit_needs_autoInsert (textResult "42" false) submitOnlyWorld).
  reflexivity.
Defined.

(** X17: a run of the handler calls no lifecycle hook and emits no event;
    besides waiting it only calls capabilities, and each such call is
    addressed to the plugin of the registration in the exclusive slot, whose
    status is [active] while no adapter error is recorded. *)
Theorem capability_calls_go_to_the_active_adapter (ev : CustomEvent) (w : World) :
  Forall (fun c =>
            isSleepCall c = true \/
            exists n r,
              activeAdapterName (store w) = Some n /\
              registeredPlugins (store w) !! n = Some r /\
              status r = st_active /\ lastAdapterError (store w) = None /\
              isCapabilityCall c = true /\ callee c = Some (name (plugin r)))
         (newCalls w (snd (handleToolExecutionComplete ev w))).
Proof.
  destruct (getCurrentAdapterState_returns w) as [st Hst].
  eapply Forall_impl; [exact (pipeline_drives ev w st Hst)|].
  intros c [Hsleep | (p & Hp & Hready & Hcap & Hcallee)]; [by left|]. right.
  destruct (ready_state w st p Hst Hp Hready) as (n & r & Hn & Hr & <- & Hactive & Herr).
  exists n, r. auto 10.
Qed.


(** X19: the shape of a run: a wait, at most one insertion call
    ([attachFile] or [insertText]), a wait, and either nothing or the settle
    wait of 800 ms followed by one [submitForm] call, the latter only when the
    insertion call returned [true]. *)
Theorem pipeline_call_shape (ev : CustomEvent) (w : World) :
  exists waits1 ins waits2 sub,
    newCalls w (snd (handleToolExecutionComplete ev w))
    = waits1 ++ ins ++ waits2 ++ sub /\
    Forall (fun c => isSleepCall c = true) waits1 /\
    Forall (fun c => isSleepCall c = true) waits2 /\
    (ins = [] \/ exists c, ins = [c] /\ isAttachCall c || isInsertTextCall c = true) /\
    (sub = [] \/
     exists c p r, ins = [c] /\ insertionSucceeded c = true /\
                   sub = [Sleep 800; SubmitForm p r]).
Proof.
  destruct (getCurrentAdapterState_returns w) as [st Hst].
  destruct (pipeline_run ev w st Hst)
    as (_ & _ & _ & b & waits1 & ins & waits2 & sub & tasks0 & extra
        & Hlog & _ & Hw1 & Hw2 & _ & Hins & Hsub).
  exists waits1, ins, waits2, sub.
  split; [by apply newCalls_app|]. do 2 (split; [assumption|]).
  assert (Hsubmit : sub = [] \/
            b = true /\ exists p r, sub = [Sleep 800; SubmitForm p r]).
  { destruct Hsub as [(_ & _ & ->) | (-> & _ & [(-> & _) | (f & r & _ & _ & ->)])];
      [by left | by left | right; eauto]. }
  destruct Hins as [(-> & _ & -> & _) | (d & _ & _ & _ & Hdid)].
  { split; [by left|]. destruct Hsubmit as [-> | (? & _)]; [by left | discriminate]. }
  destruct Hdid as [(-> & -> & _) | [(f & x & r & _ & _ & _ & _ & -> & -> & _)
                                    | (f & text & r & _ & _ & _ & _ & _ & -> & -> & _)]].
  - split; [by left|]. destruct Hsubmit as [-> | (? & _)]; [by left | discriminate].
  - split; [right; eexists; split; reflexivity|].
    destruct Hsubmit as [-> | (Hb & p & r' & ->)]; [by left|]. right.
    eexists _, p, r'. split; [reflexivity|]. split; [|reflexivity].
    by destruct r as [[]|].
  - split; [right; eexists; split; reflexivity|].
    destruct Hsubmit as [-> | (Hb & p & r' & ->)]; [by left|]. right.
    eexists _, p, r'. split; [reflexivity|]. split; [|reflexivity].
    by destruct r as [[]|].
Qed.

(** X20: a file result goes to [attachFile] only: when the event carries a
    file and the adapter binds [attachFile], the run makes no [insertText]
    call, also when the attachment fails or throws (there is no fallback to
    inserting the text result). *)
Theorem attach_takes_priority_over_text
    (ev : CustomEvent) (w : World) (st : CurrentAdapterState)
    (d : ToolExecutionCompleteDetail) (x : File)
    (f : Bound (Log -> File -> Outcome bool)) :
  fst (getCurrentAdapterState w) = Returned st ->
  detail ev = Some d ->
  truthy (isFileAttachment d) = true -> file d = Some x ->
  cas_attachFile st = Some f ->
  Forall (fun c => isInsertTextCall c = false)
         (newCalls w (snd (handleToolExecutionComplete ev w))).
Proof.
  intros Hst Hd Hattach Hfile Hbound.
  destruct (pipeline_run ev w st Hst)
    as (_ & _ & _ & b & waits1 & ins & waits2 & sub & tasks0 & extra
        & Hlog & _ & Hw1 & Hw2 & _ & Hins & Hsub).
  rewrite (newCalls_app _ _ _ Hlog).
  assert (Hsleep : forall l, Forall (fun c => isSleepCall c = true) l ->
                             Forall (fun c => isInsertTextCall c = false) l).
  { intros l Hl. eapply Forall_impl; [exact Hl|]. by intros []. }
  repeat (apply Forall_app; split); auto.
  - destruct Hins as [(_ & _ & -> & _) | (d0 & Hd0 & _ & _ & Hdid)]; [constructor|].
    rewrite Hd in Hd0. injection Hd0 as <-.
    destruct Hdid as [(-> & _) | [(? & ? & ? & _ & _ & _ & _ & -> & _)
                                 | (? & ? & ? & _ & _ & Hno & _)]].
    + constructor.
    + by apply Forall_singleton.
    + rewrite Hattach, Hfile, Hbound in Hno. by destruct Hno.
  - destruct Hsub as [(_ & _ & ->) | (_ & _ & [(-> & _) | (? & ? & _ & _ & ->)])];
      repeat constructor.
Qed.

Lemma attach_takes_priority_over_text_witness :
  Forall (fun c => isInsertTextCall c = false)
         (newCalls (automationWorld chatPlugin)
            (snd (handleToolExecutionComplete fileResult (automationWorld chatPlugin)))).
Proof.
  assert (Hst : exists st f,
             fst (getCurrentAdapterState (automationWorld chatPlugin)) = Returned st /\
             cas_attachFile st = Some f).
  { eexists _, _. split; vm_compute; reflexivity. }
  destruct Hst as (st & f & Hst & Hf).
  apply (attach_takes_priority_over_text fileResult (automationWorld chatPlugin)
           st fileDetail reportFile f Hst); [reflexivity | reflexivity | reflexivity | exact Hf].
Defined.

(** X21: a successful insertion is submitted: when auto-submit is on and the
    adapter binds [submitForm], an [insertText] or [attachFile] call of the
    run that returned [true] is followed, after the configured wait and the
    settle wait of 800 ms, by a [submitForm] call that ends the run. *)
Theorem successful_insertion_is_submitted
    (ev : CustomEvent) (w : World) (st : CurrentAdapterState) (c : Call)
    (f : Bound (Log -> Outcome bool)) :
  fst (getCurrentAdapterState w) = Returned st ->
  truthy (pref_autoSubmit (preferences w)) = true ->
  cas_submitForm st = Some f ->
  c ∈ newCalls w (snd (handleToolExecutionComplete ev w)) ->
  insertionSucceeded c = true ->
  exists waits1 waits2 r,
    newCalls w (snd (handleToolExecutionComplete ev w))
    = waits1 ++ [c] ++ waits2 ++ [Sleep 800; SubmitForm (owner f) r] /\
    Forall (fun c => isSleepCall c = true) waits1 /\
    Forall (fun c => isSleepCall c = true) waits2.
Proof.
  intros Hst Hauto Hbound Hin Hok.
  destruct (pipeline_run ev w st Hst)
    as (_ & _ & _ & b & waits1 & ins & waits2 & sub & tasks0 & extra
        & Hlog & _ & Hw1 & Hw2 & _ & Hins & Hsub).
  rewrite (newCalls_app _ _ _ Hlog) in *.
  assert (Hnosleep : forall l, Forall (fun c => isSleepCall c = true) l -> c ∉ l).
  { intros l Hl Hc. rewrite Forall_forall in Hl. apply Hl in Hc.
    destruct c; discriminate. }
  assert (Hnosub : c ∉ sub).
  { destruct Hsub as [(_ & _ & ->) | (_ & _ & [(-> & _) | (? & ? & _ & _ & ->)])].
    - apply not_elem_of_nil.
    - apply not_elem_of_nil.
    - intros Hc. apply elem_of_cons in Hc as [-> | Hc]; [discriminate|].
      apply elem_of_cons in Hc as [-> | Hc]; [discriminate|].
      by apply not_elem_of_nil in Hc. }
  assert (Hc : c ∈ ins).
  { rewrite !elem_of_app in Hin.
    destruct Hin as [Hc | [Hc | [Hc | Hc]]]; [|exact Hc| |].
    - by apply Hnosleep in Hc.
    - by apply Hnosleep in Hc.
    - contradiction. }
  assert (Hdid : ins = [c] /\ b = true /\ adapterReady w st).
  { destruct Hins as [(_ & _ & -> & _) | (d & _ & _ & _ & Hdid)];
      [by apply not_elem_of_nil in Hc|].
    destruct Hdid as [(-> & _) | [(? & ? & r & Hready & _ & _ & _ & -> & -> & _)
                                 | (? & ? & r & Hready & _ & _ & _ & _ & -> & -> & _)]].
    - by apply not_elem_of_nil in Hc.
    - apply list_elem_of_singleton in Hc as ->. cbn in Hok.
      destruct r as [[]|]; try discriminate. auto.
    - apply list_elem_of_singleton in Hc as ->. cbn in Hok.
      destruct r as [[]|]; try discriminate. auto. }
  destruct Hdid as (-> & -> & Hready).
  destruct Hsub as [(Hoff & _) | (_ & _ & Hsubmit)].
  { cbn in Hoff. congruence. }
  destruct Hsubmit as [(_ & Hnot) | (f' & r & _ & Hf' & ->)].
  { exfalso. apply Hnot. split; [exact Hready|]. rewrite Hbound. by eexists. }
  rewrite Hbound in Hf'. injection Hf' as <-.
  exists waits1, waits2, r. auto.
Qed.

Lemma successful_insertion_is_submitted_witness :
  let w := automationWorld chatPlugin in
  newCalls w (snd (handleToolExecutionComplete (textResult "42" false) w))
  = [Sleep 2000; InsertText "chat" "42" (Returned true);
     Sleep 1000; Sleep 800; SubmitForm "chat" (Returned true)] /\
  exists waits1 waits2 r,
    newCalls w (snd (handleToolExecutionComplete (textResult "42" false) w))
    = waits1 ++ [InsertText "chat" "42" (Returned true)] ++ waits2
      ++ [Sleep 800; SubmitForm "chat" r] /\
    Forall (fun c => isSleepCall c = true) waits1 /\
    Forall (fun c => isSleepCall c = true) waits2.
Proof.
  cbv zeta.
  assert (Hcalls :
            newCalls (automationWorld chatPlugin)
              (snd (handleToolExecutionComplete (textResult "42" false)
                      (automationWorld chatPlugin)))
            = [Sleep 2000; InsertText "chat" "42" (Returned true);
               Sleep 1000; Sleep 800; SubmitForm "chat" (Returned true)])
    by (vm_compute; reflexivity).
  split; [exact Hcalls|].
  assert (Hst : exists st f,
             fst (getCurrentAdapterState (automationWorld chatPlugin)) = Returned st /\
             cas_submitForm st = Some f /\ owner f = "chat").
  { eexists _, _. split; [vm_compute; reflexivity|]. split; vm_compute; reflexivity. }
  destruct Hst as (st & f & Hst & Hf & Howner).
  assert (Hin : InsertText "chat" "42" (Returned true)
                ∈ newCalls (automationWorld chatPlugin)
                    (snd (handleToolExecutionComplete (textResult "42" false)
                            (automationWorld chatPlugin)))).
  { rewrite Hcalls. apply list_elem_of_In. cbn. tauto. }
  pose proof (successful_insertion_is_submitted (textResult "42" false)
                (automationWorld chatPlugin) st
                (InsertText "chat" "42" (Returned true)) f Hst eq_refl Hf Hin eq_refl)
    as Hsubmitted.
  rewrite Howner in Hsubmitted. exact Hsubmitted.
Defined.

(** X22: a confirmation task comes only from a successful attachment: every
    confirmation task that a run starts is due 100 ms later, carries the
    event's non-empty confirmation text, and the run made an [attachFile]
    call to the same plugin that returned [true]. *)
Theorem confirmation_task_only_after_attach
    (ev : CustomEvent) (w : World) (delay : Z)
    (ins : Bound (Log -> string -> Outcome bool)) (text : string) :
  (delay, TaskInsertConfirmation ins text)
    ∈ newTasks w (snd (handleToolExecutionComplete ev w)) ->
  delay = 100%Z /\
  exists d x,
    detail ev = Some d /\ confirmationText d = Some text /\ text <> "" /\
    AttachFile (owner ins) x (Returned true)
      ∈ newCalls w (snd (handleToolExecutionComplete ev w)).
Proof.
  intros Hin.
  destruct (getCurrentAdapterState_returns w) as [st Hst].
  destruct (bound_owners w st Hst) as (Hi & Ha & _).
  destruct (pipeline_run ev w st Hst)
    as (_ & _ & _ & b & waits1 & calls & waits2 & sub & tasks0 & extra
        & Hlog & Hpend & _ & _ & Htasks & Hins & _).
  rewrite (newTasks_app _ _ _ Hpend) in Hin. rewrite (newCalls_app _ _ _ Hlog).
  apply elem_of_app in Hin as [Hin | Hin].
  { rewrite Forall_forall in Htasks. apply Htasks in Hin. discriminate. }
  destruct Hins as [(_ & _ & _ & ->) | (d & Hd & _ & _ & Hdid)];
    [by apply not_elem_of_nil in Hin|].
  destruct Hdid as [(_ & _ & ->) | [(f & x & r & _ & _ & _ & Hf & -> & _ & ->)
                                   | (? & ? & ? & _ & _ & _ & _ & _ & _ & _ & ->)]];
    [by apply not_elem_of_nil in Hin | | by apply not_elem_of_nil in Hin].
  destruct r as [[]|]; cbn in Hin; try by apply not_elem_of_nil in Hin.
  unfold confirmationTasks in Hin.
  destruct (confirmationText d) as [t|] eqn:Htext; cbn in Hin;
    [|by apply not_elem_of_nil in Hin].
  destruct (String.eqb_spec t ""); [by apply not_elem_of_nil in Hin|].
  destruct (cas_insertText st) as [ins'|] eqn:Hins'; [|by apply not_elem_of_nil in Hin].
  apply list_elem_of_singleton in Hin. injection Hin as -> -> ->.
  split; [reflexivity|]. exists d, x.
  split; [assumption|]. split; [exact Htext|]. split; [assumption|].
  destruct (Hi ins' eq_refl) as (p & Hp & ->).
  destruct (Ha f Hf) as (p' & Hp' & Hf').
  rewrite Hp in Hp'. injection Hp' as <-. rewrite <- Hf'.
  rewrite !elem_of_app. right; left. apply list_elem_of_singleton. reflexivity.
Qed.

Lemma confirmation_task_only_after_attach_witness :
  let w := automationWorld chatPlugin in
  let w' := snd (handleToolExecutionComplete fileResult w) in
  let ins := {| owner := "chat"; fn := fun (_ : list Call) (_ : string) => Returned true |} in
  (100%Z, TaskInsertConfirmation ins "File report.txt attached") ∈ newTasks w w' /\
  exists d x,
    detail fileResult = Some d /\
    confirmationText d = Some "File report.txt attached" /\
    "File report.txt attached" <> "" /\
    AttachFile "chat" x (Returned true) ∈ newCalls w w'.
Proof.
  cbv zeta.
  assert (Hin : (100%Z,
                 TaskInsertConfirmation
                   {| owner := "chat";
                      fn := fun (_ : list Call) (_ : string) => Returned true |}
                   "File report.txt attached")
                ∈ newTasks (automationWorld chatPlugin)
                    (snd (handleToolExecutionComplete fileResult (automationWorld chatPlugin)))).
  { apply list_elem_of_In. vm_compute. tauto. }
  split; [exact Hin|].
  apply (confirmation_task_only_after_attach fileResult (automationWorld chatPlugin)
           100 _ "File report.txt attached" Hin).
Defined.

(** X23: what the handler leaves in [window.__mcpAutomationState]: the
    automation state read from the preferences when the event has a detail
    and the preferences accessor is set, and what was there before
    otherwise. *)
Theorem handler_exposes_automation_state (ev : CustomEvent) (w : World) :
  window_mcpAutomationState (snd (handleToolExecutionComplete ev w))
  = match detail ev, fst (getAutomationState w) with
    | Some _, Returned (Some st) => Some st
    | _, _ => window_mcpAutomationState w
    end.
Proof.
  destruct (handler_cases ev w) as [_ [[Hw Hwhy] | (d & pol & Hd & Hb & Hcases)]].
  { rewrite Hw. destruct Hwhy as [-> | ->]; [reflexivity | by destruct (detail ev)]. }
  pose proof (beginPipeline_spec d w) as (Hfst & _ & _ & _ & _ & _ & Hpol).
  cbv zeta in *. rewrite <- Hfst, Hb in *. rewrite Hd.
  destruct Hpol as (_ & Hwin & _).
  set (w1 := snd (beginPipeline d w)) in *.
  destruct (getCurrentAdapterState_returns w1) as [st1 Hst1].
  destruct (handleAutoInsert_spec d w1 st1 Hst1)
    as (? & ? & ? & _ & _ & _ & _ & _ & _ & Hwin2 & _).
  set (w2 := snd (handleAutoInsert d w1)) in *.
  destruct (getCurrentAdapterState_returns w2) as [st2 Hst2].
  destruct (handleAutoSubmit_spec d w2 st2 Hst2)
    as (? & ? & _ & _ & _ & _ & _ & _ & Hwin3 & _).
  destruct Hcases as [[_ ->] | (_ & b & _ & [[_ ->] | (_ & _ & ->)])]; congruence.
Qed.

(** X24: auto-execute runs independently of the other stages: for an event
    with a detail, when the preferences accessor is set, the tasks a run
    starts are the auto-execute task exactly when [autoExecute] is on,
    whatever [autoInsert], [autoSubmit] and [skipAutoInsertCheck] say,
    followed only by confirmation tasks. *)
Theorem autoExecute_started_iff_enabled
    (ev : CustomEvent) (w : World) (d : ToolExecutionCompleteDetail) :
  detail ev = Some d ->
  has_getUserPreferences (storeRefs w) = true ->
  exists extra,
    newTasks w (snd (handleToolExecutionComplete ev w))
    = (if truthy (pref_autoExecute (preferences w))
       then [(0%Z, TaskAutoExecute d)] else []) ++ extra /\
    Forall (fun t => isConfirmationTask t = true) extra.
Proof.
  intros Hd Hhas.
  assert (Hsome : exists pol, fst (getAutomationState w) = Returned (Some pol)).
  { unfold getAutomationState, try_catch, bind, world, getUserPreferences, ret.
    rewrite Hhas. cbn. eauto. }
  destruct Hsome as [pol Hpol].
  destruct (handler_cases ev w) as [_ [[_ [Hnone | Hnone]] | (d' & pol' & Hd' & Hb & Hcases)]];
    [congruence | congruence |].
  rewrite Hd in Hd'. injection Hd' as <-.
  pose proof (beginPipeline_spec d w) as (Hfst & _ & _ & _ & _ & _ & Hspec).
  cbv zeta in *. rewrite Hpol in Hspec.
  destruct Hspec as (_ & _ & _ & _ & Hpend1).
  set (w1 := snd (beginPipeline d w)) in *.
  destruct (getCurrentAdapterState_returns w1) as [st1 Hst1].
  destruct (handleAutoInsert_spec d w1 st1 Hst1)
    as (b' & calls & extra & _ & _ & Hpend2 & _ & _ & _ & _ & Hdid).
  set (w2 := snd (handleAutoInsert d w1)) in *.
  destruct (getCurrentAdapterState_returns w2) as [st2 Hst2].
  destruct (handleAutoSubmit_spec d w2 st2 Hst2)
    as (? & ? & _ & _ & Hpend3 & _).
  assert (Hextra : Forall (fun t => isConfirmationTask t = true) extra).
  { destruct Hdid as [(_ & _ & ->) | [(? & ? & r & _ & _ & _ & _ & _ & _ & ->)
                                     | (? & ? & ? & _ & _ & _ & _ & _ & _ & _ & ->)]];
      [constructor | | constructor].
    destruct (returnedTrue r); [|constructor]. unfold confirmationTasks.
    destruct (nonEmpty (confirmationText d)); [|constructor].
    destruct (cas_insertText st1); repeat constructor. }
  destruct Hcases as [[_ ->] | (_ & b & _ & [[_ ->] | (_ & _ & ->)])].
  - exists []. split; [|constructor]. apply newTasks_app. by rewrite app_nil_r.
  - exists extra. split; [|exact Hextra]. apply newTasks_app.
    fold w1 w2. by rewrite Hpend2, Hpend1, <- app_assoc.
  - exists extra. split; [|exact Hextra]. apply newTasks_app.
    fold w1 w2. by rewrite Hpend3, Hpend2, Hpend1, <- app_assoc.
Qed.

Lemma autoExecute_started_iff_enabled_witness :
  let w := automationWorld chatPlugin in
  exists extra,
    newTasks w (snd (handleToolExecutionComplete (textResult "done" true) w))
    = (if truthy (pref_autoExecute (preferences w))
       then [(0%Z, TaskAutoExecute (textDetail "done" true))] else []) ++ extra /\
    Forall (fun t => isConfirmationTask t = true) extra.
Proof.
  cbv zeta.
  apply (autoExecute_started_iff_enabled (textResult "done" true)
           (automationWorld chatPlugin) (textDetail "done" true));
    reflexivity.
Defined.

(** X25: the auto-execute task executes nothing: it returns normally; all
    it does is wait, at most once, and it waits exactly when the preferences
    accessor is set and the auto-execute delay of the preferences is
    positive; it calls no capability, emits nothing, starts no task and
    leaves the store alone. *)
Theorem autoExecute_task_only_waits (d : ToolExecutionCompleteDetail) (w : World) :
  fst (runTask (TaskAutoExecute d) w) = Returned tt /\
  (exists waits,
     log (snd (runTask (TaskAutoExecute d) w)) = log w ++ waits /\
     Forall (fun c => isSleepCall c = true) waits /\
     (length waits <= 1)%nat /\
     (waits <> [] <->
      has_getUserPreferences (storeRefs w) = true /\
      0 < orZero (pref_autoExecuteDelay (preferences w)))) /\
  store (snd (runTask (TaskAutoExecute d) w)) = store w /\
  pending (snd (runTask (TaskAutoExecute d) w)) = pending w.
Proof.
  destruct (getCurrentAdapterState_returns w) as [st0 Hst0].
  apply (wp_elim (runTask (TaskAutoExecute d))
           (fun o w' =>
              o = Returned tt /\
              (exists waits,
                 log w' = log w ++ waits /\
                 Forall (fun c => isSleepCall c = true) waits /\
                 (length waits <= 1)%nat /\
                 (waits <> [] <->
                  has_getUserPreferences (storeRefs w) = true /\
                  0 < orZero (pref_autoExecuteDelay (preferences w)))) /\
              store w' = store w /\ pending w' = pending w)).
  unfold runTask, handleAutoExecute. auto_run w Hst0.
  all: cbv beta; world_simpl.
  all: split; [reflexivity|]; split; [|split; reflexivity].
  all: eexists; split; [appended|].
  all: split; [repeat constructor|]; split; [cbn; lia|].
  all: unfold delayOf in *; cbn in *.
  all: repeat match goal with
              | H : (0 <? _)%Z = true |- _ => apply Z.ltb_lt in H
              | H : (0 <? _)%Z = false |- _ => apply Z.ltb_ge in H
              end.
  all: split; [intros Hne | intros [Hacc Hpos]];
       first [done | by split | congruence | lia | idtac].
Qed.

(** X26: the service never drives the persistent plugin: from every state
    the store's actions reach, no call of a run of the handler is addressed
    to [sidebar-plugin], whatever capabilities that plugin binds. *)
Theorem pipeline_never_drives_sidebar
    (acts : list Action) (prefs : Preferences) (refs : StoreRefs) (now : Z)
    (ev : CustomEvent) :
  let w := run acts (initialWorld prefs refs now) in
  Forall (fun c => callee c <> Some sidebar_plugin)
         (newCalls w (snd (handleToolExecutionComplete ev w))).
Proof.
  cbv zeta. set (w := run acts (initialWorld prefs refs now)).
  destruct (run_storeInv acts prefs refs now) as (_ & Hkeys & Hslot). fold w in Hkeys, Hslot.
  destruct (getCurrentAdapterState_returns w) as [st Hst].
  eapply Forall_impl; [exact (pipeline_drives ev w st Hst)|].
  intros c [Hsleep | (p & Hp & Hready & _ & Hcallee)]; [by destruct c|].
  destruct (ready_state w st p Hst Hp Hready) as (n & r & Hn & Hr & <- & _).
  rewrite Hcallee, (Hkeys n r Hr). intros [= ->].
  by destruct (Hslot _ Hn) as [Hne _].
Qed.

(** * The service object and its development helpers *)

(** X27: the development helper [testAutoSubmit] cannot submit: its event
    sets [skipAutoInsertCheck], so for every world the run logs no call, no
    wait included, and the adapter store is as before. *)
Theorem testAutoSubmit_never_submits (w : World) :
  fst (testAutoSubmit w) = Returned tt /\
  log (snd (testAutoSubmit w)) = log w /\
  store (snd (testAutoSubmit w)) = store w.
Proof.
  unfold testAutoSubmit, triggerTestAutomation.
  set (d := {| result := Some "Test result for auto submit";
               skipAutoInsertCheck := Some true |}).
  set (ev := {| detail := Some d |}).
  destruct (handler_cases ev w) as [Hret Hcases].
  split; [exact Hret|].
  destruct Hcases as [[-> _] | (d' & pol & Hd & Hb & Hcases)]; [by split|].
  injection Hd as <-.
  pose proof (beginPipeline_spec d w) as (_ & Hlog & Hstore & _).
  cbv zeta in *.
  destruct Hcases as [[_ ->] | (Hon & _)]; [by split|].
  rewrite andb_false_r in Hon. discriminate.
Qed.

Lemma filter_out_singleton (l : nat) :
  List.filter (fun x => negb (Nat.eqb x l)) [l] = [].
Proof. cbn. by rewrite Nat.eqb_refl. Qed.

(** [exposeAutomationStateToWindow] always returns. *)
Lemma exposeAutomationStateToWindow_returns w :
  fst (exposeAutomationStateToWindow w) = Returned tt.
Proof.
  unfold exposeAutomationStateToWindow, getAutomationState, try_catch, bind, world,
    getUserPreferences, setWindowAutomationState, ret.
  destruct (has_getUserPreferences (storeRefs w)); reflexivity.
Qed.

Lemma call_listenerInv c sw :
  AutomationService.listenerInv (fst sw) ->
  AutomationService.listenerInv (fst (AutomationService.call c sw)).
Proof.
  destruct sw as [s w]. unfold AutomationService.listenerInv. cbn [fst snd].
  intros [Hdoc Hnone].
  destruct c; cbn [AutomationService.call fst snd].
  - unfold AutomationService.initialize.
    destruct (AutomationService.isInitialized s) eqn:Hinit;
      [unfold ret; cbn [fst snd]; split; [exact Hdoc | rewrite Hinit; discriminate]|].
    unfold bind, initializeStoreAccess, try_catch, ret. cbn [fst snd].
    match goal with
    | |- context [exposeAutomationStateToWindow ?w1] =>
        pose proof (exposeAutomationStateToWindow_returns w1) as Hexp;
        destruct (exposeAutomationStateToWindow w1) as [o w']
    end.
    cbn [fst] in Hexp. subst o. cbn [fst snd].
    unfold AutomationService.setupMCPStateListener,
      AutomationService.setupToolExecutionListener, AutomationService.addEventListener.
    rewrite (Hnone eq_refl) in *. cbn. rewrite Hdoc. cbn.
    split; [reflexivity | discriminate].
  - unfold AutomationService.cleanup.
    destruct (AutomationService.isInitialized s) eqn:Hinit; cbn [negb]; [|auto].
    destruct (AutomationService.eventListener s) as [l|] eqn:Hl; cbn.
    + rewrite Hdoc, filter_out_singleton. split; auto.
    + rewrite Hl. split; auto.
Qed.

(** X28: however [initializeAutomationService] and
    [cleanupAutomationService] are called, one after the other, the service
    has at most one listener of [mcp:tool-execution-complete] on [document]:
    exactly its current listener while it is initialized, and none when it
    is not.  An event is therefore handled at most once. *)
Theorem service_has_at_most_one_listener
    (cs : list AutomationService.ServiceCall) (w : World) :
  let s := fst (AutomationService.calls cs (AutomationService.newService, w)) in
  AutomationService.documentListeners s
  = (if AutomationService.isInitialized s
     then [AutomationService.closures s - 1]%nat else []) /\
  AutomationService.eventListener s = head (AutomationService.documentListeners s).
Proof.
  cbv zeta.
  assert (Hinv : forall sw,
            (AutomationService.listenerInv (fst sw) /\
             (AutomationService.isInitialized (fst sw) = true ->
              AutomationService.eventListener (fst sw)
              = Some (AutomationService.closures (fst sw) - 1)%nat)) ->
            let s := fst (AutomationService.calls cs sw) in
            AutomationService.listenerInv s /\
            (AutomationService.isInitialized s = true ->
             AutomationService.eventListener s
             = Some (AutomationService.closures s - 1)%nat)).
  { induction cs as [|c cs IH]; intros sw [Hinv Hlast]; [by split|].
    cbn. apply IH. split; [by apply call_listenerInv|].
    destruct sw as [s w0]. destruct Hinv as [Hdoc Hnone]. cbn [fst snd] in *.
    destruct c; cbn [AutomationService.call fst snd].
    - unfold AutomationService.initialize.
      destruct (AutomationService.isInitialized s) eqn:Hinit;
        [unfold ret; cbn [fst snd]; intros _; apply Hlast; reflexivity|].
      unfold bind, initializeStoreAccess, try_catch, ret. cbn [fst snd].
      match goal with
      | |- context [exposeAutomationStateToWindow ?w1] =>
          pose proof (exposeAutomationStateToWindow_returns w1) as Hexp;
          destruct (exposeAutomationStateToWindow w1) as [o w']
      end.
      cbn [fst] in Hexp. subst o. cbn [fst snd].
      intros _.
      unfold AutomationService.setupMCPStateListener,
        AutomationService.setupToolExecutionListener, AutomationService.addEventListener.
      rewrite (Hnone eq_refl). cbn. f_equal. lia.
    - unfold AutomationService.cleanup.
      destruct (AutomationService.isInitialized s) eqn:Hinit; cbn;
        [discriminate | rewrite Hinit; discriminate]. }
  destruct (Hinv (AutomationService.newService, w)) as [[Hdoc Hnone] Hlast].
  { split; [split; [reflexivity | reflexivity] | discriminate]. }
  cbv zeta in *.
  set (s := fst (AutomationService.calls cs (AutomationService.newService, w))) in *.
  destruct (AutomationService.isInitialized s).
  - rewrite Hdoc, (Hlast eq_refl). by split.
  - rewrite Hdoc, (Hnone eq_refl). by split.
Qed.

(** X29: [initialize] always returns, leaves the service initialized with
    both store accessors set, and a second [initialize] changes neither the
    service nor the page. *)
Theorem initialize_is_idempotent (s : AutomationService.Service) (w : World) :
  exists s',
    fst (AutomationService.initialize s w) = Returned s' /\
    AutomationService.isInitialized s' = true /\
    (AutomationService.isInitialized s = false ->
     storeRefs (snd (AutomationService.initialize s w))
     = {| has_getUserPreferences := true; has_getCurrentAdapterState := true |}) /\
    AutomationService.initialize s' (snd (AutomationService.initialize s w))
    = (Returned s', snd (AutomationService.initialize s w)).
Proof.
  destruct (AutomationService.isInitialized s) eqn:Hinit.
  { exists s. unfold AutomationService.initialize. rewrite Hinit. unfold ret. cbn.
    rewrite ?Hinit. repeat split; reflexivity || discriminate. }
  assert (Hrun : exists s' w',
            AutomationService.initialize s w = (Returned s', w') /\
            AutomationService.isInitialized s' = true /\
            storeRefs w'
            = {| has_getUserPreferences := true; has_getCurrentAdapterState := true |}).
  { unfold AutomationService.initialize. rewrite Hinit.
    unfold bind, initializeStoreAccess, try_catch, ret. cbn [fst snd].
    match goal with
    | |- context [exposeAutomationStateToWindow ?w1] =>
        pose proof (exposeAutomationStateToWindow_returns w1) as Hexp;
        assert (Hrefs : storeRefs (snd (exposeAutomationStateToWindow w1)) = storeRefs w1);
        [|destruct (exposeAutomationStateToWindow w1) as [o w']]
    end.
    { unfold exposeAutomationStateToWindow, getAutomationState, try_catch, bind, world,
        getUserPreferences, setWindowAutomationState, ret. reflexivity. }
    cbn [fst snd] in *. subst o. eexists _, w'. split; [reflexivity|].
    split; [reflexivity | exact Hrefs]. }
  destruct Hrun as (s' & w' & Hrun & Hinit' & Hrefs).
  exists s'. rewrite Hrun. cbn [fst snd].
  split; [reflexivity|]. split; [exact Hinit'|]. split; [intros _; exact Hrefs|].
  unfold AutomationService.initialize. by rewrite Hinit'.
Qed.

(** The listener set up on a service that has none. *)
Lemma setupToolExecutionListener_fresh s :
  AutomationService.eventListener s = None ->
  AutomationService.documentListeners s = [] ->
  AutomationService.setupToolExecutionListener s
  = {| AutomationService.isInitialized := AutomationService.isInitialized s;
       AutomationService.eventListener := Some (AutomationService.closures s);
       AutomationService.documentListeners := [AutomationService.closures s];
       AutomationService.statusHandlers := AutomationService.statusHandlers s;
       AutomationService.closures := S (AutomationService.closures s) |}.
Proof.
  intros Hnone Hdoc.
  unfold AutomationService.setupToolExecutionListener, AutomationService.addEventListener.
  rewrite Hnone. cbn. by rewrite Hdoc.
Qed.

(** One round of [initialize] and [cleanup] on a service that is not
    initialized. *)
Lemma round_step s w :
  AutomationService.isInitialized s = false ->
  AutomationService.eventListener s = None ->
  AutomationService.documentListeners s = [] ->
  let s' := fst (AutomationService.call AutomationService.CleanupAutomationService
                   (AutomationService.call AutomationService.InitializeAutomationService
                      (s, w))) in
  AutomationService.statusHandlers s' = S (AutomationService.statusHandlers s) /\
  AutomationService.documentListeners s' = [] /\
  AutomationService.isInitialized s' = false /\
  AutomationService.eventListener s' = None.
Proof.
  intros Hinit Hnone Hdoc. cbv zeta.
  cbn [AutomationService.call fst snd]. unfold AutomationService.initialize. rewrite Hinit.
  unfold bind, initializeStoreAccess, try_catch, ret. cbn [fst snd].
  match goal with
  | |- context [exposeAutomationStateToWindow ?w1] =>
      pose proof (exposeAutomationStateToWindow_returns w1) as Hexp;
      destruct (exposeAutomationStateToWindow w1) as [o w']
  end.
  cbn [fst] in Hexp. subst o. cbn [fst snd].
  rewrite (setupToolExecutionListener_fresh s Hnone Hdoc).
  unfold AutomationService.cleanup, AutomationService.setupMCPStateListener,
    AutomationService.removeEventListener.
  cbn. rewrite Nat.eqb_refl. cbn. auto.
Qed.

(** X30: [cleanup] takes the document listener off but never the handler of
    [connection:status-changed] that [initialize] subscribed: after [n]
    rounds of [initialize] and [cleanup] the service is not initialized and
    has no document listener, and [n] handlers are subscribed on the event
    bus. *)
Theorem cleanup_keeps_status_handlers (n : nat) (w : World) :
  let s := fst (AutomationService.rounds n (AutomationService.newService, w)) in
  AutomationService.statusHandlers s = n /\
  AutomationService.documentListeners s = [] /\
  AutomationService.isInitialized s = false.
Proof.
  cbv zeta.
  assert (H : AutomationService.statusHandlers
                (fst (AutomationService.rounds n (AutomationService.newService, w))) = n /\
              AutomationService.documentListeners
                (fst (AutomationService.rounds n (AutomationService.newService, w))) = [] /\
              AutomationService.isInitialized
                (fst (AutomationService.rounds n (AutomationService.newService, w))) = false /\
              AutomationService.eventListener
                (fst (AutomationService.rounds n (AutomationService.newService, w))) = None);
    [|tauto].
  induction n as [|n IH]; [by cbn|].
  change (AutomationService.rounds (S n) (AutomationService.newService, w))
    with (AutomationService.call AutomationService.CleanupAutomationService
            (AutomationService.call AutomationService.InitializeAutomationService
               (AutomationService.rounds n (AutomationService.newService, w)))).
  destruct (AutomationService.rounds n (AutomationService.newService, w)) as [s w0].
  cbn [fst snd] in IH. destruct IH as (Hcount & Hdoc & Hinit & Hnone).
  destruct (round_step s w0 Hinit Hnone Hdoc) as (H1 & H2 & H3 & H4).
  rewrite Hcount in H1. auto.
Qed.
